(** * mypyc IR building: representation mapper, function contexts,
      call specializers and the boolean-literal check of semantic analysis

    A shallow embedding of
      - [mypyc/irbuild/mapper.py]     ([Mapper.type_to_rtype], [get_arg_rtype], [fdef_to_sig]),
      - [mypyc/irbuild/context.py]    ([FuncInfo]),
      - [mypyc/irbuild/specialize.py] (the specializer table, [str_encode_fast_path],
                                       [truncate_literal]),
      - [mypy/semanal_shared.py]      ([require_bool_literal_argument], [parse_bool]),
    together with the properties the specification states about them. *)

From Stdlib Require Import ZArith Lia List Bool String Ascii.
From stdpp Require Import base gmap strings.
Import ListNotations.

#[local] Set Warnings "-register-all".

Local Open Scope string_scope.
Local Open Scope list_scope.

(** ** Exceptions

    Python code that raises is embedded as a function into [Result]. *)

Inductive Exc : Type :=
| AssertionError (msg : string)
| KeyError
| AttributeError
| StopIteration.

Inductive Result (A : Type) : Type :=
| Ok (a : A)
| Raise (e : Exc).

Arguments Ok {A} a.
Arguments Raise {A} e.

Definition bind {A B : Type} (r : Result A) (k : A -> Result B) : Result B :=
  match r with
  | Ok a => k a
  | Raise e => Raise e
  end.

Notation "'do' x <- r ; k" := (bind r (fun x => k))
  (at level 10, x name, r at level 100, k at level 200).

Definition is_Some_b {A : Type} (o : option A) : bool :=
  match o with Some _ => true | None => false end.

Definition is_ok {A : Type} (r : Result A) : bool :=
  match r with Ok _ => true | Raise _ => false end.

Section MapM.
Context {A B : Type}.
Variable f : A -> Result B.

(** A list comprehension [[f(x) for x in l]] whose body may raise: the
    first exception, in iteration order, aborts the comprehension. *)
Fixpoint mapM (l : list A) : Result (list B) :=
  match l with
  | [] => Ok []
  | x :: rest =>
      do y <- f x;
      do ys <- mapM rest;
      Ok (y :: ys)
  end.
End MapM.

Section All2.
Context {A B : Type}.
Variable f : A -> B -> bool.

(** Equality of two sequences, component by component. *)
Fixpoint all2b (l1 : list A) (l2 : list B) : bool :=
  match l1, l2 with
  | [], [] => true
  | x :: l1', y :: l2' => f x y && all2b l1' l2'
  | _, _ => false
  end.
End All2.

(** ** Runtime representation types ([mypyc/ir/rtypes.py]) *)

Module RTypes.

(** Modelled from the spec: the declarations of [mypyc/ir/rtypes.py] are
    not among the files embedded here.  An [RPrimitive] carries the
    attributes that [truncate_literal] and the equality of
    representations read: its name, its signedness and its size in
    bytes. *)
Record RPrimitive : Type := mkRPrimitive {
  name : string;
  is_signed : bool;
  size : Z
}.

Record ClassIR : Type := mkClassIR {
  class_name : string;
  module_name : string
}.

Definition class_fullname (ir : ClassIR) : string :=
  module_name ir ++ "." ++ class_name ir.

(** The tagged variant of runtime representations: primitives,
    fixed-arity unboxed tuples, instances of compiled classes, unions. *)
Inductive RType : Type :=
| RPrim (p : RPrimitive)
| RTuple (types : list RType)
| RInstance (class_ir : ClassIR)
| RUnion (items : list RType).

Definition PLATFORM_SIZE : Z := 8.

Definition boxed (n : string) : RType :=
  RPrim (mkRPrimitive n false PLATFORM_SIZE).

Definition object_rprimitive : RType := boxed "builtins.object".
Definition int_rprimitive : RType := boxed "builtins.int".
Definition float_rprimitive : RType := boxed "builtins.float".
Definition bool_rprimitive : RType := RPrim (mkRPrimitive "builtins.bool" false 1).
Definition str_rprimitive : RType := boxed "builtins.str".
Definition bytes_rprimitive : RType := boxed "builtins.bytes".
Definition list_rprimitive : RType := boxed "builtins.list".
Definition dict_rprimitive : RType := boxed "builtins.dict".
Definition set_rprimitive : RType := boxed "builtins.set".
Definition frozenset_rprimitive : RType := boxed "builtins.frozenset".
Definition tuple_rprimitive : RType := boxed "builtins.tuple".
Definition range_rprimitive : RType := boxed "builtins.range".
Definition none_rprimitive : RType := RPrim (mkRPrimitive "builtins.None" false 1).

Definition int64_prim : RPrimitive := mkRPrimitive "i64" true 8.
Definition int32_prim : RPrimitive := mkRPrimitive "i32" true 4.
Definition int16_prim : RPrimitive := mkRPrimitive "i16" true 2.
Definition uint8_prim : RPrimitive := mkRPrimitive "u8" false 1.

Definition int64_rprimitive : RType := RPrim int64_prim.
Definition int32_rprimitive : RType := RPrim int32_prim.
Definition int16_rprimitive : RType := RPrim int16_prim.
Definition uint8_rprimitive : RType := RPrim uint8_prim.

(** Modelled from the spec: [RType.__eq__] of [mypyc/ir/rtypes.py].
    Primitives and instances compare by name, tuples component-wise, and
    unions as sets of items ("order in a union doesn't matter"). *)
Fixpoint rtype_eqb (a b : RType) {struct a} : bool :=
  match a, b with
  | RPrim p, RPrim q => String.eqb (name p) (name q)
  | RTuple ts, RTuple us => all2b rtype_eqb ts us
  | RInstance c, RInstance d => String.eqb (class_fullname c) (class_fullname d)
  | RUnion xs, RUnion ys =>
      List.forallb (fun x => List.existsb (fun y => rtype_eqb x y) ys) xs
      && List.forallb (fun y => List.existsb (fun x => rtype_eqb x y) xs) ys
  | _, _ => false
  end.

Definition is_RUnion (t : RType) : bool :=
  match t with RUnion _ => true | _ => false end.

(** Modelled from the spec: [flatten_nested_unions] of
    [mypyc/ir/rtypes.py]; the items of nested unions are spliced in
    place, recursively. *)
Fixpoint flatten_rtype (t : RType) : list RType :=
  match t with
  | RUnion items => List.flat_map flatten_rtype items
  | _ => [t]
  end.

Definition flatten_nested_unions (types : list RType) : list RType :=
  List.flat_map flatten_rtype types.

Definition mem_rtype (x : RType) (l : list RType) : bool :=
  List.existsb (fun y => rtype_eqb y x) l.

(** No two items of the list are equal. *)
Fixpoint distinct (l : list RType) : bool :=
  match l with
  | [] => true
  | x :: rest => negb (mem_rtype x rest) && distinct rest
  end.

(** [dict.fromkeys(items)]: the keys in first-insertion order, a key
    equal to one already present being dropped. *)
Fixpoint fromkeys_from (seen : list RType) (items : list RType) : list RType :=
  match items with
  | [] => seen
  | x :: rest =>
      if mem_rtype x seen then fromkeys_from seen rest
      else fromkeys_from (seen ++ [x]) rest
  end.

Definition fromkeys (items : list RType) : list RType := fromkeys_from [] items.

(** Modelled from the spec: [RUnion.make_simplified_union] of
    [mypyc/ir/rtypes.py], "unions are simplified (deduplicated,
    flattened) on construction"; a union of one item is that item, and
    a union of no item at all is refused by an assertion. *)
Definition make_simplified_union (items : list RType) : Result RType :=
  match flatten_nested_unions items with
  | [] => Raise (AssertionError EmptyString)
  | flat =>
      let unique_items := fromkeys flat in
      if (1 <? length unique_items)%nat then Ok (RUnion unique_items)
      else match unique_items with
           | u :: _ => Ok u
           | [] => Raise StopIteration
           end
  end.

(** A representation is simplified when, if it is a union, its items
    are no unions themselves, are distinct, and are two at least. *)
Definition simplified (t : RType) : bool :=
  match t with
  | RUnion items =>
      List.forallb (fun x => negb (is_RUnion x)) items
      && distinct items
      && (2 <=? length items)%nat
  | _ => true
  end.

(** Two outcomes agree when both are representations that are equal,
    or both are failures. *)
Definition results_agree (r1 r2 : Result RType) : Prop :=
  match r1, r2 with
  | Ok a, Ok b => rtype_eqb a b = true
  | Raise _, Raise _ => True
  | _, _ => False
  end.

End RTypes.
Import RTypes.

Section RTypeInduction.
Variable P : RType -> Prop.
Hypothesis HPrim : forall p, P (RPrim p).
Hypothesis HTuple : forall ts, Forall P ts -> P (RTuple ts).
Hypothesis HInstance : forall c, P (RInstance c).
Hypothesis HUnion : forall items, Forall P items -> P (RUnion items).

(** Induction on representations, with the induction hypothesis on every
    component of a tuple and every item of a union. *)
Fixpoint RType_nested_ind (t : RType) : P t :=
  let fix all (l : list RType) : Forall P l :=
    match l with
    | [] => List.Forall_nil P
    | x :: rest => @List.Forall_cons _ P x rest (RType_nested_ind x) (all rest)
    end in
  match t with
  | RPrim p => HPrim p
  | RTuple ts => HTuple ts (all ts)
  | RInstance c => HInstance c
  | RUnion items => HUnion items (all items)
  end.
End RTypeInduction.

(** ** Static types ([mypy/types.py], [mypy/nodes.py]) *)

Module Types.

Inductive ArgKind : Type :=
| ARG_POS | ARG_OPT | ARG_STAR | ARG_NAMED | ARG_STAR2 | ARG_NAMED_OPT.

Definition ArgKind_eqb (a b : ArgKind) : bool :=
  match a, b with
  | ARG_POS, ARG_POS | ARG_OPT, ARG_OPT | ARG_STAR, ARG_STAR
  | ARG_NAMED, ARG_NAMED | ARG_STAR2, ARG_STAR2
  | ARG_NAMED_OPT, ARG_NAMED_OPT => true
  | _, _ => false
  end.

(** A class as the mapper sees it.  [uid] stands for the identity of the
    [TypeInfo] object (the key of [Mapper.type_to_ir]); [mro] lists the
    full names of the classes of the method resolution order, the only
    attribute the mapper reads of them. *)
Record TypeInfo : Type := mkTypeInfo {
  uid : positive;
  fullname : string;
  mro : list string;
  is_protocol : bool
}.

Record Instance : Type := mkInstance { type : TypeInfo }.

Inductive TypeOfAny : Type :=
| unannotated | explicit | from_unimported_type | from_omitted_generics
| from_error | special_form | from_another_any | implementation_artifact
| suggestion_engine.

(** The static types that can be handed to the mapper.  [TypeAliasType]
    is the one type that is not proper: [get_proper_type] replaces it by
    its target. *)
Inductive Type_ : Type :=
| TInstance (inst : Instance)
| TupleType (items : list Type_) (partial_fallback : Instance)
| CallableType (arg_types : list Type_) (arg_kinds : list ArgKind)
               (arg_names : list (option string)) (ret_type : Type_)
| NoneTyp
| UnionType (items : list Type_)
| AnyType (type_of_any : TypeOfAny)
| TypeType (item : Type_)
| TypeVarLikeType (upper_bound : Type_)
| PartialType (var_type : option Type_)
| Overloaded (items : list Type_)
| TypedDictType (fallback : Instance)
| LiteralType (fallback : Instance)
| UninhabitedType
| UnboundType (name : string)
| UnpackType (typ : Type_)
| PlaceholderType (fullname : option string)
| TypeAliasType (target : Type_).

Fixpoint get_proper_type (typ : Type_) : Type_ :=
  match typ with
  | TypeAliasType target => get_proper_type target
  | _ => typ
  end.

Definition is_UnpackType (t : Type_) : bool :=
  match t with UnpackType _ => true | _ => false end.

(** Modelled from the spec: [find_unpack_in_list] of [mypy/types.py],
    the position of the unpacked (variadic) item of a list of types, if
    there is one. *)
Fixpoint find_unpack_in_list (items : list Type_) : option nat :=
  match items with
  | [] => None
  | t :: rest =>
      if is_UnpackType t then Some 0%nat
      else option_map S (find_unpack_in_list rest)
  end.

End Types.
Import Types.

(** ** The mapper ([mypyc/irbuild/mapper.py]) *)

Module MapperM.

(** The dictionaries of [Mapper] keyed by objects ([TypeInfo], [FuncDef])
    are keyed here by the identity of the object. *)
Record Mapper : Type := mkMapper {
  group_map : gmap string (option string);
  type_to_ir : gmap positive ClassIR;
  symbol_fullnames : gset string;
  fdef_to_generator : gmap positive ClassIR
}.

Definition unexpected_type (cls : string) : Exc :=
  AssertionError ("unexpected type <class 'mypy.types." ++ cls ++ "'>").

(** The [isinstance(typ, Instance)] branch of [type_to_rtype]. *)
Definition instance_to_rtype (self : Mapper) (typ : Instance) : RType :=
  let fn := fullname (type typ) in
  if fn =? "builtins.int" then int_rprimitive
  else if fn =? "builtins.float" then float_rprimitive
  else if fn =? "builtins.bool" then bool_rprimitive
  else if fn =? "builtins.str" then str_rprimitive
  else if fn =? "builtins.bytes" then bytes_rprimitive
  else if fn =? "builtins.list" then list_rprimitive
  else if List.existsb (fun cls => cls =? "builtins.dict") (mro (type typ))
    then dict_rprimitive
  else if fn =? "builtins.set" then set_rprimitive
  else if fn =? "builtins.frozenset" then frozenset_rprimitive
  else if fn =? "builtins.tuple" then tuple_rprimitive
  else if fn =? "builtins.range" then range_rprimitive
  else match type_to_ir self !! uid (type typ) with
       | Some ir =>
           let inst := RInstance ir in
           if is_protocol (type typ) then RUnion [inst; object_rprimitive]
           else inst
       | None =>
           if fn =? "mypy_extensions.i64" then int64_rprimitive
           else if fn =? "mypy_extensions.i32" then int32_rprimitive
           else if fn =? "mypy_extensions.i16" then int16_rprimitive
           else if fn =? "mypy_extensions.u8" then uint8_rprimitive
           else object_rprimitive
       end.

(** [Mapper.type_to_rtype] on a type that is not [None].  The first
    case is [typ = get_proper_type(typ)]; the last ones are the types no
    [isinstance] test of the function accepts, which fall through to its
    final [assert False]. *)
Fixpoint type_to_rtype (self : Mapper) (typ : Type_) {struct typ} : Result RType :=
  match typ with
  | TypeAliasType target => type_to_rtype self target
  | TInstance inst => Ok (instance_to_rtype self inst)
  | TupleType items partial_fallback =>
      if (fullname (type partial_fallback) =? "builtins.tuple")
         && negb (is_Some_b (find_unpack_in_list items))
      then do ts <- mapM (type_to_rtype self) items; Ok (RTuple ts)
      else Ok tuple_rprimitive
  | CallableType _ _ _ _ => Ok object_rprimitive
  | NoneTyp => Ok none_rprimitive
  | UnionType items =>
      do ts <- mapM (type_to_rtype self) items; make_simplified_union ts
  | AnyType _ => Ok object_rprimitive
  | TypeType _ => Ok object_rprimitive
  | TypeVarLikeType upper_bound => type_to_rtype self upper_bound
  | PartialType var_type =>
      match var_type with
      | Some t => type_to_rtype self t
      | None => Raise (AssertionError EmptyString)
      end
  | Overloaded _ => Ok object_rprimitive
  | TypedDictType _ => Ok dict_rprimitive
  | LiteralType fallback => Ok (instance_to_rtype self fallback)
  | UninhabitedType => Ok object_rprimitive
  | UnboundType _ => Ok object_rprimitive
  | UnpackType _ => Raise (unexpected_type "UnpackType")
  | PlaceholderType _ => Raise (unexpected_type "PlaceholderType")
  end.

(** [Mapper.type_to_rtype] with its full domain, [Type | None]. *)
Definition type_to_rtype_opt (self : Mapper) (typ : option Type_) : Result RType :=
  match typ with
  | None => Ok object_rprimitive
  | Some t => type_to_rtype self t
  end.

Definition get_arg_rtype (self : Mapper) (typ : Type_) (kind : ArgKind) : Result RType :=
  match kind with
  | ARG_STAR => Ok tuple_rprimitive
  | ARG_STAR2 => Ok dict_rprimitive
  | _ => type_to_rtype self typ
  end.

(** The part of a [FuncDef] that [fdef_to_sig] reads.  [arguments] is
    [None] for a deserialized [FuncDef], which lacks the attribute
    ([hasattr(fdef, "arguments")] is false); [has_info] is
    [bool(fdef.info)]. *)
Record Argument : Type := mkArgument {
  variable_name : string;
  pos_only : bool
}.

Record FuncDef : Type := mkFuncDef {
  fdef_uid : positive;
  fdef_name : string;
  fdef_type : option Type_;
  is_coroutine : bool;
  is_generator : bool;
  is_decorated : bool;
  arguments : option (list Argument);
  fdef_arg_names : list (option string);
  fdef_arg_kinds : list ArgKind;
  has_info : bool
}.

Record RuntimeArg : Type := mkRuntimeArg {
  arg_name : string;
  arg_type : RType;
  arg_kind : ArgKind;
  arg_pos_only : bool
}.

Record FuncSignature : Type := mkFuncSignature {
  sig_args : list RuntimeArg;
  sig_ret_type : RType
}.

(** [zip] of four lists, cut at the shortest. *)
Definition zip4 {A B C D : Type}
    (la : list A) (lb : list B) (lc : list C) (ld : list D) : list (A * B * C * D) :=
  List.combine (List.combine (List.combine la lb) lc) ld.

Definition is_none {A : Type} (o : option A) : bool :=
  match o with None => true | Some _ => false end.

Definition comparison_dunders : list string :=
  ["__eq__"; "__ne__"; "__lt__"; "__gt__"; "__le__"; "__ge__"].

Definition fdef_to_sig (self : Mapper) (fdef : FuncDef) (strict_dunders_typing : bool)
    : Result FuncSignature :=
  do typed <-
    match fdef_type fdef with
    | Some (CallableType arg_types arg_kinds arg_names ret_type) =>
        do arg_types <-
          mapM (fun tk => get_arg_rtype self (fst tk) (snd tk))
               (List.combine arg_types arg_kinds);
        let arg_pos_onlys := List.map is_none arg_names in
        do ret <-
          (if (is_coroutine fdef || is_generator fdef) && negb (is_decorated fdef)
           then match fdef_to_generator self !! fdef_uid fdef with
                | Some ir => Ok (RInstance ir)
                | None => Raise KeyError
                end
           else type_to_rtype self ret_type);
        Ok (arg_types, arg_pos_onlys, ret)
    | _ =>
        match arguments fdef with
        | None => Raise AttributeError
        | Some args =>
            let arg_types := List.map (fun _ => object_rprimitive) args in
            let arg_pos_onlys := List.map pos_only args in
            let is_init_method := (fdef_name fdef =? "__init__") && has_info fdef in
            Ok (arg_types, arg_pos_onlys,
                if is_init_method then none_rprimitive else object_rprimitive)
        end
    end;
  let '(arg_types, arg_pos_onlys, ret) := typed in
  let arg_names :=
    match arguments fdef with
    | Some args => List.map variable_name args
    | None => List.map (fun n => match n with Some s => s | None => EmptyString end)
                       (fdef_arg_names fdef)
    end in
  let args :=
    List.map (fun '(n, k, t, p) => mkRuntimeArg n t k p)
             (zip4 arg_names (fdef_arg_kinds fdef) arg_types arg_pos_onlys) in
  let ret :=
    if negb strict_dunders_typing
       && List.existsb (String.eqb (fdef_name fdef)) comparison_dunders
    then object_rprimitive else ret in
  Ok (mkFuncSignature args ret).

Definition is_native_module (self : Mapper) (module : string) : bool :=
  is_Some_b (group_map self !! module).

End MapperM.
Import MapperM.

(** ** Values of the IR ([mypyc/ir/ops.py]) *)

Module Ops.

(** Modelled from the spec: an IR value is an integer literal, with its
    numeric value and representation, or a register, or the result of
    an emitted operation. *)
Inductive Value : Type :=
| Integer (numeric_value : Z) (type : RType)
| Register (type : RType) (name : string)
| OpResult (op : nat) (type : RType).

End Ops.
Import Ops.

(** ** Function contexts ([mypyc/irbuild/context.py]) *)

Module Context.

Record ImplicitClass : Type := mkImplicitClass { ir : ClassIR }.

(** [FuncInfo]: the information kept about a function while its IR is
    generated.  The links to synthesized classes are attached lazily,
    and reading one before it is attached fails an assertion. *)
Record FuncInfo : Type := mkFuncInfo {
  fitem : FuncDef;
  name : string;
  class_name : option string;
  ns : string;
  _callable_class : option ImplicitClass;
  _env_class : option ClassIR;
  _generator_class : option ImplicitClass;
  _curr_env_reg : option Value;
  is_nested : bool;
  contains_nested : bool;
  is_decorated : bool;
  in_non_ext : bool;
  add_nested_funcs_to_env : bool
}.

Definition is_generator (self : FuncInfo) : bool :=
  MapperM.is_generator (fitem self) || MapperM.is_coroutine (fitem self).

Definition is_coroutine (self : FuncInfo) : bool :=
  MapperM.is_coroutine (fitem self).

Definition env_class (self : FuncInfo) : Result ClassIR :=
  match _env_class self with
  | Some c => Ok c
  | None => Raise (AssertionError EmptyString)
  end.

Definition generator_class (self : FuncInfo) : Result ImplicitClass :=
  match _generator_class self with
  | Some c => Ok c
  | None => Raise (AssertionError EmptyString)
  end.

Definition curr_env_reg (self : FuncInfo) : Result Value :=
  match _curr_env_reg self with
  | Some v => Ok v
  | None => Raise (AssertionError EmptyString)
  end.

Definition set_env_class (self : FuncInfo) (c : ClassIR) : FuncInfo :=
  mkFuncInfo (fitem self) (name self) (class_name self) (ns self)
             (_callable_class self) (Some c) (_generator_class self)
             (_curr_env_reg self)
             (is_nested self) (contains_nested self) (is_decorated self)
             (in_non_ext self) (add_nested_funcs_to_env self).

Definition set_generator_class (self : FuncInfo) (c : ImplicitClass) : FuncInfo :=
  mkFuncInfo (fitem self) (name self) (class_name self) (ns self)
             (_callable_class self) (_env_class self) (Some c)
             (_curr_env_reg self)
             (is_nested self) (contains_nested self) (is_decorated self)
             (in_non_ext self) (add_nested_funcs_to_env self).

Definition can_merge_generator_and_env_classes (self : FuncInfo) : bool :=
  is_generator self && negb (is_nested self) && negb (contains_nested self).

(** Modelled from the spec: the classes synthesized for a generator
    function are created by code that is not embedded here.  A
    synthesized class is an object: each class that is created is
    appended to the list of the "synthesized class descriptors" handed
    on to code generation, and is identified by its place in that list,
    as an object is by its address, whatever its contents.  [SetUp] is
    that list, with the function context and the places of the classes
    its environment and generator links point to. *)
Record SetUp : Type := mkSetUp {
  classes : list ClassIR;
  fn_info : FuncInfo;
  env_class_at : option nat;
  generator_class_at : option nat
}.

(** Creating a class: a new object, at the end of the list. *)
Definition new_class (classes : list ClassIR) (c : ClassIR) : nat * list ClassIR :=
  (length classes, classes ++ [c]).

(** Modelled from the spec: the set-up of the classes of a generator
    function.  "When the generator function is neither itself nested nor
    contains nested functions, its EnvironmentClass and
    GeneratorStateMachine may be merged into a single synthesized class
    (one allocation instead of two)": the state-machine class is created
    and both links point to it.  Else the environment class is created
    as a class of its own, and then the state-machine class.
    [generator_class_ir] and [env_class_ir] are the contents the created
    classes are given. *)
Definition setup_generator_classes (classes : list ClassIR) (self : FuncInfo)
    (generator_class_ir env_class_ir : ClassIR) : SetUp :=
  if can_merge_generator_and_env_classes self
  then
    let '(g, classes) := new_class classes generator_class_ir in
    let self := set_env_class self generator_class_ir in
    let self := set_generator_class self (mkImplicitClass generator_class_ir) in
    mkSetUp classes self (Some g) (Some g)
  else
    let '(e, classes) := new_class classes env_class_ir in
    let self := set_env_class self env_class_ir in
    let '(g, classes) := new_class classes generator_class_ir in
    let self := set_generator_class self (mkImplicitClass generator_class_ir) in
    mkSetUp classes self (Some e) (Some g).

(** The synthesized classes the links of a function context point to,
    each once. *)
Definition synthesized_classes (s : SetUp) : list nat :=
  match env_class_at s, generator_class_at s with
  | Some e, Some g => if Nat.eqb e g then [e] else [e; g]
  | Some e, None => [e]
  | None, Some g => [g]
  | None, None => []
  end.

End Context.

(** ** Expressions ([mypy/nodes.py]) *)

Module Nodes.

(** Modelled from the spec: the expression nodes the specializers and
    the literal check inspect; every other node is an [OtherExpr]. *)
Inductive Expression : Type :=
| NameExpr (name : string) (fullname : string)
| MemberExpr (expr : Expression) (name : string) (fullname : string)
| StrExpr (value : string)
| BytesExpr (value : string)
| IntExpr (value : Z)
| OtherExpr (node : nat).

(** One actual argument of a call: the entries of [CallExpr.args],
    [CallExpr.arg_kinds] and [CallExpr.arg_names] at one index (the
    three lists are parallel). *)
Record CallArg : Type := mkCallArg {
  arg : Expression;
  kind : ArgKind;
  arg_name : option string
}.

Record CallExpr : Type := mkCallExpr {
  callee : Expression;
  args : list CallArg;
  line : Z
}.

Definition is_StrExpr (e : Expression) : bool :=
  match e with StrExpr _ => true | _ => false end.

End Nodes.
Import Nodes.

(** ** Call specializers ([mypyc/irbuild/specialize.py]) *)

Module Specialize.

(** *** Truncation of integer literals *)

Definition truncate_literal (value : Value) (rtype : RPrimitive) : Value :=
  match value with
  | Integer x _ =>
      let max_unsigned := (Z.shiftl 1 (size rtype * 8) - 1)%Z in
      let x := Z.land x max_unsigned in
      let x :=
        if is_signed rtype && (x >=? (max_unsigned + 1) / 2)%Z
        then (x - (max_unsigned + 1))%Z
        else x in
      Integer x (RPrim rtype)
  | _ => value
  end.

(** What the specification says of the truncation: the value modulo
    [2^(8s)], taken in the negative half when the target is signed. *)
Definition twos_complement (v : Z) (s : Z) (signed : bool) : Z :=
  let r := (v mod 2 ^ (8 * s))%Z in
  if signed && (2 ^ (8 * s - 1) <=? r)%Z then (r - 2 ^ (8 * s))%Z else r.

(** *** The table of specializers

    A specializer reads the call and may emit code into the builder; it
    is a function of the builder state that returns the new state along
    with its answer, [None] when it declines. *)
Section Registry.
Variable IRBuilder : Type.

Definition Specializer : Type :=
  IRBuilder -> CallExpr -> Expression -> option Value * IRBuilder.

Definition Key : Type := string * option RType.

(** Equality of the keys [(name, typ)] of the dictionary. *)
Definition Key_eqb (k k' : Key) : bool :=
  (fst k =? fst k')
  && match snd k, snd k' with
     | None, None => true
     | Some t, Some t' => rtype_eqb t t'
     | _, _ => false
     end.

(** The dictionary [specializers], in insertion order of its keys. *)
Definition Specializers : Type := list (Key * list Specializer).

Fixpoint lookup (specializers : Specializers) (k : Key) : option (list Specializer) :=
  match specializers with
  | [] => None
  | (k', rules) :: rest => if Key_eqb k' k then Some rules else lookup rest k
  end.

(** [specializers.setdefault((name, typ), []).append(f)] *)
Fixpoint specialize_function (name : string) (typ : option RType) (f : Specializer)
    (specializers : Specializers) : Specializers :=
  match specializers with
  | [] => [((name, typ), [f])]
  | (k', rules) :: rest =>
      if Key_eqb k' (name, typ) then (k', rules ++ [f]) :: rest
      else (k', rules) :: specialize_function name typ f rest
  end.

(** A call made to a specializer: which one, by its position in the
    list of its key, and what it returned. *)
Record Attempt : Type := mkAttempt {
  rule : nat;
  returned : option Value
}.

(** The loop of [_apply_specialization] over the specializers of a
    key, from position [i] on.  Next to the answer and the builder,
    the calls made are returned, in the order they were made. *)
Fixpoint first_successful (i : nat) (rules : list Specializer)
    (builder : IRBuilder) (expr : CallExpr) (callee : Expression)
    : option Value * IRBuilder * list Attempt :=
  match rules with
  | [] => (None, builder, [])
  | specializer :: rest =>
      let '(val, builder) := specializer builder expr callee in
      match val with
      | Some v => (Some v, builder, [mkAttempt i (Some v)])
      | None =>
          let '(res, builder, calls) := first_successful (S i) rest builder expr callee in
          (res, builder, mkAttempt i None :: calls)
      end
  end.

Definition _apply_specialization (specializers : Specializers)
    (builder : IRBuilder) (expr : CallExpr) (callee : Expression)
    (name : option string) (typ : option RType)
    : option Value * IRBuilder * list Attempt :=
  match name with
  | Some n =>
      if negb (n =? EmptyString) then
        match lookup specializers (n, typ) with
        | Some rules => first_successful 0 rules builder expr callee
        | None => (None, builder, [])
        end
      else (None, builder, [])
  | None => (None, builder, [])
  end.

(** The specializers of [rules] all decline, one after the other,
    taking the builder from [b] to [b']. *)
Inductive all_decline (expr : CallExpr) (callee : Expression)
    : list Specializer -> IRBuilder -> IRBuilder -> Prop :=
| all_decline_nil b : all_decline expr callee [] b b
| all_decline_cons f rest b b1 b' :
    f b expr callee = (None, b1) ->
    all_decline expr callee rest b1 b' ->
    all_decline expr callee (f :: rest) b b'.

(** The calls of a run in which the [n] specializers from position
    [i] on are tried and decline. *)
Definition declined (i n : nat) : list Attempt :=
  List.map (fun j => mkAttempt j None) (List.seq i n).

Definition succeeded (a : Attempt) : bool := is_Some_b (returned a).

(** One use of the decorator: [@specialize_function(name, typ)] put on
    [f]. *)
Record Registration : Type := mkRegistration {
  reg_name : string;
  reg_typ : option RType;
  reg_rule : Specializer
}.

Definition reg_key (r : Registration) : Key := (reg_name r, reg_typ r).

(** The table after a sequence of registrations, made in order. *)
Definition register_all (regs : list Registration) (specializers : Specializers)
    : Specializers :=
  List.fold_left
    (fun tbl r => specialize_function (reg_name r) (reg_typ r) (reg_rule r) tbl)
    regs specializers.

(** The specializers registered for a key, in the order of their
    registration. *)
Definition registered_for (k : Key) (regs : list Registration) : list Specializer :=
  List.map reg_rule (List.filter (fun r => Key_eqb (reg_key r) k) regs).

End Registry.

(** *** [str.encode]

    A Python string is represented by the bytes of its UTF-8 encoding:
    an ASCII character is one byte below 128, and every byte of another
    character is 128 or more.  So comparing two strings, and dropping
    every "-" or "_", are the same on the bytes as on the characters.

    [str.lower] is a built-in of Python, aware of Unicode, and no code
    of this repository: the specializer is embedded with [str.lower] as
    a parameter, [lower].  What [str.lower] does to ASCII text is
    written out as [lower_ascii_string], and [lowers_ascii] says of a
    [lower] that it does that to ASCII text; nothing is said of what it
    does to other text. *)

Definition lower_ascii (c : ascii) : ascii :=
  let n := nat_of_ascii c in
  if (65 <=? n)%nat && (n <=? 90)%nat then ascii_of_nat (n + 32) else c.

(** The letters A to Z are replaced by a to z, every other character is
    kept. *)
Fixpoint lower_ascii_string (s : string) : string :=
  match s with
  | EmptyString => EmptyString
  | String c rest => String (lower_ascii c) (lower_ascii_string rest)
  end.

(** [s.isascii()]: every character is an ASCII character. *)
Fixpoint is_ascii (s : string) : bool :=
  match s with
  | EmptyString => true
  | String c rest => (nat_of_ascii c <? 128)%nat && is_ascii rest
  end.

Definition lowers_ascii (lower : string -> string) : Prop :=
  forall s, is_ascii s = true -> lower s = lower_ascii_string s.

(** [s.replace(c, empty)] for a one-character [c]: every [c] is dropped. *)
Fixpoint remove_char (c : ascii) (s : string) : string :=
  match s with
  | EmptyString => EmptyString
  | String d rest =>
      if Ascii.eqb d c then remove_char c rest else String d (remove_char c rest)
  end.

(** [encoding.lower().replace("-", empty).replace("_", empty)] *)
Definition normalize (lower : string -> string) (encoding : string) : string :=
  remove_char "_"%char (remove_char "-"%char (lower encoding)).

Definition str_in (s : string) (l : list string) : bool :=
  List.existsb (String.eqb s) l.

Definition utf8_aliases : list string := ["u8"; "utf"; "utf8"; "cp65001"].
Definition ascii_aliases : list string := ["646"; "ascii"; "usascii"].
Definition latin1_aliases : list string :=
  ["iso88591"; "8859"; "cp819"; "latin"; "latin1"; "l1"].

(** The primitives of [mypyc/primitives/str_ops.py] the specializer calls. *)
Inductive CFunctionDescription : Type :=
| str_encode_utf8_strict
| str_encode_ascii_strict
| str_encode_latin1_strict.

(** How the specializer reads the argument at one position: a string
    literal updates [encoding] or [errors] by its kind and name, a kind
    that is neither positional nor named gives up.
    [positional_is_encoding] says which of the two a positional
    argument at this position sets. *)
Definition read_arg (a : option CallArg) (positional_is_encoding : bool)
    (encoding errors : string) : option (string * string) :=
  match a with
  | Some (mkCallArg (StrExpr value) k n) =>
      match k with
      | ARG_NAMED =>
          match n with
          | Some nm =>
              if nm =? "encoding" then Some (value, errors)
              else if nm =? "errors" then Some (encoding, value)
              else Some (encoding, errors)
          | None => Some (encoding, errors)
          end
      | ARG_POS =>
          if positional_is_encoding then Some (value, errors)
          else Some (encoding, value)
      | _ => None
      end
  | _ => Some (encoding, errors)
  end.

Definition not_a_StrExpr (a : option CallArg) : bool :=
  match a with
  | Some a => negb (is_StrExpr (arg a))
  | None => false
  end.

Section StrEncode.
Variable IRBuilder : Type.
(** [str.lower] *)
Variable lower : string -> string.
(** The services of the builder: [builder.accept(expr)] and
    [builder.call_c(desc, args, line)], which emit code. *)
Variable accept : IRBuilder -> Expression -> Value * IRBuilder.
Variable call_c : IRBuilder -> CFunctionDescription -> list Value -> Z -> Value * IRBuilder.

(** [builder.call_c(desc, [builder.accept(callee.expr)], expr.line)] *)
Definition emit_encode (builder : IRBuilder) (desc : CFunctionDescription)
    (receiver : Expression) (line : Z) : option Value * IRBuilder :=
  let '(obj, builder) := accept builder receiver in
  let '(res, builder) := call_c builder desc [obj] line in
  (Some res, builder).

Definition str_encode_fast_path (builder : IRBuilder) (expr : CallExpr)
    (callee : Expression) : option Value * IRBuilder :=
  match callee with
  | MemberExpr receiver _ _ =>
      let a0 := List.nth_error (args expr) 0 in
      let a1 := List.nth_error (args expr) 1 in
      if not_a_StrExpr a0 then (None, builder)
      else if not_a_StrExpr a1 then (None, builder)
      else
        match read_arg a0 true "utf8" "strict" with
        | None => (None, builder)
        | Some (encoding, errors) =>
            match read_arg a1 false encoding errors with
            | None => (None, builder)
            | Some (encoding, errors) =>
                if negb (errors =? "strict") then (None, builder)
                else
                  let encoding := normalize lower encoding in
                  if str_in encoding utf8_aliases
                  then emit_encode builder str_encode_utf8_strict receiver (line expr)
                  else if str_in encoding ascii_aliases
                  then emit_encode builder str_encode_ascii_strict receiver (line expr)
                  else if str_in encoding latin1_aliases
                  then emit_encode builder str_encode_latin1_strict receiver (line expr)
                  else (None, builder)
            end
        end
  | _ => (None, builder)
  end.
End StrEncode.

(** What a call of [str.encode(encoding="utf-8", errors="strict")]
    passes for [encoding] and for [errors], by the rules of calls:
    positional arguments bind in order, named ones by name.  Calls that
    bind neither way (too many arguments, starred ones, other names, a
    parameter bound twice) have no binding. *)
Definition bind_encode_args (expr : CallExpr)
    : option (option Expression * option Expression) :=
  match args expr with
  | [] => Some (None, None)
  | [mkCallArg e0 k0 n0] =>
      match k0, n0 with
      | ARG_POS, _ => Some (Some e0, None)
      | ARG_NAMED, Some nm =>
          if nm =? "encoding" then Some (Some e0, None)
          else if nm =? "errors" then Some (None, Some e0)
          else None
      | _, _ => None
      end
  | [mkCallArg e0 k0 n0; mkCallArg e1 k1 n1] =>
      match k0, k1, n0, n1 with
      | ARG_POS, ARG_POS, _, _ => Some (Some e0, Some e1)
      | ARG_POS, ARG_NAMED, _, Some nm =>
          if nm =? "errors" then Some (Some e0, Some e1) else None
      | ARG_NAMED, ARG_NAMED, Some nm0, Some nm1 =>
          if (nm0 =? "encoding") && (nm1 =? "errors") then Some (Some e0, Some e1)
          else if (nm0 =? "errors") && (nm1 =? "encoding") then Some (Some e1, Some e0)
          else None
      | _, _, _, _ => None
      end
  | _ => None
  end.

(** The value of a parameter that must be a string literal: the
    default when the argument is left out, [None] when it is not a
    literal. *)
Definition literal_or (default : string) (a : option Expression) : option string :=
  match a with
  | None => Some default
  | Some (StrExpr v) => Some v
  | Some _ => None
  end.

Definition fast_routine (encoding : string) : option CFunctionDescription :=
  if str_in encoding utf8_aliases then Some str_encode_utf8_strict
  else if str_in encoding ascii_aliases then Some str_encode_ascii_strict
  else if str_in encoding latin1_aliases then Some str_encode_latin1_strict
  else None.

(** What the specification says of the specializer, in terms of what
    the call passes for [encoding] and [errors]: with both literal (or
    left out), [errors] being "strict", the fast routine of the alias set
    the normalized encoding belongs to, if there is one, called on the
    compiled receiver; nothing otherwise, and nothing emitted. *)
Definition str_encode_spec {IRBuilder : Type} (lower : string -> string)
    (accept : IRBuilder -> Expression -> Value * IRBuilder)
    (call_c : IRBuilder -> CFunctionDescription -> list Value -> Z -> Value * IRBuilder)
    (builder : IRBuilder) (receiver : Expression) (line : Z)
    (enc err : option Expression) : option Value * IRBuilder :=
  match literal_or "utf8" enc, literal_or "strict" err with
  | Some e, Some s =>
      if s =? "strict" then
        match fast_routine (normalize lower e) with
        | Some desc =>
            let compiled := accept builder receiver in
            let called := call_c (snd compiled) desc [fst compiled] line in
            (Some (fst called), snd called)
        | None => (None, builder)
        end
      else (None, builder)
  | _, _ => (None, builder)
  end.

End Specialize.

(** ** The boolean-literal check ([mypy/semanal_shared.py]) *)

Module SemanalShared.

Record ErrorCode : Type := mkErrorCode { code : string }.

Definition LITERAL_REQ : ErrorCode := mkErrorCode "literal-required".

(** The part of [SemanticAnalyzerInterface] (and of the plugin
    interface) the check uses: [fail] reports a diagnostic. *)
Class SemanticAnalyzerInterface (Api : Type) : Type := {
  fail : Api -> string -> Expression -> ErrorCode -> Api
}.

Definition parse_bool (expr : Expression) : option bool :=
  match expr with
  | NameExpr _ fullname =>
      if fullname =? "builtins.True" then Some true
      else if fullname =? "builtins.False" then Some false
      else None
  | _ => None
  end.

Definition dquote : string := String (ascii_of_nat 34) EmptyString.

Definition literal_required_msg (name : string) : string :=
  dquote ++ name ++ dquote ++ " argument must be a True or False literal".

Definition require_bool_literal_argument {Api : Type} `{SemanticAnalyzerInterface Api}
    (api : Api) (expression : Expression) (name : string) (default : option bool)
    : option bool * Api :=
  match parse_bool expression with
  | None =>
      (default, fail api (literal_required_msg name) expression LITERAL_REQ)
  | Some value => (Some value, api)
  end.

(** An analyzer that only collects the diagnostics it is given. *)
Record Diagnostic : Type := mkDiagnostic {
  diag_msg : string;
  diag_ctx : Expression;
  diag_code : ErrorCode
}.

#[export] Instance collecting_api : SemanticAnalyzerInterface (list Diagnostic) := {
  fail api msg ctx c := api ++ [mkDiagnostic msg ctx c]
}.

End SemanalShared.
Import (hints) SemanalShared.

(** ** References to native definitions ([mypyc/irbuild/mapper.py]) *)

Module NativeRefs.

(** The kinds of a reference ([LDEF], [GDEF], [MDEF] and
    [UNBOUND_IMPORTED] of [mypy/nodes.py]). *)
Inductive Kind : Type := LDEF | GDEF | MDEF | UNBOUND_IMPORTED.

Definition Kind_eqb (a b : Kind) : bool :=
  match a, b with
  | LDEF, LDEF | GDEF, GDEF | MDEF, MDEF
  | UNBOUND_IMPORTED, UNBOUND_IMPORTED => true
  | _, _ => false
  end.

(** What the mapper reads of a [RefExpr]: the full name of the symbol
    it refers to, if it is bound ([expr.node]), and its kind. *)
Record SymbolNode : Type := mkSymbolNode { fullname : string }.

Record RefExpr : Type := mkRefExpr {
  node : option SymbolNode;
  kind : option Kind
}.

Definition is_dot (c : ascii) : bool := Ascii.eqb c "."%char.

(** ["." in s] *)
Fixpoint contains_dot (s : string) : bool :=
  match s with
  | EmptyString => false
  | String c rest => is_dot c || contains_dot rest
  end.

(** [s.rpartition(".")[0]]: what comes before the last dot of [s], and
    the empty string when [s] has no dot. *)
Fixpoint rpartition_head (s : string) : string :=
  match s with
  | EmptyString => EmptyString
  | String c rest =>
      if contains_dot rest then String c (rpartition_head rest) else EmptyString
  end.

Definition is_native_ref_expr (self : Mapper) (expr : RefExpr) : bool :=
  match node expr with
  | None => false
  | Some n =>
      if contains_dot (fullname n) then
        let name := rpartition_head (fullname n) in
        is_native_module self name || bool_decide (name ∈ symbol_fullnames self)
      else true
  end.

Definition is_native_module_ref_expr (self : Mapper) (expr : RefExpr) : bool :=
  is_native_ref_expr self expr
  && match kind expr with Some k => Kind_eqb k GDEF | None => false end.

End NativeRefs.

(** ** Function contexts, continued ([mypyc/irbuild/context.py]) *)

Module ContextLinks.

(** [FuncInfo.__init__]: the synthesized links start unattached. *)
Definition init (fitem : FuncDef) (name : string) (class_name : option string)
    (namespace : string)
    (is_nested contains_nested is_decorated in_non_ext add_nested_funcs_to_env : bool)
    : Context.FuncInfo :=
  Context.mkFuncInfo fitem name class_name namespace None None None None
    is_nested contains_nested is_decorated in_non_ext add_nested_funcs_to_env.

Definition callable_class (self : Context.FuncInfo) : Result Context.ImplicitClass :=
  match Context._callable_class self with
  | Some c => Ok c
  | None => Raise (AssertionError EmptyString)
  end.

Definition set_callable_class (self : Context.FuncInfo) (c : Context.ImplicitClass)
    : Context.FuncInfo :=
  Context.mkFuncInfo (Context.fitem self) (Context.name self) (Context.class_name self)
    (Context.ns self) (Some c) (Context._env_class self)
    (Context._generator_class self) (Context._curr_env_reg self)
    (Context.is_nested self) (Context.contains_nested self)
    (Context.is_decorated self) (Context.in_non_ext self)
    (Context.add_nested_funcs_to_env self).

(** The three assignments a [FuncInfo] offers, through its property
    setters. *)
Inductive Update : Type :=
| SetCallableClass (cls : Context.ImplicitClass)
| SetEnvClass (ir : ClassIR)
| SetGeneratorClass (cls : Context.ImplicitClass).

Definition apply_update (self : Context.FuncInfo) (u : Update) : Context.FuncInfo :=
  match u with
  | SetCallableClass c => set_callable_class self c
  | SetEnvClass c => Context.set_env_class self c
  | SetGeneratorClass c => Context.set_generator_class self c
  end.

Definition apply_updates (self : Context.FuncInfo) (us : list Update) : Context.FuncInfo :=
  List.fold_left apply_update us self.

End ContextLinks.

(** ** More specializers ([mypyc/irbuild/specialize.py]) *)

Module Conversions.

(** Modelled from the spec: the tests on representations of
    [mypyc/ir/rtypes.py]; a primitive is told by its name. *)
Definition is_prim (n : string) (t : RType) : bool :=
  match t with
  | RPrim p => RTypes.name p =? n
  | _ => false
  end.

Definition is_int64_rprimitive : RType -> bool := is_prim "i64".
Definition is_int32_rprimitive : RType -> bool := is_prim "i32".
Definition is_int16_rprimitive : RType -> bool := is_prim "i16".
Definition is_uint8_rprimitive : RType -> bool := is_prim "u8".
Definition is_int_rprimitive : RType -> bool := is_prim "builtins.int".
Definition is_bool_rprimitive : RType -> bool := is_prim "builtins.bool".
Definition is_float_rprimitive : RType -> bool := is_prim "builtins.float".
Definition is_list_rprimitive : RType -> bool := is_prim "builtins.list".

Definition is_fixed_width_rtype (t : RType) : bool :=
  is_int64_rprimitive t || is_int32_rprimitive t
  || is_int16_rprimitive t || is_uint8_rprimitive t.

Definition short_int_rprimitive : RType := boxed "short_int".

(** The operations the conversions add to the builder. *)
Inductive Op : Type :=
| Extend (src : Value) (typ : RType) (signed : bool) (line : Z)
| Truncate (src : Value) (typ : RType) (line : Z).

Section Builder.
Variable IRBuilder : Type.
(** The services of the builder the specializers use:
    [builder.node_type(expr)], [builder.accept(expr, can_borrow)],
    [builder.add(op)], [builder.coerce(src, typ, line)],
    [builder.builtin_len(obj, line)], [builder.builder.bool_value(src)]
    and [builder.load_globals_dict()]. *)
Variable node_type : IRBuilder -> Expression -> RType.
Variable accept : IRBuilder -> Expression -> bool -> Value * IRBuilder.
Variable add : IRBuilder -> Op -> Value * IRBuilder.
Variable coerce : IRBuilder -> Value -> RType -> Z -> Value * IRBuilder.
Variable builtin_len : IRBuilder -> Value -> Z -> Value * IRBuilder.
Variable bool_value : IRBuilder -> Value -> Value * IRBuilder.
Variable load_globals_dict : IRBuilder -> Value * IRBuilder.

Definition answer (r : Value * IRBuilder) : option Value * IRBuilder :=
  (Some (fst r), snd r).

(** [len(expr.args) != 1 or expr.arg_kinds[0] != ARG_POS] fails: the
    call has one argument, and it is positional. *)
Definition one_positional (expr : CallExpr) : option Expression :=
  match args expr with
  | [a] => if ArgKind_eqb (kind a) ARG_POS then Some (arg a) else None
  | _ => None
  end.

Definition translate_globals (builder : IRBuilder) (expr : CallExpr)
    (callee : Expression) : option Value * IRBuilder :=
  match args expr with
  | [] => answer (load_globals_dict builder)
  | _ => (None, builder)
  end.

Definition translate_len (builder : IRBuilder) (expr : CallExpr)
    (callee : Expression) : option Value * IRBuilder :=
  match one_positional expr with
  | Some arg =>
      match node_type builder arg with
      | RTuple types =>
          let '(_, builder) := accept builder arg false in
          (Some (Integer (Z.of_nat (length types)) short_int_rprimitive), builder)
      | _ =>
          let borrow := is_list_rprimitive (node_type builder arg) in
          let '(obj, builder) := accept builder arg borrow in
          answer (builtin_len builder obj (line expr))
      end
  | None => (None, builder)
  end.

(** [val = builder.accept(arg); return builder.add(op(val))] *)
Definition accept_and_add (builder : IRBuilder) (arg : Expression) (op : Value -> Op)
    : option Value * IRBuilder :=
  let '(val, builder) := accept builder arg false in
  answer (add builder (op val)).

Definition translate_i64 (builder : IRBuilder) (expr : CallExpr)
    (callee : Expression) : option Value * IRBuilder :=
  match one_positional expr with
  | None => (None, builder)
  | Some arg =>
      let arg_type := node_type builder arg in
      if is_int64_rprimitive arg_type then answer (accept builder arg false)
      else if is_int32_rprimitive arg_type || is_int16_rprimitive arg_type then
        accept_and_add builder arg
          (fun val => Extend val int64_rprimitive true (line expr))
      else if is_uint8_rprimitive arg_type then
        accept_and_add builder arg
          (fun val => Extend val int64_rprimitive false (line expr))
      else if is_int_rprimitive arg_type || is_bool_rprimitive arg_type then
        let '(val, builder) := accept builder arg false in
        answer (coerce builder val int64_rprimitive (line expr))
      else (None, builder)
  end.

Definition translate_i32 (builder : IRBuilder) (expr : CallExpr)
    (callee : Expression) : option Value * IRBuilder :=
  match one_positional expr with
  | None => (None, builder)
  | Some arg =>
      let arg_type := node_type builder arg in
      if is_int32_rprimitive arg_type then answer (accept builder arg false)
      else if is_int64_rprimitive arg_type then
        accept_and_add builder arg
          (fun val => Truncate val int32_rprimitive (line expr))
      else if is_int16_rprimitive arg_type then
        accept_and_add builder arg
          (fun val => Extend val int32_rprimitive true (line expr))
      else if is_uint8_rprimitive arg_type then
        accept_and_add builder arg
          (fun val => Extend val int32_rprimitive false (line expr))
      else if is_int_rprimitive arg_type || is_bool_rprimitive arg_type then
        let '(val, builder) := accept builder arg false in
        let val := Specialize.truncate_literal val int32_prim in
        answer (coerce builder val int32_rprimitive (line expr))
      else (None, builder)
  end.

Definition translate_i16 (builder : IRBuilder) (expr : CallExpr)
    (callee : Expression) : option Value * IRBuilder :=
  match one_positional expr with
  | None => (None, builder)
  | Some arg =>
      let arg_type := node_type builder arg in
      if is_int16_rprimitive arg_type then answer (accept builder arg false)
      else if is_int32_rprimitive arg_type || is_int64_rprimitive arg_type then
        accept_and_add builder arg
          (fun val => Truncate val int16_rprimitive (line expr))
      else if is_uint8_rprimitive arg_type then
        accept_and_add builder arg
          (fun val => Extend val int16_rprimitive false (line expr))
      else if is_int_rprimitive arg_type || is_bool_rprimitive arg_type then
        let '(val, builder) := accept builder arg false in
        let val := Specialize.truncate_literal val int16_prim in
        answer (coerce builder val int16_rprimitive (line expr))
      else (None, builder)
  end.

Definition translate_u8 (builder : IRBuilder) (expr : CallExpr)
    (callee : Expression) : option Value * IRBuilder :=
  match one_positional expr with
  | None => (None, builder)
  | Some arg =>
      let arg_type := node_type builder arg in
      if is_uint8_rprimitive arg_type then answer (accept builder arg false)
      else if is_int16_rprimitive arg_type || is_int32_rprimitive arg_type
              || is_int64_rprimitive arg_type then
        accept_and_add builder arg
          (fun val => Truncate val uint8_rprimitive (line expr))
      else if is_int_rprimitive arg_type || is_bool_rprimitive arg_type then
        let '(val, builder) := accept builder arg false in
        let val := Specialize.truncate_literal val uint8_prim in
        answer (coerce builder val uint8_rprimitive (line expr))
      else (None, builder)
  end.

Definition translate_int (builder : IRBuilder) (expr : CallExpr)
    (callee : Expression) : option Value * IRBuilder :=
  match one_positional expr with
  | None => (None, builder)
  | Some arg =>
      let arg_type := node_type builder arg in
      if is_bool_rprimitive arg_type || is_int_rprimitive arg_type
         || is_fixed_width_rtype arg_type then
        let '(src, builder) := accept builder arg false in
        answer (coerce builder src int_rprimitive (line expr))
      else (None, builder)
  end.

Definition translate_bool (builder : IRBuilder) (expr : CallExpr)
    (callee : Expression) : option Value * IRBuilder :=
  match one_positional expr with
  | None => (None, builder)
  | Some arg =>
      let '(src, builder) := accept builder arg false in
      answer (bool_value builder src)
  end.

Definition translate_float (builder : IRBuilder) (expr : CallExpr)
    (callee : Expression) : option Value * IRBuilder :=
  match one_positional expr with
  | None => (None, builder)
  | Some arg =>
      if is_float_rprimitive (node_type builder arg)
      then answer (accept builder arg false)
      else (None, builder)
  end.

(** The specializer registered for a native integer type. *)
Definition translate_to (target : RPrimitive)
    : IRBuilder -> CallExpr -> Expression -> option Value * IRBuilder :=
  if RTypes.name target =? "i64" then translate_i64
  else if RTypes.name target =? "i32" then translate_i32
  else if RTypes.name target =? "i16" then translate_i16
  else translate_u8.

End Builder.

Definition native_ints : list RPrimitive :=
  [int64_prim; int32_prim; int16_prim; uint8_prim].

End Conversions.

(** ** Dataclass transforms ([mypy/semanal_shared.py]) *)

Module DataclassTransform.

Record DataclassTransformSpec : Type := mkSpec {
  eq_default : bool;
  order_default : bool;
  kw_only_default : bool;
  frozen_default : bool;
  field_specifiers : list string
}.

(** What [find_dataclass_transform_spec] reads of a class: its own
    spec.  The [mro] of a [TypeInfo] begins with the class itself. *)
Record ClassEntry : Type := mkClassEntry {
  class_fullname : string;
  dataclass_transform_spec : option DataclassTransformSpec
}.

Record TypeInfo : Type := mkTypeInfo {
  mro : list ClassEntry;
  metaclass_type : option ClassEntry
}.

(** The nodes the function tells apart; [RefExpr.node] and
    [OverloadedFuncDef.impl] may be [None]. *)
Inductive Node : Type :=
| CallExpr (callee : Node)
| RefExpr (node : option Node)
| Decorator (func : Node)
| OverloadedFuncDef (items : list Node) (impl : option Node)
| FuncDef (spec : option DataclassTransformSpec)
| ClassDef (info : TypeInfo)
| TypeInfoNode (info : TypeInfo)
| OtherNode.

(** The first spec among the classes of [bases], in order. *)
Fixpoint first_spec (bases : list ClassEntry) : option DataclassTransformSpec :=
  match bases with
  | [] => None
  | base :: rest =>
      match dataclass_transform_spec base with
      | Some s => Some s
      | None => first_spec rest
      end
  end.

(** The [isinstance(node, TypeInfo)] part: the parent classes
    ([node.mro[1:]]), then the metaclass. *)
Definition spec_of_info (info : TypeInfo) : option DataclassTransformSpec :=
  match first_spec (List.tl (mro info)) with
  | Some s => Some s
  | None =>
      match metaclass_type info with
      | Some metaclass => dataclass_transform_spec metaclass
      | None => None
      end
  end.

(** [find_dataclass_transform_spec] on a node that is not [None].  The
    tests of the function are made one after the other, each on what the
    one before left in [node]. *)
Fixpoint find_dataclass_transform_spec (node : Node) {struct node}
    : option DataclassTransformSpec :=
  let resolved (node : Node) : option DataclassTransformSpec :=
    match node with
    | OverloadedFuncDef items impl =>
        (fix search (candidates : list Node) : option DataclassTransformSpec :=
           match candidates with
           | [] =>
               match impl with
               | Some i => find_dataclass_transform_spec i
               | None => None
               end
           | candidate :: rest =>
               match find_dataclass_transform_spec candidate with
               | Some s => Some s
               | None => search rest
               end
           end) items
    | FuncDef spec => spec
    | ClassDef info => spec_of_info info
    | TypeInfoNode info => spec_of_info info
    | _ => None
    end in
  let undecorated (node : Node) : option DataclassTransformSpec :=
    match node with
    | Decorator func => resolved func
    | _ => resolved node
    end in
  let dereferenced (node : Node) : option DataclassTransformSpec :=
    match node with
    | RefExpr (Some n) => undecorated n
    | RefExpr None => None
    | _ => undecorated node
    end in
  match node with
  | CallExpr callee => dereferenced callee
  | _ => dereferenced node
  end.

(** The function with its full domain, [Node | None]. *)
Definition find_dataclass_transform_spec_opt (node : option Node)
    : option DataclassTransformSpec :=
  match node with
  | Some n => find_dataclass_transform_spec n
  | None => None
  end.

End DataclassTransform.

(** ** Induction on static types *)

Section TypeInduction.
Variable P : Type_ -> Prop.
Hypothesis HInstance : forall inst, P (TInstance inst).
Hypothesis HTuple : forall items fb, Forall P items -> P (TupleType items fb).
Hypothesis HCallable : forall ats aks ans rt,
  Forall P ats -> P rt -> P (CallableType ats aks ans rt).
Hypothesis HNone : P NoneTyp.
Hypothesis HUnion : forall items, Forall P items -> P (UnionType items).
Hypothesis HAny : forall k, P (AnyType k).
Hypothesis HTypeType : forall item, P item -> P (TypeType item).
Hypothesis HTypeVar : forall ub, P ub -> P (TypeVarLikeType ub).
Hypothesis HPartialSome : forall t, P t -> P (PartialType (Some t)).
Hypothesis HPartialNone : P (PartialType None).
Hypothesis HOverloaded : forall items, Forall P items -> P (Overloaded items).
Hypothesis HTypedDict : forall fb, P (TypedDictType fb).
Hypothesis HLiteral : forall fb, P (LiteralType fb).
Hypothesis HUninhabited : P UninhabitedType.
Hypothesis HUnbound : forall n, P (UnboundType n).
Hypothesis HUnpack : forall t, P t -> P (UnpackType t).
Hypothesis HPlaceholder : forall fn, P (PlaceholderType fn).
Hypothesis HAlias : forall target, P target -> P (TypeAliasType target).

(** Induction on static types, with the induction hypothesis on every
    type that occurs in a list or under an option. *)
Fixpoint Type_nested_ind (t : Type_) : P t :=
  let fix all (l : list Type_) : Forall P l :=
    match l with
    | [] => List.Forall_nil P
    | x :: rest => @List.Forall_cons _ P x rest (Type_nested_ind x) (all rest)
    end in
  match t with
  | TInstance inst => HInstance inst
  | TupleType items fb => HTuple items fb (all items)
  | CallableType ats aks ans rt =>
      HCallable ats aks ans rt (all ats) (Type_nested_ind rt)
  | NoneTyp => HNone
  | UnionType items => HUnion items (all items)
  | AnyType k => HAny k
  | TypeType item => HTypeType item (Type_nested_ind item)
  | TypeVarLikeType ub => HTypeVar ub (Type_nested_ind ub)
  | PartialType (Some t') => HPartialSome t' (Type_nested_ind t')
  | PartialType None => HPartialNone
  | Overloaded items => HOverloaded items (all items)
  | TypedDictType fb => HTypedDict fb
  | LiteralType fb => HLiteral fb
  | UninhabitedType => HUninhabited
  | UnboundType n => HUnbound n
  | UnpackType t' => HUnpack t' (Type_nested_ind t')
  | PlaceholderType fn => HPlaceholder fn
  | TypeAliasType target => HAlias target (Type_nested_ind target)
  end.
End TypeInduction.

(** ** Notions used to state properties of the mapper *)

Module MapperNotions.

(** The types on which [type_to_rtype] does not raise: those that have,
    where the function looks, no type it does not handle, no partial
    type without the type of its variable, and no union without items. *)
Fixpoint lowerable (typ : Type_) : bool :=
  match typ with
  | TypeAliasType target => lowerable target
  | TupleType items partial_fallback =>
      if (fullname (type partial_fallback) =? "builtins.tuple")
         && negb (is_Some_b (find_unpack_in_list items))
      then List.forallb lowerable items
      else true
  | UnionType items =>
      match items with
      | [] => false
      | _ => List.forallb lowerable items
      end
  | TypeVarLikeType upper_bound => lowerable upper_bound
  | PartialType (Some t) => lowerable t
  | PartialType None => false
  | UnpackType _ => false
  | PlaceholderType _ => false
  | _ => true
  end.

(** No instance type that occurs in [typ] is of the class [u]. *)
Fixpoint avoids (u : positive) (typ : Type_) : bool :=
  let other (inst : Instance) := negb (Pos.eqb (uid (type inst)) u) in
  match typ with
  | TInstance inst => other inst
  | TupleType items fb => List.forallb (avoids u) items && other fb
  | CallableType ats _ _ rt => List.forallb (avoids u) ats && avoids u rt
  | UnionType items => List.forallb (avoids u) items
  | TypeType item => avoids u item
  | TypeVarLikeType ub => avoids u ub
  | PartialType (Some t) => avoids u t
  | Overloaded items => List.forallb (avoids u) items
  | TypedDictType fb => other fb
  | LiteralType fb => other fb
  | UnpackType t => avoids u t
  | TypeAliasType target => avoids u target
  | _ => true
  end.

(** [self.type_to_ir[info] = ir], for the class of identity [u]. *)
Definition register_class (self : Mapper) (u : positive) (ir : ClassIR) : Mapper :=
  mkMapper (group_map self) (<[u := ir]> (type_to_ir self))
           (symbol_fullnames self) (fdef_to_generator self).

Definition builtin_names : list string :=
  ["builtins.int"; "builtins.float"; "builtins.bool"; "builtins.str";
   "builtins.bytes"; "builtins.list"; "builtins.set"; "builtins.frozenset";
   "builtins.tuple"; "builtins.range"].

Definition native_int_of (fn : string) : RType :=
  if fn =? "mypy_extensions.i64" then int64_rprimitive
  else if fn =? "mypy_extensions.i32" then int32_rprimitive
  else if fn =? "mypy_extensions.i16" then int16_rprimitive
  else if fn =? "mypy_extensions.u8" then uint8_rprimitive
  else object_rprimitive.

Definition is_callable_type (t : option Type_) : bool :=
  match t with
  | Some (CallableType _ _ _ _) => true
  | _ => false
  end.

Definition with_ret_type (sig : FuncSignature) (ret : RType) : FuncSignature :=
  mkFuncSignature (sig_args sig) ret.

End MapperNotions.

(** ** Dispatch to the specializers ([mypyc/irbuild/specialize.py]) *)

Module Dispatch.
Section Dispatch.
Variable IRBuilder : Type.

(** [apply_function_specialization]: the key is the full name of the
    callee, without a receiver type.  A callee that is no reference has
    no [fullname]. *)
Definition apply_function_specialization
    (specializers : Specialize.Specializers IRBuilder)
    (builder : IRBuilder) (expr : CallExpr) (callee : Expression)
    : Result (option Value * IRBuilder * list Specialize.Attempt) :=
  match callee with
  | NameExpr _ fullname | MemberExpr _ _ fullname =>
      Ok (Specialize._apply_specialization IRBuilder specializers builder expr callee
            (Some fullname) None)
  | _ => Raise AttributeError
  end.

(** [apply_method_specialization]: with a receiver type the key is the
    short name of the method and the type, without one it is the full
    name. *)
Definition apply_method_specialization
    (specializers : Specialize.Specializers IRBuilder)
    (builder : IRBuilder) (expr : CallExpr) (callee : Expression)
    (typ : option RType)
    : Result (option Value * IRBuilder * list Specialize.Attempt) :=
  match callee with
  | NameExpr name fullname | MemberExpr _ name fullname =>
      let name := match typ with None => fullname | Some _ => name end in
      Ok (Specialize._apply_specialization IRBuilder specializers builder expr callee
            (Some name) typ)
  | _ => Raise AttributeError
  end.

End Dispatch.
End Dispatch.

(** ** The specializers embedded here, as a list *)

Module Embedded.
Section Embedded.
Variable IRBuilder : Type.
Variable node_type : IRBuilder -> Expression -> RType.
Variable accept : IRBuilder -> Expression -> bool -> Value * IRBuilder.
Variable add : IRBuilder -> Conversions.Op -> Value * IRBuilder.
Variable coerce : IRBuilder -> Value -> RType -> Z -> Value * IRBuilder.
Variable builtin_len : IRBuilder -> Value -> Z -> Value * IRBuilder.
Variable bool_value : IRBuilder -> Value -> Value * IRBuilder.
Variable load_globals_dict : IRBuilder -> Value * IRBuilder.
Variable call_c :
  IRBuilder -> Specialize.CFunctionDescription -> list Value -> Z -> Value * IRBuilder.
Variable lower : string -> string.

(** The specializers that take one positional argument. *)
Definition one_argument_specializers : list (Specialize.Specializer IRBuilder) :=
  [Conversions.translate_len IRBuilder node_type accept builtin_len;
   Conversions.translate_i64 IRBuilder node_type accept add coerce;
   Conversions.translate_i32 IRBuilder node_type accept add coerce;
   Conversions.translate_i16 IRBuilder node_type accept add coerce;
   Conversions.translate_u8 IRBuilder node_type accept add coerce;
   Conversions.translate_int IRBuilder node_type accept coerce;
   Conversions.translate_bool IRBuilder accept bool_value;
   Conversions.translate_float IRBuilder node_type accept].

Definition specializers : list (Specialize.Specializer IRBuilder) :=
  Conversions.translate_globals IRBuilder load_globals_dict
  :: Specialize.str_encode_fast_path IRBuilder lower (fun b e => accept b e false) call_c
  :: one_argument_specializers.

End Embedded.
End Embedded.

(** ** Notions used to state properties of function contexts *)

Module ContextNotions.

(** The class last assigned by the updates [us], if any of them
    assigns one. *)
Definition attached_callable (us : list ContextLinks.Update)
    : option Context.ImplicitClass :=
  List.fold_left
    (fun acc u => match u with ContextLinks.SetCallableClass c => Some c | _ => acc end)
    us None.

Definition attached_env (us : list ContextLinks.Update) : option ClassIR :=
  List.fold_left
    (fun acc u => match u with ContextLinks.SetEnvClass c => Some c | _ => acc end)
    us None.

Definition attached_generator (us : list ContextLinks.Update)
    : option Context.ImplicitClass :=
  List.fold_left
    (fun acc u => match u with ContextLinks.SetGeneratorClass c => Some c | _ => acc end)
    us None.

Definition link {A : Type} (o : option A) : Result A :=
  match o with
  | Some a => Ok a
  | None => Raise (AssertionError EmptyString)
  end.

End ContextNotions.

(** ** Sample inputs *)

Module Samples.

Definition no_classes : Mapper := mkMapper ∅ ∅ ∅ ∅.

Definition builtins_tuple : Instance :=
  mkInstance (mkTypeInfo 1 "builtins.tuple" ["builtins.tuple"; "builtins.object"] false).
Definition builtins_int : Instance :=
  mkInstance (mkTypeInfo 2 "builtins.int" ["builtins.int"; "builtins.object"] false).
Definition builtins_str : Instance :=
  mkInstance (mkTypeInfo 3 "builtins.str" ["builtins.str"; "builtins.object"] false).

(** [class Config(dict): ...], a compiled class. *)
Definition Config_info : TypeInfo :=
  mkTypeInfo 10 "app.Config" ["app.Config"; "builtins.dict"; "builtins.object"] false.
Definition Config_ir : ClassIR := mkClassIR "Config" "app".
Definition app_mapper : Mapper := mkMapper ∅ {[ 10%positive := Config_ir ]} ∅ ∅.

(** [class Point(NamedTuple): x: int; y: int] *)
Definition Point_fallback : Instance :=
  mkInstance (mkTypeInfo 11 "app.Point"
                ["app.Point"; "builtins.tuple"; "builtins.object"] false).

(** [def f(x: int, *args: int, **kw: str) -> int: ...] *)
Definition variadic_fdef : FuncDef :=
  mkFuncDef 20 "f"
    (Some (CallableType
             [TInstance builtins_int; TInstance builtins_int; TInstance builtins_str]
             [ARG_POS; ARG_STAR; ARG_STAR2]
             [Some "x"; Some "args"; Some "kw"]
             (TInstance builtins_int)))
    false false false
    (Some [mkArgument "x" false; mkArgument "args" false; mkArgument "kw" false])
    [Some "x"; Some "args"; Some "kw"]
    [ARG_POS; ARG_STAR; ARG_STAR2]
    false.

(** [len(xs)] and three specializers for it: one that declines, one that
    emits an operation and answers, and one more that would answer too.
    The builder is the number of operations emitted so far. *)
Definition len_call : CallExpr :=
  mkCallExpr (NameExpr "len" "builtins.len")
             [mkCallArg (NameExpr "xs" "xs") ARG_POS None] 7.

Definition declining : Specialize.Specializer nat :=
  fun builder _ _ => (None, builder).
Definition answering (n : Z) : Specialize.Specializer nat :=
  fun builder _ _ => (Some (Integer n int_rprimitive), S builder).

Definition len_registrations : list (Specialize.Registration nat) :=
  [Specialize.mkRegistration nat "builtins.len" None declining;
   Specialize.mkRegistration nat "builtins.abs" None (answering 0);
   Specialize.mkRegistration nat "builtins.len" None (answering 1);
   Specialize.mkRegistration nat "builtins.len" None (answering 2)].

Definition len_table : Specialize.Specializers nat :=
  Specialize.register_all nat len_registrations [].

(** A builder that counts the operations emitted, for [str.encode]. *)
Definition counting_accept (builder : nat) (e : Expression) : Value * nat :=
  (Register str_rprimitive "r0", S builder).
Definition counting_call_c (builder : nat) (desc : Specialize.CFunctionDescription)
    (args : list Value) (line : Z) : Value * nat :=
  (OpResult builder bytes_rprimitive, S builder).

(** A builder that records the routines called, with their arguments
    and lines. *)
Definition recording_accept
    (builder : list (Specialize.CFunctionDescription * list Value * Z))
    (e : Expression)
    : Value * list (Specialize.CFunctionDescription * list Value * Z) :=
  (Register str_rprimitive "text", builder).
Definition recording_call_c
    (builder : list (Specialize.CFunctionDescription * list Value * Z))
    (desc : Specialize.CFunctionDescription) (args : list Value) (line : Z)
    : Value * list (Specialize.CFunctionDescription * list Value * Z) :=
  (OpResult (length builder) bytes_rprimitive, builder ++ [(desc, args, line)]).

(** [text.encode("UTF-8")] *)
Definition encode_utf8_call : CallExpr :=
  mkCallExpr (MemberExpr (NameExpr "text" "text") "encode" "builtins.str.encode")
             [mkCallArg (StrExpr "UTF-8") ARG_POS None] 3.

End Samples.

(** ** Notions used to state properties of dataclass transforms *)

Module DataclassNotions.

Definition is_call (n : DataclassTransform.Node) : bool :=
  match n with DataclassTransform.CallExpr _ => true | _ => false end.

Definition is_ref (n : DataclassTransform.Node) : bool :=
  match n with DataclassTransform.RefExpr _ => true | _ => false end.

Definition is_decorator (n : DataclassTransform.Node) : bool :=
  match n with DataclassTransform.Decorator _ => true | _ => false end.

Definition no_spec (c : DataclassTransform.ClassEntry) : Prop :=
  DataclassTransform.dataclass_transform_spec c = None.

End DataclassNotions.

(** ** More sample inputs *)

Module MoreSamples.

(** A builder that counts what it emits.  [small] is a [u8], [count] an
    [int]; an integer literal is compiled to an [Integer]. *)
Definition sample_node_type (builder : nat) (e : Expression) : RType :=
  match e with
  | NameExpr n _ =>
      if n =? "small" then uint8_rprimitive
      else if n =? "count" then int_rprimitive
      else object_rprimitive
  | IntExpr _ => int_rprimitive
  | _ => object_rprimitive
  end.

Definition sample_accept (builder : nat) (e : Expression) (can_borrow : bool)
    : Value * nat :=
  match e with
  | IntExpr v => (Integer v int_rprimitive, builder)
  | _ => (Register (sample_node_type builder e) "r", S builder)
  end.

Definition sample_add (builder : nat) (op : Conversions.Op) : Value * nat :=
  match op with
  | Conversions.Extend _ t _ _ | Conversions.Truncate _ t _ =>
      (OpResult builder t, S builder)
  end.

Definition sample_coerce (builder : nat) (v : Value) (t : RType) (line : Z)
    : Value * nat :=
  (OpResult builder t, S builder).

Definition call_of (f : string) (arg : Expression) : CallExpr :=
  mkCallExpr (NameExpr f ("mypy_extensions." ++ f)) [mkCallArg arg ARG_POS None] 5.

(** [@dataclass_transform()] put on the second of two overloads, and a
    class below a base that carries a spec. *)
Definition frozen_spec : DataclassTransform.DataclassTransformSpec :=
  DataclassTransform.mkSpec true false false true [].
Definition plain_spec : DataclassTransform.DataclassTransformSpec :=
  DataclassTransform.mkSpec true false false false [].

Definition overloaded_decorator : DataclassTransform.Node :=
  DataclassTransform.OverloadedFuncDef
    [DataclassTransform.Decorator (DataclassTransform.FuncDef None);
     DataclassTransform.Decorator (DataclassTransform.FuncDef (Some frozen_spec));
     DataclassTransform.Decorator (DataclassTransform.FuncDef (Some plain_spec))]
    (Some (DataclassTransform.FuncDef (Some plain_spec))).

Definition model_class : DataclassTransform.TypeInfo :=
  DataclassTransform.mkTypeInfo
    [DataclassTransform.mkClassEntry "app.Model" (Some plain_spec);
     DataclassTransform.mkClassEntry "app.Base" None;
     DataclassTransform.mkClassEntry "orm.Record" (Some frozen_spec);
     DataclassTransform.mkClassEntry "builtins.object" None]
    (Some (DataclassTransform.mkClassEntry "orm.Meta" (Some plain_spec))).

End MoreSamples.

(** * Properties *)

(** ** The mapper *)

Section MapperFacts.
Variable self : Mapper.

Lemma type_to_rtype_proper (typ : Type_) :
  type_to_rtype self (get_proper_type typ) = type_to_rtype self typ.
Proof.
  induction typ using Type__ind; simpl; auto.
Qed.

Lemma mapM_Forall2 (items : list Type_) (ts : list RType) :
  mapM (type_to_rtype self) items = Ok ts <->
  Forall2 (fun t r => type_to_rtype self t = Ok r) items ts.
Proof.
  revert ts. induction items as [|t items IH]; intros ts; simpl.
  - split.
    + intros E. injection E as <-. constructor.
    + intros F. inversion F. reflexivity.
  - split.
    + destruct (type_to_rtype self t) as [r|e] eqn:Et; simpl; [|discriminate].
      destruct (mapM (type_to_rtype self) items) as [rs|e] eqn:Em; simpl; [|discriminate].
      intros E. injection E as <-. constructor; [assumption|].
      apply IH. reflexivity.
    + intros F. inversion F as [|t' r items' rs Hr Hrs]; subst.
      rewrite Hr. simpl. apply IH in Hrs. rewrite Hrs. reflexivity.
Qed.

Lemma find_unpack_none (items : list Type_) :
  find_unpack_in_list items = None <->
  (forall t, In t items -> is_UnpackType t = false).
Proof.
  induction items as [|t items IH]; simpl.
  - split; [intros _ t []|reflexivity].
  - destruct (is_UnpackType t) eqn:Eu.
    + split; [discriminate|].
      intros H. rewrite (H t) in Eu by (left; reflexivity). discriminate.
    + destruct (find_unpack_in_list items) as [i|]; simpl.
      * split; [discriminate|].
        intros H. destruct IH as [_ IH]. discriminate IH.
        intros u Hu. apply H. right. exact Hu.
      * split; [|reflexivity].
        intros _ u [<-|Hu]; [exact Eu|]. apply IH; [reflexivity|exact Hu].
Qed.
End MapperFacts.

(** C1, in the form that holds.  A missing type, an [AnyType] of
    whatever kind (the one that stands for an error included), an
    [UnboundType] and an [UninhabitedType] all lower to
    [object_rprimitive], with any mapper; a [PlaceholderType] is accepted
    by no branch of [type_to_rtype] and fails its final assertion. *)
Theorem C1_unresolved_types_lower_to_object :
  forall (self : Mapper) (kind : TypeOfAny) (n : string) (fn : option string),
    type_to_rtype_opt self None = Ok object_rprimitive
    /\ type_to_rtype_opt self (Some (AnyType kind)) = Ok object_rprimitive
    /\ type_to_rtype_opt self (Some (UnboundType n)) = Ok object_rprimitive
    /\ type_to_rtype_opt self (Some UninhabitedType) = Ok object_rprimitive
    /\ type_to_rtype_opt self (Some (PlaceholderType fn))
       = Raise (unexpected_type "PlaceholderType").
Proof.
  intros. repeat split.
Qed.

(** Against C1 as the specification words it: lowering a placeholder
    type does not return the boxed object representation, it raises. *)
Lemma C1_placeholder_raises :
  type_to_rtype_opt Samples.no_classes (Some (PlaceholderType (Some "app.Later")))
  = Raise (AssertionError "unexpected type <class 'mypy.types.PlaceholderType'>")
  /\ type_to_rtype_opt Samples.no_classes (Some (PlaceholderType (Some "app.Later")))
     <> Ok object_rprimitive.
Proof.
  split; [reflexivity|discriminate].
Qed.

(** C3.  An instance of a class that has [builtins.dict] in its method
    resolution order, and that is none of [int], [float], [bool], [str],
    [bytes], [list], lowers to [dict_rprimitive]; whatever the mapper has
    registered, so also for a compiled subclass of [dict]. *)
Theorem C3_dict_subclass_is_dict :
  forall (self : Mapper) (inst : Instance),
    ~ In (fullname (type inst))
         ["builtins.int"; "builtins.float"; "builtins.bool";
          "builtins.str"; "builtins.bytes"; "builtins.list"] ->
    In "builtins.dict" (mro (type inst)) ->
    type_to_rtype self (TInstance inst) = Ok dict_rprimitive.
Proof.
  intros self inst Hprim Hmro. simpl. unfold instance_to_rtype.
  repeat match goal with
  | |- context [String.eqb (fullname (type inst)) ?s] =>
      destruct (String.eqb_spec (fullname (type inst)) s) as [E|_];
      [exfalso; apply Hprim; rewrite E; simpl; tauto|]
  end.
  assert (List.existsb (fun cls => cls =? "builtins.dict") (mro (type inst)) = true) as ->.
  { apply existsb_exists. exists "builtins.dict". split; [exact Hmro|reflexivity]. }
  reflexivity.
Qed.

(** A compiled subclass of [dict], registered in [type_to_ir]. *)
Lemma C3_compiled_dict_subclass :
  type_to_ir Samples.app_mapper !! uid Samples.Config_info = Some Samples.Config_ir
  /\ type_to_rtype Samples.app_mapper (TInstance (mkInstance Samples.Config_info))
     = Ok dict_rprimitive.
Proof.
  split; [reflexivity|].
  apply (C3_dict_subclass_is_dict Samples.app_mapper (mkInstance Samples.Config_info)).
  - simpl. intros H. repeat destruct H as [H|H]; try discriminate H. exact H.
  - simpl. tauto.
Defined.

(** The list comprehension over the items fails at the first item whose
    lowering fails, with the exception of that item. *)
Lemma mapM_first_failure (self : Mapper) (pre : list Type_) (t : Type_) (post : list Type_)
    (ts : list RType) (e : Exc) :
  Forall2 (fun t r => type_to_rtype self t = Ok r) pre ts ->
  type_to_rtype self t = Raise e ->
  mapM (type_to_rtype self) (pre ++ t :: post) = Raise e.
Proof.
  intros F Ht. induction F as [|x r pre ts Hx F IH]; simpl.
  - rewrite Ht. reflexivity.
  - rewrite Hx. simpl. rewrite IH. reflexivity.
Qed.

(** C4.  For a [TupleType] whose fallback is plain [builtins.tuple] and
    none of whose items is an unpacked one: when every item lowers, the
    result is the unboxed [RTuple] of the lowerings of the items, in
    order; when an item does not lower, the call raises the exception of
    the first such item and returns nothing.  In every other case
    (another fallback, as for a named tuple, or an unpacked item) the
    items are not lowered and the result is the boxed
    [tuple_rprimitive].  An [RTuple] comes out in the first case only. *)
Theorem C4_tuple_lowering :
  forall (self : Mapper) (items : list Type_) (fb : Instance),
    (fullname (type fb) = "builtins.tuple" ->
     (forall t, In t items -> is_UnpackType t = false) ->
     (forall ts, Forall2 (fun t r => type_to_rtype self t = Ok r) items ts ->
        type_to_rtype self (TupleType items fb) = Ok (RTuple ts))
     /\ (forall pre t post ts e,
           items = pre ++ t :: post ->
           Forall2 (fun t r => type_to_rtype self t = Ok r) pre ts ->
           type_to_rtype self t = Raise e ->
           type_to_rtype self (TupleType items fb) = Raise e))
    /\ (fullname (type fb) <> "builtins.tuple"
        \/ (exists t, In t items /\ is_UnpackType t = true) ->
        type_to_rtype self (TupleType items fb) = Ok tuple_rprimitive)
    /\ (forall ts, type_to_rtype self (TupleType items fb) = Ok (RTuple ts) ->
        fullname (type fb) = "builtins.tuple"
        /\ (forall t, In t items -> is_UnpackType t = false)
        /\ Forall2 (fun t r => type_to_rtype self t = Ok r) items ts).
Proof.
  intros self items fb. simpl.
  destruct (String.eqb_spec (fullname (type fb)) "builtins.tuple") as [Efb|Nfb]; simpl.
  - destruct (find_unpack_in_list items) as [i|] eqn:Eu; simpl.
    + assert (~ forall t, In t items -> is_UnpackType t = false) as Hnot.
      { intros H. apply find_unpack_none in H. congruence. }
      repeat split; try discriminate.
      * intros ts F. contradiction.
      * intros pre t post ts e _ _ _. contradiction.
    + pose proof (proj1 (find_unpack_none items) Eu) as Hnone.
      split; [|split].
      * intros _ _. split.
        -- intros ts F. apply mapM_Forall2 in F. rewrite F. reflexivity.
        -- intros pre t post ts e -> F Ht.
           rewrite (mapM_first_failure self pre t post ts e F Ht). reflexivity.
      * intros [N|(t & Ht & Ut)]; [contradiction|].
        rewrite (Hnone t Ht) in Ut. discriminate.
      * intros ts E.
        destruct (mapM (type_to_rtype self) items) as [rs|e] eqn:Em; simpl in E;
          [|discriminate].
        injection E as <-. repeat split; try assumption.
        apply mapM_Forall2. exact Em.
  - split; [|split].
    + intros E. contradiction.
    + reflexivity.
    + discriminate.
Qed.

(** A plain pair; a plain pair whose second item is a placeholder; a
    named tuple with the items of the first; a variadic tuple. *)
Lemma C4_plain_and_named_tuples :
  type_to_rtype Samples.no_classes
    (TupleType [TInstance Samples.builtins_int; TInstance Samples.builtins_str]
               Samples.builtins_tuple)
  = Ok (RTuple [int_rprimitive; str_rprimitive])
  /\ type_to_rtype Samples.no_classes
       (TupleType [TInstance Samples.builtins_int; PlaceholderType None]
                  Samples.builtins_tuple)
     = Raise (unexpected_type "PlaceholderType")
  /\ type_to_rtype Samples.no_classes
       (TupleType [TInstance Samples.builtins_int; TInstance Samples.builtins_int]
                  Samples.Point_fallback)
     = Ok tuple_rprimitive
  /\ type_to_rtype Samples.no_classes
       (TupleType [TInstance Samples.builtins_int;
                   UnpackType (TInstance Samples.builtins_tuple)]
                  Samples.builtins_tuple)
     = Ok tuple_rprimitive.
Proof.
  split; [|split; [|split]].
  - apply (C4_tuple_lowering Samples.no_classes
             [TInstance Samples.builtins_int; TInstance Samples.builtins_str]
             Samples.builtins_tuple).
    + reflexivity.
    + simpl. intros t [<-|[<-|[]]]; reflexivity.
    + repeat constructor.
  - assert (forall t, In t [TInstance Samples.builtins_int; PlaceholderType None] ->
                      is_UnpackType t = false) as Hno.
    { simpl. intros t [<-|[<-|[]]]; reflexivity. }
    apply (proj2 (proj1 (C4_tuple_lowering Samples.no_classes
                           [TInstance Samples.builtins_int; PlaceholderType None]
                           Samples.builtins_tuple)
                    eq_refl Hno)
             [TInstance Samples.builtins_int] (PlaceholderType None) []
             [int_rprimitive]).
    + reflexivity.
    + repeat constructor.
    + reflexivity.
  - apply (C4_tuple_lowering Samples.no_classes
             [TInstance Samples.builtins_int; TInstance Samples.builtins_int]
             Samples.Point_fallback).
    left. discriminate.
  - apply (C4_tuple_lowering Samples.no_classes
             [TInstance Samples.builtins_int;
              UnpackType (TInstance Samples.builtins_tuple)]
             Samples.builtins_tuple).
    right. exists (UnpackType (TInstance Samples.builtins_tuple)).
    split; [simpl; tauto|reflexivity].
Defined.

(** Against C4 as the specification words it: a tuple type of plain
    fallback with no unpacked item, one of whose items is a placeholder,
    lowers neither to an [RTuple] nor to the boxed tuple; the call
    raises. *)
Lemma C4_placeholder_item_raises :
  let items := [PlaceholderType None] in
  let T := TupleType items Samples.builtins_tuple in
  fullname (type Samples.builtins_tuple) = "builtins.tuple"
  /\ find_unpack_in_list items = None
  /\ type_to_rtype Samples.no_classes T
     = Raise (AssertionError "unexpected type <class 'mypy.types.PlaceholderType'>")
  /\ (forall ts, type_to_rtype Samples.no_classes T <> Ok (RTuple ts))
  /\ type_to_rtype Samples.no_classes T <> Ok tuple_rprimitive.
Proof.
  repeat split; discriminate.
Qed.

(** ** Calling conventions *)

Section ListFacts.
Context {A B : Type}.

Lemma mapM_nth_error (f : A -> Result B) (l : list A) (rs : list B) :
  mapM f l = Ok rs ->
  forall i r, nth_error rs i = Some r ->
    exists x, nth_error l i = Some x /\ f x = Ok r.
Proof.
  revert rs. induction l as [|x l IH]; intros rs; simpl.
  - intros E. injection E as <-. intros [|i] r; discriminate.
  - destruct (f x) as [y|e] eqn:Ef; simpl; [|discriminate].
    destruct (mapM f l) as [ys|e] eqn:Em; simpl; [|discriminate].
    intros E. injection E as <-. intros [|i] r; simpl.
    + intros E. injection E as <-. exists x. split; [reflexivity|exact Ef].
    + intros E. apply (IH ys eq_refl i r E).
Qed.

Lemma nth_error_combine (la : list A) (lb : list B) i a b :
  nth_error (List.combine la lb) i = Some (a, b) ->
  nth_error la i = Some a /\ nth_error lb i = Some b.
Proof.
  revert lb i. induction la as [|x la IH]; intros [|y lb] [|i]; simpl;
    try discriminate.
  - intros E. injection E as <- <-. split; reflexivity.
  - apply IH.
Qed.
End ListFacts.

Lemma sig_args_nth_error (names : list string) (kinds : list ArgKind)
    (types : list RType) (pos : list bool) i a :
  nth_error (List.map (fun '(n, k, t, p) => mkRuntimeArg n t k p)
                      (zip4 names kinds types pos)) i = Some a ->
  nth_error types i = Some (arg_type a).
Proof.
  rewrite nth_error_map.
  destruct (nth_error (zip4 names kinds types pos) i) as [[[[n k] t] p]|] eqn:E;
    simpl; [|discriminate].
  intros Ea. injection Ea as <-. simpl.
  unfold zip4 in E.
  apply nth_error_combine in E as [E _].
  apply nth_error_combine in E as [_ E]. exact E.
Qed.

(** C10.  [get_arg_rtype] does not look at the declared type of a [*args]
    or [**kwargs] parameter: the first is always [tuple_rprimitive]
    and the second always [dict_rprimitive]; every other kind lowers the
    declared type with [type_to_rtype].  The signature that
    [fdef_to_sig] derives from a declared callable type gives each
    parameter the representation so obtained from the declared type and
    kind at its position. *)
Theorem C10_variadic_parameters :
  forall (self : Mapper),
    (forall typ, get_arg_rtype self typ ARG_STAR = Ok tuple_rprimitive)
    /\ (forall typ, get_arg_rtype self typ ARG_STAR2 = Ok dict_rprimitive)
    /\ (forall typ kind, kind <> ARG_STAR -> kind <> ARG_STAR2 ->
        get_arg_rtype self typ kind = type_to_rtype self typ)
    /\ (forall fdef strict arg_types arg_kinds arg_names ret_type sig,
        fdef_type fdef = Some (CallableType arg_types arg_kinds arg_names ret_type) ->
        fdef_to_sig self fdef strict = Ok sig ->
        forall i a, nth_error (sig_args sig) i = Some a ->
          exists typ kind,
            nth_error arg_types i = Some typ
            /\ nth_error arg_kinds i = Some kind
            /\ match kind with
               | ARG_STAR => arg_type a = tuple_rprimitive
               | ARG_STAR2 => arg_type a = dict_rprimitive
               | _ => type_to_rtype self typ = Ok (arg_type a)
               end).
Proof.
  intros self. split; [reflexivity|]. split; [reflexivity|]. split.
  - intros typ [] H1 H2; try reflexivity; contradiction.
  - intros fdef strict ats aks ans rt sig Ety Esig i a Ha.
    unfold fdef_to_sig in Esig. rewrite Ety in Esig.
    destruct (mapM (fun tk => get_arg_rtype self (fst tk) (snd tk)) (List.combine ats aks))
      as [rts|e] eqn:Em; simpl in Esig; [|discriminate].
    match type of Esig with
    | context [bind (bind ?r _) _] =>
        destruct r as [ret|e]; simpl in Esig; [|discriminate]
    end.
    injection Esig as <-. simpl in Ha.
    apply sig_args_nth_error in Ha.
    destruct (mapM_nth_error _ _ _ Em i _ Ha) as ([typ kind] & Hn & Hg).
    apply nth_error_combine in Hn as [Ht Hk].
    exists typ, kind. repeat split; try assumption.
    simpl in Hg. destruct kind; simpl in Hg; try exact Hg;
      injection Hg as <-; reflexivity.
Qed.

(** [def f(x: int, *args: int, **kw: str) -> int]: the declared [int] of
    [*args] and [str] of [**kw] leave no trace in the signature. *)
Lemma C10_declared_types_of_variadics_ignored :
  exists sig,
    fdef_to_sig Samples.no_classes Samples.variadic_fdef true = Ok sig
    /\ List.map arg_type (sig_args sig)
       = [int_rprimitive; tuple_rprimitive; dict_rprimitive]
    /\ (forall a, nth_error (sig_args sig) 1 = Some a -> arg_type a = tuple_rprimitive).
Proof.
  eexists. split; [reflexivity|]. split; [reflexivity|].
  intros a Ha.
  destruct (proj2 (proj2 (proj2 (C10_variadic_parameters Samples.no_classes)))
              Samples.variadic_fdef true _ _ _ _ _ eq_refl eq_refl 1%nat a Ha)
    as (typ & kind & _ & Hk & H).
  simpl in Hk. injection Hk as <-. exact H.
Defined.

(** ** Function contexts *)

(** C6.  [can_merge_generator_and_env_classes] holds exactly of a
    generator or coroutine that is neither nested nor contains nested
    functions.  So the set-up of such a function creates one class, and
    the environment link and the generator link of the function both
    point to it; the set-up of a generator that is nested or contains
    nested functions creates two classes, the environment class and the
    state-machine class, which are two objects whatever their contents,
    and each link points to its own. *)
Theorem C6_merge_generator_and_env_classes :
  forall (fn : Context.FuncInfo),
    (Context.can_merge_generator_and_env_classes fn = true <->
     (MapperM.is_generator (Context.fitem fn) = true
      \/ MapperM.is_coroutine (Context.fitem fn) = true)
     /\ Context.is_nested fn = false
     /\ Context.contains_nested fn = false)
    /\ (forall (classes : list ClassIR) (g e : ClassIR),
        Context.is_generator fn = true ->
        let s := Context.setup_generator_classes classes fn g e in
        Context.env_class (Context.fn_info s)
        = Ok (if Context.can_merge_generator_and_env_classes fn then g else e)
        /\ Context.generator_class (Context.fn_info s) = Ok (Context.mkImplicitClass g)
        /\ (Context.is_nested fn = false /\ Context.contains_nested fn = false ->
            Context.classes s = classes ++ [g]
            /\ Context.synthesized_classes s = [length classes]
            /\ Context.env_class_at s = Context.generator_class_at s
            /\ Context.classes s !! length classes = Some g)
        /\ (Context.is_nested fn = true \/ Context.contains_nested fn = true ->
            Context.classes s = classes ++ [e; g]
            /\ Context.synthesized_classes s = [length classes; S (length classes)]
            /\ Context.env_class_at s <> Context.generator_class_at s
            /\ Context.classes s !! length classes = Some e
            /\ Context.classes s !! S (length classes) = Some g)).
Proof.
  intros fn. split.
  - unfold Context.can_merge_generator_and_env_classes, Context.is_generator.
    rewrite !andb_true_iff, orb_true_iff, !negb_true_iff. tauto.
  - intros classes g e Hgen s. subst s.
    assert (forall (l : list ClassIR) (x : ClassIR) (rest : list ClassIR),
              (l ++ x :: rest) !! length l = Some x) as Hat.
    { intros l x rest. induction l as [|y l IH]; [reflexivity|exact IH]. }
    assert (length (classes ++ [e]) = S (length classes)) as Hlen
      by (rewrite length_app; simpl; lia).
    assert ((classes ++ [e]) ++ [g] = classes ++ [e; g]) as Happ
      by (rewrite <- app_assoc; reflexivity).
    assert (Nat.eqb (length classes) (S (length classes)) = false) as Hne
      by (apply Nat.eqb_neq; lia).
    unfold Context.setup_generator_classes, Context.can_merge_generator_and_env_classes,
      Context.synthesized_classes, Context.new_class.
    rewrite Hgen.
    destruct (Context.is_nested fn), (Context.contains_nested fn); simpl;
      (split; [reflexivity|]); (split; [reflexivity|]); split;
      try (intros [? ?]; discriminate); try (intros [?|?]; discriminate);
      intros _.
    all: try (rewrite Hlen, Happ, Hne; repeat split;
              [intros E; injection E; lia|apply Hat|];
              rewrite <- Happ, <- Hlen; apply Hat).
    rewrite Nat.eqb_refl. repeat split. apply Hat.
Qed.

(** A generator on its own, and one that contains a nested function and
    whose two classes are given the same contents. *)
Lemma C6_plain_and_nested_generators :
  let gen := mkFuncDef 30 "numbers" None false true false None [] [] false in
  let plain :=
    Context.mkFuncInfo gen "numbers" None EmptyString None None None None
                       false false false false false in
  let nesting :=
    Context.mkFuncInfo gen "numbers" None EmptyString None None None None
                       false true false false false in
  let g := mkClassIR "numbers_gen" "app" in
  let e := mkClassIR "numbers_env" "app" in
  Context.can_merge_generator_and_env_classes plain = true
  /\ Context.synthesized_classes (Context.setup_generator_classes [] plain g e) = [0%nat]
  /\ Context.classes (Context.setup_generator_classes [] plain g e) = [g]
  /\ Context.synthesized_classes (Context.setup_generator_classes [] nesting g g)
     = [0%nat; 1%nat]
  /\ Context.classes (Context.setup_generator_classes [] nesting g g) = [g; g].
Proof.
  intros gen plain nesting g e.
  pose proof (proj2 (C6_merge_generator_and_env_classes plain) [] g e eq_refl) as P.
  pose proof (proj2 (C6_merge_generator_and_env_classes nesting) [] g g eq_refl) as N.
  cbv zeta in P, N.
  destruct P as (_ & _ & P & _). destruct (P (conj eq_refl eq_refl)) as (P1 & P2 & _).
  destruct N as (_ & _ & _ & N). destruct (N (or_intror eq_refl)) as (N1 & N2 & _).
  split; [|split; [|split; [|split]]].
  - apply (proj1 (C6_merge_generator_and_env_classes plain)). simpl. tauto.
  - exact P2.
  - exact P1.
  - exact N2.
  - exact N1.
Defined.

(** ** Integer literals *)

Lemma shiftl_1_pow (n : Z) : (0 <= n)%Z -> Z.shiftl 1 n = (2 ^ n)%Z.
Proof.
  intros Hn. rewrite Z.shiftl_mul_pow2 by exact Hn. lia.
Qed.

Lemma land_max_unsigned (x n : Z) :
  (0 <= n)%Z -> Z.land x (Z.shiftl 1 n - 1) = (x mod 2 ^ n)%Z.
Proof.
  intros Hn. rewrite <- Z.land_ones by exact Hn.
  rewrite Z.ones_equiv, shiftl_1_pow by exact Hn.
  reflexivity.
Qed.

(** C7.  [truncate_literal] of an integer literal to a representation of
    [s > 0] bytes is the literal modulo [2^(8s)], less [2^(8s)] when the
    representation is signed and the remainder is at least [2^(8s-1)];
    256 gives 0 at eight bits unsigned and 200 gives -56 at eight bits
    signed.  A value that is not a literal is returned as it is. *)
Theorem C7_truncate_literal :
  (forall (v : Z) (t : RType) (rtype : RPrimitive),
     (0 < size rtype)%Z ->
     Specialize.truncate_literal (Integer v t) rtype
     = Integer (Specialize.twos_complement v (size rtype) (is_signed rtype)) (RPrim rtype))
  /\ Specialize.truncate_literal (Integer 256 int_rprimitive) uint8_prim
     = Integer 0 uint8_rprimitive
  /\ Specialize.truncate_literal (Integer 200 int_rprimitive) (mkRPrimitive "i8" true 1)
     = Integer (-56) (RPrim (mkRPrimitive "i8" true 1))
  /\ (forall t n rtype,
        Specialize.truncate_literal (Register t n) rtype = Register t n)
  /\ (forall op t rtype,
        Specialize.truncate_literal (OpResult op t) rtype = OpResult op t).
Proof.
  split; [|repeat split].
  intros v t rtype Hs.
  unfold Specialize.truncate_literal, Specialize.twos_complement.
  rewrite land_max_unsigned by lia.
  replace (size rtype * 8)%Z with (8 * size rtype)%Z by lia.
  rewrite shiftl_1_pow by lia.
  replace (2 ^ (8 * size rtype) - 1 + 1)%Z with (2 ^ (8 * size rtype))%Z by lia.
  assert ((2 ^ (8 * size rtype) / 2)%Z = (2 ^ (8 * size rtype - 1))%Z) as ->.
  { replace (8 * size rtype)%Z with (1 + (8 * size rtype - 1))%Z at 1 by lia.
    rewrite Z.pow_add_r by lia.
    rewrite Z.mul_comm, Z.div_mul by lia. reflexivity. }
  rewrite Z.geb_leb. reflexivity.
Qed.

(** 40000 does not fit sixteen signed bits. *)
Lemma C7_truncate_to_i16 :
  Specialize.truncate_literal (Integer 40000 int_rprimitive) int16_prim
  = Integer (-25536) int16_rprimitive.
Proof.
  apply (proj1 C7_truncate_literal 40000%Z int_rprimitive int16_prim).
  reflexivity.
Defined.

(** ** The boolean-literal check *)

Lemma parse_bool_cases (e : Expression) :
  (exists n, e = NameExpr n "builtins.True") /\ SemanalShared.parse_bool e = Some true
  \/ (exists n, e = NameExpr n "builtins.False") /\ SemanalShared.parse_bool e = Some false
  \/ (forall n, e <> NameExpr n "builtins.True")
     /\ (forall n, e <> NameExpr n "builtins.False")
     /\ SemanalShared.parse_bool e = None.
Proof.
  destruct e as [n fn| | | | |]; simpl;
    try (right; right; repeat split; intros; discriminate).
  destruct (String.eqb_spec fn "builtins.True") as [->|NT].
  - left. split; [exists n|]; reflexivity.
  - destruct (String.eqb_spec fn "builtins.False") as [->|NF].
    + right; left. split; [exists n|]; reflexivity.
    + right; right. repeat split; intros m E; injection E as _ E; contradiction.
Qed.

(** C9.  [require_bool_literal_argument] returns [True], or [False],
    and reports nothing, when the expression is the name
    [builtins.True], or [builtins.False]; for every other expression it
    calls [fail] once, with the literal-required message and code, and
    returns the default.  With the analyzer that collects diagnostics
    these three cases are told apart by their outcome; and [None] is
    returned only when the default is [None] and the expression is no
    literal. *)
Theorem C9_require_bool_literal_argument :
  forall (Api : Type) (I : SemanalShared.SemanticAnalyzerInterface Api)
         (api : Api) (e : Expression) (name : string) (default : option bool),
    ((exists n, e = NameExpr n "builtins.True") ->
     SemanalShared.require_bool_literal_argument api e name default = (Some true, api))
    /\ ((exists n, e = NameExpr n "builtins.False") ->
        SemanalShared.require_bool_literal_argument api e name default = (Some false, api))
    /\ ((forall n, e <> NameExpr n "builtins.True") ->
        (forall n, e <> NameExpr n "builtins.False") ->
        SemanalShared.require_bool_literal_argument api e name default
        = (default,
           SemanalShared.fail api (SemanalShared.literal_required_msg name) e
                              SemanalShared.LITERAL_REQ))
    /\ (fst (SemanalShared.require_bool_literal_argument api e name default) = None ->
        default = None /\ SemanalShared.parse_bool e = None)
    /\ (forall (seen : list SemanalShared.Diagnostic) (b : bool),
        SemanalShared.require_bool_literal_argument seen e name default = (Some b, seen)
        <-> exists n, e = NameExpr n (if b then "builtins.True" else "builtins.False")).
Proof.
  intros Api I api e name default.
  unfold SemanalShared.require_bool_literal_argument.
  destruct (parse_bool_cases e) as [[[n ->] P]|[[[n ->] P]|(NT & NF & P)]];
    rewrite P; simpl.
  - repeat split; try discriminate.
    + intros [m E]. discriminate E.
    + intros H. exfalso. apply (H n). reflexivity.
    + intros E. injection E as <-. exists n. reflexivity.
    + intros [m E]. destruct b; [reflexivity|discriminate E].
  - repeat split; try discriminate.
    + intros [m E]. discriminate E.
    + intros _ H. exfalso. apply (H n). reflexivity.
    + intros E. injection E as <-. exists n. reflexivity.
    + intros [m E]. destruct b; [discriminate E|reflexivity].
  - repeat split; try assumption.
    + intros [m E]. exfalso. apply (NT m E).
    + intros [m E]. exfalso. apply (NF m E).
    + intros E. injection E as _ E.
      apply (f_equal (@length _)) in E. rewrite length_app in E. simpl in E. lia.
    + intros [m E]. exfalso. destruct b; [apply (NT m E)|apply (NF m E)].
Qed.

(** [frozen=True] and [frozen=flag], with default [False]. *)
Lemma C9_literal_and_non_literal :
  SemanalShared.require_bool_literal_argument (Api := list SemanalShared.Diagnostic)
    [] (NameExpr "True" "builtins.True") "frozen" (Some false)
  = (Some true, [])
  /\ SemanalShared.require_bool_literal_argument (Api := list SemanalShared.Diagnostic)
       [] (NameExpr "flag" "app.flag") "frozen" (Some false)
     = (Some false,
        [SemanalShared.mkDiagnostic
           (SemanalShared.literal_required_msg "frozen")
           (NameExpr "flag" "app.flag") SemanalShared.LITERAL_REQ]).
Proof.
  split.
  - apply (C9_require_bool_literal_argument _ _ [] (NameExpr "True" "builtins.True")
             "frozen" (Some false)).
    exists "True". reflexivity.
  - apply (proj1 (proj2 (proj2
             (C9_require_bool_literal_argument _ SemanalShared.collecting_api []
                (NameExpr "flag" "app.flag") "frozen" (Some false))))).
    + intros n E. discriminate E.
    + intros n E. discriminate E.
Defined.

(** ** Equality of representations *)

Lemma union_eqb_iff (xs ys : list RType) :
  rtype_eqb (RUnion xs) (RUnion ys) = true <->
  (forall x, In x xs -> exists y, In y ys /\ rtype_eqb x y = true)
  /\ (forall y, In y ys -> exists x, In x xs /\ rtype_eqb x y = true).
Proof.
  simpl. rewrite andb_true_iff, !forallb_forall.
  split; intros [H1 H2]; split; intros z Hz.
  - apply existsb_exists. apply H1. exact Hz.
  - apply existsb_exists. apply H2. exact Hz.
  - apply existsb_exists. apply H1. exact Hz.
  - apply existsb_exists. apply H2. exact Hz.
Qed.

Lemma rtype_eqb_refl (t : RType) : rtype_eqb t t = true.
Proof.
  induction t as [p|ts IH|c|items IH] using RType_nested_ind.
  - simpl. apply String.eqb_refl.
  - simpl. induction IH as [|x l Hx _ IHl]; simpl; [reflexivity|].
    rewrite Hx, IHl. reflexivity.
  - simpl. apply String.eqb_refl.
  - apply union_eqb_iff. rewrite List.Forall_forall in IH.
    split; intros z Hz; exists z; (split; [exact Hz|apply IH; exact Hz]).
Qed.

Lemma rtype_eqb_sym_imp (a : RType) :
  forall b, rtype_eqb a b = true <-> rtype_eqb b a = true.
Proof.
  induction a as [p|ts IH|c|items IH] using RType_nested_ind; intros b.
  - destruct b; simpl; try tauto. rewrite String.eqb_sym. tauto.
  - destruct b as [|us| |]; simpl; try tauto.
    revert us. induction IH as [|x l Hx _ IHl]; intros [|u us]; simpl; try tauto.
    rewrite !andb_true_iff, Hx, IHl. tauto.
  - destruct b; simpl; try tauto. rewrite String.eqb_sym. tauto.
  - destruct b as [| | |ys]; try (simpl; tauto).
    rewrite !union_eqb_iff. rewrite List.Forall_forall in IH.
    split; intros [H1 H2]; split; intros z Hz.
    + destruct (H2 z Hz) as (x & Hx & E). exists x. split; [exact Hx|].
      apply (proj1 (IH x Hx z)). exact E.
    + destruct (H1 z Hz) as (y & Hy & E). exists y. split; [exact Hy|].
      apply (proj1 (IH z Hz y)). exact E.
    + destruct (H2 z Hz) as (y & Hy & E). exists y. split; [exact Hy|].
      apply (proj2 (IH z Hz y)). exact E.
    + destruct (H1 z Hz) as (x & Hx & E). exists x. split; [exact Hx|].
      apply (proj2 (IH x Hx z)). exact E.
Qed.

Lemma rtype_eqb_sym (a b : RType) : rtype_eqb a b = rtype_eqb b a.
Proof.
  destruct (rtype_eqb a b) eqn:E1, (rtype_eqb b a) eqn:E2; try reflexivity.
  - apply rtype_eqb_sym_imp in E1. congruence.
  - apply rtype_eqb_sym_imp in E2. congruence.
Qed.

Lemma rtype_eqb_trans (a : RType) :
  forall b c, rtype_eqb a b = true -> rtype_eqb b c = true -> rtype_eqb a c = true.
Proof.
  induction a as [p|ts IH|c0|items IH] using RType_nested_ind; intros b c.
  - destruct b, c; simpl; try discriminate.
    rewrite !String.eqb_eq. congruence.
  - destruct b as [|us| |], c as [|vs| |]; simpl; try discriminate.
    revert us vs. induction IH as [|x l Hx _ IHl]; intros [|u us] [|v vs]; simpl;
      try discriminate; try reflexivity.
    rewrite !andb_true_iff. intros [E1 F1] [E2 F2]. split.
    + apply (Hx u v); assumption.
    + apply (IHl us vs); assumption.
  - destruct b, c; simpl; try discriminate.
    rewrite !String.eqb_eq. congruence.
  - destruct b as [| | |ys], c as [| | |zs]; try (simpl; discriminate).
    rewrite !union_eqb_iff. rewrite List.Forall_forall in IH.
    intros [A1 A2] [B1 B2]. split.
    + intros x Hx. destruct (A1 x Hx) as (y & Hy & Exy).
      destruct (B1 y Hy) as (z & Hz & Eyz).
      exists z. split; [exact Hz|]. apply (IH x Hx y z); assumption.
    + intros z Hz. destruct (B2 z Hz) as (y & Hy & Eyz).
      destruct (A2 y Hy) as (x & Hx & Exy).
      exists x. split; [exact Hx|]. apply (IH x Hx y z); assumption.
Qed.

(** ** Keys of a dictionary of representations *)

Lemma mem_rtype_iff (x : RType) (l : list RType) :
  mem_rtype x l = true <-> exists y, In y l /\ rtype_eqb y x = true.
Proof.
  unfold mem_rtype. apply existsb_exists.
Qed.

Lemma mem_rtype_app (x : RType) (l1 l2 : list RType) :
  mem_rtype x (l1 ++ l2) = mem_rtype x l1 || mem_rtype x l2.
Proof.
  unfold mem_rtype. apply existsb_app.
Qed.

Lemma mem_rtype_In (x : RType) (l : list RType) : In x l -> mem_rtype x l = true.
Proof.
  intros H. apply mem_rtype_iff. exists x. split; [exact H|apply rtype_eqb_refl].
Qed.

Lemma distinct_snoc (l : list RType) (x : RType) :
  distinct l = true -> mem_rtype x l = false -> distinct (l ++ [x]) = true.
Proof.
  induction l as [|y l IH]; simpl; [reflexivity|].
  rewrite andb_true_iff, negb_true_iff, orb_false_iff.
  intros [Hy Hd] [Hyx Hx].
  rewrite mem_rtype_app, Hy, IH by assumption. simpl.
  rewrite rtype_eqb_sym, Hyx. reflexivity.
Qed.

Lemma distinct_app_fresh (l1 l2 : list RType) (x : RType) :
  distinct (l1 ++ x :: l2) = true -> mem_rtype x l1 = false.
Proof.
  induction l1 as [|y l1 IH]; simpl; [reflexivity|].
  rewrite andb_true_iff, negb_true_iff, mem_rtype_app. simpl.
  rewrite !orb_false_iff. intros [(_ & Hxy & _) Hd].
  rewrite rtype_eqb_sym, Hxy. split; [reflexivity|]. apply IH. exact Hd.
Qed.

Lemma fromkeys_from_app (seen l1 l2 : list RType) :
  fromkeys_from seen (l1 ++ l2) = fromkeys_from (fromkeys_from seen l1) l2.
Proof.
  revert seen. induction l1 as [|x l1 IH]; intros seen; simpl; [reflexivity|].
  destruct (mem_rtype x seen); apply IH.
Qed.

Lemma fromkeys_from_prefix (l seen : list RType) :
  exists extra, fromkeys_from seen l = seen ++ extra /\ (forall x, In x extra -> In x l).
Proof.
  revert seen. induction l as [|x l IH]; intros seen; simpl.
  - exists []. split; [symmetry; apply app_nil_r|intros x []].
  - destruct (mem_rtype x seen).
    + destruct (IH seen) as (extra & E & Hin). exists extra.
      split; [exact E|]. intros y Hy. right. apply Hin. exact Hy.
    + destruct (IH (seen ++ [x])) as (extra & E & Hin). exists (x :: extra).
      split; [rewrite E, <- app_assoc; reflexivity|].
      intros y [<-|Hy]; [left; reflexivity|right; apply Hin; exact Hy].
Qed.

Lemma fromkeys_from_mem (l seen : list RType) (x : RType) :
  mem_rtype x seen = true \/ In x l -> mem_rtype x (fromkeys_from seen l) = true.
Proof.
  revert seen. induction l as [|y l IH]; intros seen; simpl.
  - intros [H|[]]. exact H.
  - intros [H|[<-|H]].
    + destruct (mem_rtype y seen); apply IH; left; [exact H|].
      rewrite mem_rtype_app, H. reflexivity.
    + destruct (mem_rtype y seen) eqn:E; apply IH; left; [exact E|].
      rewrite mem_rtype_app. simpl. rewrite rtype_eqb_refl, orb_true_r. reflexivity.
    + destruct (mem_rtype y seen); apply IH; right; exact H.
Qed.

Lemma fromkeys_from_absorb (l seen : list RType) :
  (forall x, In x l -> mem_rtype x seen = true) -> fromkeys_from seen l = seen.
Proof.
  induction l as [|y l IH]; simpl; [reflexivity|].
  intros H. rewrite (H y) by (left; reflexivity).
  apply IH. intros x Hx. apply H. right. exact Hx.
Qed.

Lemma fromkeys_from_distinct (l seen : list RType) :
  distinct seen = true -> distinct (fromkeys_from seen l) = true.
Proof.
  revert seen. induction l as [|y l IH]; intros seen Hd; simpl; [exact Hd|].
  destruct (mem_rtype y seen) eqn:E; apply IH; [exact Hd|].
  apply distinct_snoc; assumption.
Qed.

Lemma fromkeys_from_distinct_id (l seen : list RType) :
  distinct (seen ++ l) = true -> fromkeys_from seen l = seen ++ l.
Proof.
  revert seen. induction l as [|y l IH]; intros seen Hd; simpl.
  - symmetry. apply app_nil_r.
  - rewrite (distinct_app_fresh seen l y Hd).
    rewrite IH; rewrite <- app_assoc; [reflexivity|exact Hd].
Qed.

(** A list of distinct items, each of which is equal to an item of a
    second list, is no longer than the second list. *)
Lemma distinct_length_le (l1 : list RType) :
  forall l2, distinct l1 = true ->
    (forall x, In x l1 -> mem_rtype x l2 = true) ->
    (length l1 <= length l2)%nat.
Proof.
  induction l1 as [|x l1 IH]; intros l2 Hd Hsub; simpl; [lia|].
  simpl in Hd. apply andb_true_iff in Hd as [Hx Hd]. apply negb_true_iff in Hx.
  destruct (proj1 (mem_rtype_iff x l2) (Hsub x (or_introl eq_refl))) as (y & Hy & Eyx).
  destruct (in_split y l2 Hy) as (p & s & ->).
  rewrite length_app. simpl.
  enough (length l1 <= length (p ++ s))%nat by (rewrite length_app in *; lia).
  apply IH; [exact Hd|].
  intros z Hz.
  destruct (proj1 (mem_rtype_iff z (p ++ y :: s)) (Hsub z (or_intror Hz)))
    as (w & Hw & Ewz).
  apply in_app_or in Hw as [Hw|[<-|Hw]].
  - apply mem_rtype_iff. exists w. split; [apply in_or_app; left; exact Hw|exact Ewz].
  - exfalso.
    assert (mem_rtype x l1 = true) as Habs; [|congruence].
    apply mem_rtype_iff. exists z. split; [exact Hz|].
    apply (rtype_eqb_trans z y x); [|exact Eyx].
    rewrite rtype_eqb_sym. exact Ewz.
  - apply mem_rtype_iff. exists w. split; [apply in_or_app; right; exact Hw|exact Ewz].
Qed.

(** ** Simplified unions *)

Lemma flatten_rtype_no_union (t : RType) :
  forall x, In x (flatten_rtype t) -> is_RUnion x = false.
Proof.
  induction t as [p|ts _|c|items IH] using RType_nested_ind; simpl;
    try (intros x [<-|[]]; reflexivity).
  rewrite List.Forall_forall in IH.
  intros x Hx. apply in_flat_map in Hx as (t & Ht & Hx).
  apply (IH t Ht x Hx).
Qed.

Lemma flatten_nested_unions_no_union (items : list RType) :
  forall x, In x (flatten_nested_unions items) -> is_RUnion x = false.
Proof.
  intros x Hx. apply in_flat_map in Hx as (t & _ & Hx).
  apply (flatten_rtype_no_union t x Hx).
Qed.

Lemma flat_map_flatten_flat (items : list RType) :
  List.forallb (fun x => negb (is_RUnion x)) items = true ->
  List.flat_map flatten_rtype items = items.
Proof.
  induction items as [|x items IH]; simpl; [reflexivity|].
  rewrite andb_true_iff, negb_true_iff. intros [Hx Hrest].
  rewrite IH by exact Hrest. destruct x; try discriminate; reflexivity.
Qed.

Lemma fromkeys_In (l : list RType) (x : RType) : In x (fromkeys l) -> In x l.
Proof.
  unfold fromkeys. destruct (fromkeys_from_prefix l []) as (extra & -> & Hin).
  simpl. apply Hin.
Qed.

Lemma fromkeys_distinct (l : list RType) : distinct (fromkeys l) = true.
Proof.
  apply fromkeys_from_distinct. reflexivity.
Qed.

Lemma fromkeys_mem (l : list RType) (x : RType) :
  In x l -> mem_rtype x (fromkeys l) = true.
Proof.
  intros H. apply fromkeys_from_mem. right. exact H.
Qed.

(** Whatever [make_simplified_union] returns is simplified. *)
Lemma make_simplified_union_simplified (items : list RType) (r : RType) :
  make_simplified_union items = Ok r -> simplified r = true.
Proof.
  unfold make_simplified_union.
  pose proof (flatten_nested_unions_no_union items) as Hflat.
  destruct (flatten_nested_unions items) as [|f flat]; [discriminate|].
  set (L := f :: flat) in *.
  destruct (1 <? length (fromkeys L))%nat eqn:Elen.
  - intros E. injection E as <-. unfold simplified.
    rewrite fromkeys_distinct.
    apply Nat.ltb_lt in Elen.
    assert ((2 <=? length (fromkeys L))%nat = true) as -> by (apply Nat.leb_le; lia).
    rewrite !andb_true_r. apply forallb_forall.
    intros x Hx. rewrite (Hflat x (fromkeys_In L x Hx)). reflexivity.
  - destruct (fromkeys L) as [|u us] eqn:EU; [discriminate|].
    intros E. injection E as <-.
    assert (In u (fromkeys L)) as Hu by (rewrite EU; left; reflexivity).
    apply fromkeys_In, Hflat in Hu. destruct u; try discriminate; reflexivity.
Qed.

(** The union of a simplified representation with itself is that
    representation. *)
Lemma make_simplified_union_twice (a : RType) :
  simplified a = true -> make_simplified_union [a; a] = Ok a.
Proof.
  intros Hs. unfold make_simplified_union, flatten_nested_unions. simpl.
  rewrite app_nil_r.
  assert (forall t, is_RUnion t = false ->
            (if (1 <? length (fromkeys ([t] ++ [t])))%nat
             then Ok (RUnion (fromkeys ([t] ++ [t])))
             else match fromkeys ([t] ++ [t]) with
                  | u :: _ => Ok u
                  | [] => Raise StopIteration
                  end) = Ok t) as Hsingle.
  { intros t _. unfold fromkeys. simpl. rewrite rtype_eqb_refl. reflexivity. }
  destruct a as [p|ts|c|items]; try (apply Hsingle; reflexivity).
  unfold simplified in Hs. apply andb_true_iff in Hs as [Hs Hlen].
  apply andb_true_iff in Hs as [Hflat Hd].
  apply Nat.leb_le in Hlen.
  simpl. rewrite (flat_map_flatten_flat items Hflat).
  assert (fromkeys (items ++ items) = items) as EU.
  { unfold fromkeys. rewrite fromkeys_from_app.
    rewrite (fromkeys_from_distinct_id items []) by exact Hd. simpl.
    apply fromkeys_from_absorb. intros x Hx. apply mem_rtype_In. exact Hx. }
  destruct (items ++ items) as [|f flat] eqn:EL.
  - destruct items; [simpl in Hlen; lia|discriminate].
  - rewrite EU.
    assert ((1 <? length items)%nat = true) as -> by (apply Nat.ltb_lt; lia).
    reflexivity.
Qed.

(** Two lists with the same items simplify to equal unions. *)
Lemma simplify_same_items (L1 L2 : list RType) :
  (forall x, In x L1 <-> In x L2) ->
  (length (fromkeys L1) = length (fromkeys L2))
  /\ rtype_eqb (RUnion (fromkeys L1)) (RUnion (fromkeys L2)) = true.
Proof.
  intros Hsame.
  assert (forall x, In x (fromkeys L1) -> mem_rtype x (fromkeys L2) = true) as H12.
  { intros x Hx. apply fromkeys_mem, Hsame, fromkeys_In, Hx. }
  assert (forall x, In x (fromkeys L2) -> mem_rtype x (fromkeys L1) = true) as H21.
  { intros x Hx. apply fromkeys_mem, Hsame, fromkeys_In, Hx. }
  split.
  - apply Nat.le_antisymm; apply distinct_length_le;
      auto using fromkeys_distinct.
  - apply union_eqb_iff. split.
    + intros x Hx. destruct (proj1 (mem_rtype_iff _ _) (H12 x Hx)) as (y & Hy & E).
      exists y. split; [exact Hy|]. rewrite rtype_eqb_sym. exact E.
    + intros y Hy. apply mem_rtype_iff. apply H21. exact Hy.
Qed.

(** The union of two representations does not depend on their order. *)
Lemma make_simplified_union_comm (a b : RType) :
  results_agree (make_simplified_union [a; b]) (make_simplified_union [b; a]).
Proof.
  unfold make_simplified_union, flatten_nested_unions. simpl.
  rewrite !app_nil_r.
  set (L1 := flatten_rtype a ++ flatten_rtype b).
  set (L2 := flatten_rtype b ++ flatten_rtype a).
  assert (forall x, In x L1 <-> In x L2) as Hsame.
  { intros x. unfold L1, L2. rewrite !in_app_iff. tauto. }
  destruct (simplify_same_items L1 L2 Hsame) as [Hlen Heq].
  assert (L1 <> [] -> fromkeys L1 <> []) as Hne1.
  { destruct L1 as [|x L1]; [congruence|]. intros _ E.
    pose proof (fromkeys_mem (x :: L1) x (or_introl eq_refl)) as Hm.
    rewrite E in Hm. discriminate. }
  destruct L1 as [|x1 L1'] eqn:E1, L2 as [|x2 L2'] eqn:E2; simpl.
  - exact I.
  - destruct (proj2 (Hsame x2) (or_introl eq_refl)).
  - destruct (proj1 (Hsame x1) (or_introl eq_refl)).
  - rewrite <- Hlen.
    destruct (1 <? length (fromkeys (x1 :: L1')))%nat eqn:Elen; [exact Heq|].
    apply Nat.ltb_ge in Elen.
    destruct (fromkeys (x1 :: L1')) as [|u us] eqn:EU1; [exfalso; apply Hne1; congruence|].
    destruct (fromkeys (x2 :: L2')) as [|v vs] eqn:EU2; [discriminate|].
    simpl. apply union_eqb_iff in Heq as [H _].
    destruct (H u (or_introl eq_refl)) as (y & Hy & E).
    simpl in Elen, Hlen.
    assert (vs = []) as -> by (destruct vs; [reflexivity|simpl in Hlen; lia]).
    destruct Hy as [<-|[]]. exact E.
Qed.

Lemma instance_to_rtype_simplified (self : Mapper) (inst : Instance) :
  simplified (instance_to_rtype self inst) = true.
Proof.
  unfold instance_to_rtype.
  repeat match goal with
  | |- simplified (if ?c then _ else _) = true => destruct c; [reflexivity|]
  end.
  destruct (type_to_ir self !! uid (type inst)) as [ir|].
  - destruct (is_protocol (type inst)); reflexivity.
  - repeat match goal with
    | |- simplified (if ?c then _ else _) = true => destruct c; [reflexivity|]
    end.
    reflexivity.
Qed.

(** Every representation the mapper returns is simplified. *)
Lemma type_to_rtype_simplified (self : Mapper) :
  forall typ r, type_to_rtype self typ = Ok r -> simplified r = true.
Proof.
  fix type_to_rtype_simplified 1. intros typ.
  destruct typ as [inst|items fb|ats aks ans rt| |items|k|item|ub|[t|]|items|fb|fb| |n|t|fn|target];
    simpl; intros r E; try (injection E as <-; reflexivity); try discriminate E.
  - injection E as <-. apply instance_to_rtype_simplified.
  - destruct (_ && _) in E.
    + destruct (mapM (type_to_rtype self) items); simpl in E; [|discriminate E].
      injection E as <-. reflexivity.
    + injection E as <-. reflexivity.
  - destruct (mapM (type_to_rtype self) items) as [ts|]; simpl in E; [|discriminate E].
    apply (make_simplified_union_simplified ts r E).
  - apply (type_to_rtype_simplified ub r E).
  - apply (type_to_rtype_simplified t r E).
  - injection E as <-. apply instance_to_rtype_simplified.
  - apply (type_to_rtype_simplified target r E).
Qed.

Lemma simplified_flatten_nonempty (t : RType) :
  simplified t = true -> flatten_rtype t <> [].
Proof.
  destruct t as [p|ts|c|items]; try (simpl; discriminate).
  unfold simplified. rewrite !andb_true_iff, Nat.leb_le.
  intros [[Hflat _] Hlen].
  change (flatten_rtype (RUnion items)) with (List.flat_map flatten_rtype items).
  rewrite (flat_map_flatten_flat items Hflat).
  destruct items; [simpl in Hlen; lia|discriminate].
Qed.

(** A union of one representation or more, each simplified, is made
    without failure. *)
Lemma make_simplified_union_ok (ts : list RType) :
  ts <> [] -> Forall (fun t => simplified t = true) ts ->
  is_ok (make_simplified_union ts) = true.
Proof.
  intros Hne Hs. destruct ts as [|t ts]; [contradiction|].
  unfold make_simplified_union, flatten_nested_unions. simpl.
  pose proof (simplified_flatten_nonempty t (Forall_inv Hs)) as Hflat.
  destruct (flatten_rtype t) as [|x flat]; [contradiction|]. simpl.
  set (L := x :: flat ++ flat_map flatten_rtype ts).
  pose proof (fromkeys_mem L x (or_introl eq_refl)) as Hm.
  destruct (1 <? length (fromkeys L))%nat; [reflexivity|].
  destruct (fromkeys L); [discriminate Hm|reflexivity].
Qed.

(** [dict.fromkeys] keeps every item, up to equality. *)
Lemma mem_rtype_fromkeys (x : RType) (l : list RType) :
  mem_rtype x (fromkeys l) = mem_rtype x l.
Proof.
  apply eq_true_iff_eq. rewrite !mem_rtype_iff. split.
  - intros (y & Hy & E). exists y. split; [apply fromkeys_In; exact Hy|exact E].
  - intros (y & Hy & E).
    destruct (proj1 (mem_rtype_iff y (fromkeys l)) (fromkeys_mem l y Hy)) as (z & Hz & Ezy).
    exists z. split; [exact Hz|]. apply (rtype_eqb_trans z y x Ezy E).
Qed.

(** The items of what [make_simplified_union] returns (the result
    itself, when it is no union) are the items of the representations it
    is given, those of nested unions spliced in, each kept once. *)
Lemma make_simplified_union_items (ts : list RType) (u : RType) :
  make_simplified_union ts = Ok u ->
  flatten_rtype u = fromkeys (flatten_nested_unions ts).
Proof.
  unfold make_simplified_union.
  pose proof (flatten_nested_unions_no_union ts) as Hflat.
  destruct (flatten_nested_unions ts) as [|f flat]; [discriminate|].
  set (L := f :: flat) in *.
  assert (forall x, In x (fromkeys L) -> is_RUnion x = false) as Hno
    by (intros x Hx; apply Hflat, fromkeys_In, Hx).
  destruct (1 <? length (fromkeys L))%nat eqn:Elen.
  - intros E. injection E as <-.
    change (flatten_rtype (RUnion (fromkeys L)))
      with (List.flat_map flatten_rtype (fromkeys L)).
    apply flat_map_flatten_flat. apply forallb_forall.
    intros x Hx. rewrite (Hno x Hx). reflexivity.
  - apply Nat.ltb_ge in Elen.
    destruct (fromkeys L) as [|v vs] eqn:EU; [discriminate|].
    intros E. injection E as <-.
    assert (vs = []) as -> by (destruct vs; [reflexivity|simpl in Elen; lia]).
    specialize (Hno v (or_introl eq_refl)).
    destruct v; try discriminate; reflexivity.
Qed.

(** C5.  The members of a union are lowered one by one and the
    representations handed to [make_simplified_union].  When every
    member of a union of one member or more lowers, the union lowers,
    to a simplified representation (no union among its items, no item
    twice, two items at least if it is a union) whose items are those of
    the lowerings of the members; a member that does not lower makes
    the lowering of the union raise.  For [A] and [B] that lower, the
    unions of [A] and [B] in the two orders lower to equal
    representations, and the union of [A] with itself lowers to what
    [A] lowers to; when [A] or [B] does not lower, neither order does. *)
Theorem C5_union_lowering :
  forall (self : Mapper),
    (forall items ts,
       items <> [] ->
       Forall2 (fun t r => type_to_rtype self t = Ok r) items ts ->
       exists u,
         type_to_rtype self (UnionType items) = Ok u
         /\ make_simplified_union ts = Ok u
         /\ simplified u = true
         /\ (forall x, mem_rtype x (flatten_rtype u)
                       = mem_rtype x (flatten_nested_unions ts)))
    /\ (forall pre t post ts e,
          Forall2 (fun t r => type_to_rtype self t = Ok r) pre ts ->
          type_to_rtype self t = Raise e ->
          type_to_rtype self (UnionType (pre ++ t :: post)) = Raise e)
    /\ (forall A B a b,
          type_to_rtype self A = Ok a ->
          type_to_rtype self B = Ok b ->
          exists ab ba,
            type_to_rtype self (UnionType [A; B]) = Ok ab
            /\ type_to_rtype self (UnionType [B; A]) = Ok ba
            /\ rtype_eqb ab ba = true)
    /\ (forall A a,
          type_to_rtype self A = Ok a ->
          type_to_rtype self (UnionType [A; A]) = Ok a)
    /\ (forall A B,
          results_agree (type_to_rtype self (UnionType [A; B]))
                        (type_to_rtype self (UnionType [B; A]))
          /\ type_to_rtype self (UnionType [A; A]) = type_to_rtype self A).
Proof.
  intros self.
  assert (forall A B,
            results_agree (type_to_rtype self (UnionType [A; B]))
                          (type_to_rtype self (UnionType [B; A]))) as Hcomm.
  { intros A B. simpl.
    destruct (type_to_rtype self A) as [a|ea], (type_to_rtype self B) as [b|eb];
      simpl; try exact I.
    apply make_simplified_union_comm. }
  assert (forall A, type_to_rtype self (UnionType [A; A]) = type_to_rtype self A)
    as Htwice.
  { intros A. simpl. destruct (type_to_rtype self A) as [a|ea] eqn:EA; simpl;
      [|reflexivity].
    apply make_simplified_union_twice.
    apply (type_to_rtype_simplified self A a EA). }
  assert (forall items ts,
            items <> [] ->
            Forall2 (fun t r => type_to_rtype self t = Ok r) items ts ->
            exists u,
              type_to_rtype self (UnionType items) = Ok u
              /\ make_simplified_union ts = Ok u
              /\ simplified u = true
              /\ (forall x, mem_rtype x (flatten_rtype u)
                            = mem_rtype x (flatten_nested_unions ts))) as Hmany.
  { intros items ts Hne F.
    assert (ts <> []) as Hts.
    { destruct F; [contradiction|discriminate]. }
    assert (Forall (fun t => simplified t = true) ts) as Hs.
    { clear Hne Hts. induction F as [|x r xs rs Hx _ IH]; constructor; [|exact IH].
      apply (type_to_rtype_simplified self x r Hx). }
    pose proof (make_simplified_union_ok ts Hts Hs) as Hok.
    destruct (make_simplified_union ts) as [u|] eqn:Eu; [|discriminate].
    exists u. split; [|split; [|split]].
    - simpl. rewrite (proj2 (mapM_Forall2 self items ts) F). exact Eu.
    - reflexivity.
    - apply (make_simplified_union_simplified ts u Eu).
    - intros x. rewrite (make_simplified_union_items ts u Eu).
      apply mem_rtype_fromkeys. }
  split; [exact Hmany|]. split; [|split; [|split]].
  - intros pre t post ts e F Ht. simpl.
    rewrite (mapM_first_failure self pre t post ts e F Ht). reflexivity.
  - intros A B a b HA HB.
    destruct (Hmany [A; B] [a; b]) as (ab & Hab & _);
      [discriminate|repeat constructor; assumption|].
    destruct (Hmany [B; A] [b; a]) as (ba & Hba & _);
      [discriminate|repeat constructor; assumption|].
    exists ab, ba. split; [exact Hab|]. split; [exact Hba|].
    pose proof (Hcomm A B) as H. rewrite Hab, Hba in H. exact H.
  - intros A a HA. rewrite Htwice. exact HA.
  - intros A B. split; [apply Hcomm|apply Htwice].
Qed.

(** The union of [int] and of the union of [str] and [int], in the two
    orders, and the union of [int] with itself. *)
Lemma C5_union_of_int_and_str :
  let int_ := TInstance Samples.builtins_int in
  let str_or_int := UnionType [TInstance Samples.builtins_str; int_] in
  type_to_rtype Samples.no_classes (UnionType [int_; str_or_int])
  = Ok (RUnion [int_rprimitive; str_rprimitive])
  /\ type_to_rtype Samples.no_classes (UnionType [str_or_int; int_])
     = Ok (RUnion [str_rprimitive; int_rprimitive])
  /\ rtype_eqb (RUnion [int_rprimitive; str_rprimitive])
               (RUnion [str_rprimitive; int_rprimitive]) = true
  /\ type_to_rtype Samples.no_classes (UnionType [int_; int_]) = Ok int_rprimitive.
Proof.
  intros int_ str_or_int.
  destruct (C5_union_lowering Samples.no_classes) as (_ & _ & Horder & Hself & _).
  destruct (Horder int_ str_or_int int_rprimitive
              (RUnion [str_rprimitive; int_rprimitive]) eq_refl eq_refl)
    as (ab & ba & Hab & Hba & Heq).
  assert (ab = RUnion [int_rprimitive; str_rprimitive]) as ->
    by (injection Hab as <-; reflexivity).
  assert (ba = RUnion [str_rprimitive; int_rprimitive]) as ->
    by (injection Hba as <-; reflexivity).
  split; [exact Hab|]. split; [exact Hba|]. split; [exact Heq|].
  apply (Hself int_ int_rprimitive eq_refl).
Defined.

(** ** The table of specializers *)

Section RegistryFacts.
Variable IRBuilder : Type.
#[local] Abbreviation Specializer := (Specialize.Specializer IRBuilder).
#[local] Abbreviation Specializers := (Specialize.Specializers IRBuilder).
#[local] Abbreviation lookup := (Specialize.lookup IRBuilder).
#[local] Abbreviation first_successful := (Specialize.first_successful IRBuilder).
#[local] Abbreviation all_decline := (Specialize.all_decline IRBuilder).

Lemma Key_eqb_refl (k : Specialize.Key) : Specialize.Key_eqb k k = true.
Proof.
  destruct k as [n [t|]]; unfold Specialize.Key_eqb; simpl;
    rewrite String.eqb_refl; [apply rtype_eqb_refl|reflexivity].
Qed.

Lemma Key_eqb_sym (k k' : Specialize.Key) :
  Specialize.Key_eqb k k' = Specialize.Key_eqb k' k.
Proof.
  destruct k as [n [t|]], k' as [n' [t'|]]; unfold Specialize.Key_eqb; simpl;
    rewrite (String.eqb_sym n n'); [rewrite (rtype_eqb_sym t t')|..]; reflexivity.
Qed.

Lemma Key_eqb_trans (k1 k2 k3 : Specialize.Key) :
  Specialize.Key_eqb k1 k2 = true -> Specialize.Key_eqb k2 k3 = true ->
  Specialize.Key_eqb k1 k3 = true.
Proof.
  destruct k1 as [n1 [t1|]], k2 as [n2 [t2|]], k3 as [n3 [t3|]];
    unfold Specialize.Key_eqb; simpl; rewrite !andb_true_iff, !String.eqb_eq;
    intros [-> H12] [-> H23]; try discriminate; split; try reflexivity.
  apply (rtype_eqb_trans t1 t2 t3); assumption.
Qed.

(** A registration adds its specializer at the end of the list of its
    key and leaves the lists of the other keys as they are. *)
Lemma lookup_specialize_function (tbl : Specializers) n t (f : Specializer) k :
  lookup (Specialize.specialize_function IRBuilder n t f tbl) k
  = if Specialize.Key_eqb (n, t) k
    then Some (match lookup tbl k with Some rules => rules ++ [f] | None => [f] end)
    else lookup tbl k.
Proof.
  induction tbl as [|[k' rules] rest IH]; simpl.
  - reflexivity.
  - destruct (Specialize.Key_eqb k' (n, t)) eqn:Enew; simpl.
    + destruct (Specialize.Key_eqb (n, t) k) eqn:Ek.
      * rewrite (Key_eqb_trans k' (n, t) k Enew Ek). reflexivity.
      * destruct (Specialize.Key_eqb k' k) eqn:Ek'; [|reflexivity].
        rewrite Key_eqb_sym in Enew.
        rewrite (Key_eqb_trans (n, t) k' k Enew Ek') in Ek. discriminate.
    + destruct (Specialize.Key_eqb k' k) eqn:Ek'.
      * destruct (Specialize.Key_eqb (n, t) k) eqn:Ek; [|reflexivity].
        rewrite Key_eqb_sym in Ek.
        rewrite (Key_eqb_trans k' k (n, t) Ek' Ek) in Enew. discriminate.
      * exact IH.
Qed.

Lemma lookup_register_all (regs : list (Specialize.Registration IRBuilder))
    (tbl : Specializers) (k : Specialize.Key) :
  lookup (Specialize.register_all IRBuilder regs tbl) k
  = match lookup tbl k, Specialize.registered_for IRBuilder k regs with
    | None, [] => None
    | None, rules => Some rules
    | Some old, rules => Some (old ++ rules)
    end.
Proof.
  revert tbl. induction regs as [|r regs IH]; intros tbl; simpl.
  - unfold Specialize.registered_for. simpl.
    destruct (lookup tbl k); [rewrite app_nil_r|]; reflexivity.
  - unfold Specialize.register_all in *. simpl. rewrite IH.
    rewrite lookup_specialize_function.
    unfold Specialize.registered_for, Specialize.reg_key. simpl.
    destruct (Specialize.Key_eqb (Specialize.reg_name IRBuilder r,
                                  Specialize.reg_typ IRBuilder r) k); simpl.
    + destruct (lookup tbl k); [rewrite <- app_assoc|]; reflexivity.
    + reflexivity.
Qed.

(** The loop either sees every specializer decline, or stops at the
    first that answers, having called those before it and no other. *)
Lemma first_successful_spec (rules : list Specializer) :
  forall i builder expr callee,
  exists res builder' calls,
    first_successful i rules builder expr callee = (res, builder', calls)
    /\ ((res = None
         /\ all_decline expr callee rules builder builder'
         /\ calls = Specialize.declined i (length rules))
        \/ (exists pre f post v b1,
              rules = pre ++ f :: post
              /\ all_decline expr callee pre builder b1
              /\ f b1 expr callee = (Some v, builder')
              /\ res = Some v
              /\ calls = Specialize.declined i (length pre)
                         ++ [Specialize.mkAttempt (i + length pre) (Some v)])).
Proof.
  induction rules as [|f rules IH]; intros i builder expr callee; simpl.
  - exists None, builder, []. split; [reflexivity|]. left.
    repeat split. constructor.
  - destruct (f builder expr callee) as [[v|] b1] eqn:Ef.
    + exists (Some v), b1, [Specialize.mkAttempt i (Some v)].
      split; [reflexivity|]. right.
      exists [], f, rules, v, builder. simpl. rewrite Nat.add_0_r.
      repeat split; try assumption. constructor.
    + destruct (IH (S i) b1 expr callee) as (res & b' & calls & E & H).
      rewrite E. exists res, b', (Specialize.mkAttempt i None :: calls).
      split; [reflexivity|].
      destruct H as [(-> & Hd & ->)|(pre & g & post & v & b2 & -> & Hd & Eg & -> & ->)].
      * left. repeat split. econstructor; eassumption.
      * right. exists (f :: pre), g, post, v, b2. simpl.
        rewrite Nat.add_succ_r.
        repeat split; try assumption. econstructor; eassumption.
Qed.

Lemma declined_none_succeeded (i n : nat) :
  List.filter Specialize.succeeded (Specialize.declined i n) = [].
Proof.
  unfold Specialize.declined. revert i. induction n as [|n IH]; intros i; simpl;
    [reflexivity|apply IH].
Qed.

Lemma declined_rules (i n : nat) :
  List.map Specialize.rule (Specialize.declined i n) = List.seq i n.
Proof.
  unfold Specialize.declined. rewrite List.map_map. simpl. apply List.map_id.
Qed.

End RegistryFacts.

(** C2.  Registrations under a key pile up in the order they are made.
    At a call site whose key has a list of specializers, the attempt
    calls them in that order.  Either all decline, all have been called
    and the attempt answers nothing; or one answers, the attempt answers
    what it answered and leaves the builder as it left it, the ones
    before it were called and declined, and none after it was called.  At
    most one call answers. *)
Theorem C2_first_successful_specializer :
  forall (IRBuilder : Type),
    (forall (regs : list (Specialize.Registration IRBuilder)) (k : Specialize.Key),
       Specialize.lookup IRBuilder (Specialize.register_all IRBuilder regs []) k
       = match Specialize.registered_for IRBuilder k regs with
         | [] => None
         | rules => Some rules
         end)
    /\ (forall (specializers : Specialize.Specializers IRBuilder)
               (name : string) (typ : option RType)
               (rules : list (Specialize.Specializer IRBuilder))
               (builder : IRBuilder) (expr : CallExpr) (callee : Expression),
          name <> EmptyString ->
          Specialize.lookup IRBuilder specializers (name, typ) = Some rules ->
          exists res builder' calls,
            Specialize._apply_specialization IRBuilder specializers builder expr callee
              (Some name) typ
            = (res, builder', calls)
            /\ ((res = None
                 /\ Specialize.all_decline IRBuilder expr callee rules builder builder'
                 /\ calls = Specialize.declined 0 (length rules))
                \/ (exists pre f post v b1,
                      rules = pre ++ f :: post
                      /\ Specialize.all_decline IRBuilder expr callee pre builder b1
                      /\ f b1 expr callee = (Some v, builder')
                      /\ res = Some v
                      /\ calls = Specialize.declined 0 (length pre)
                                 ++ [Specialize.mkAttempt (length pre) (Some v)]))
            /\ List.map Specialize.rule calls = List.seq 0 (length calls)
            /\ (length calls <= length rules)%nat
            /\ (length (List.filter Specialize.succeeded calls) <= 1)%nat).
Proof.
  intros IRBuilder. split.
  - intros regs k. rewrite lookup_register_all. reflexivity.
  - intros specializers name typ rules builder expr callee Hname Hlook.
    unfold Specialize._apply_specialization.
    destruct (String.eqb_spec name EmptyString) as [E|_]; [contradiction|]. simpl.
    rewrite Hlook.
    destruct (first_successful_spec IRBuilder rules 0 builder expr callee)
      as (res & b' & calls & E & H).
    exists res, b', calls. split; [exact E|]. split; [exact H|].
    destruct H as [(_ & _ & ->)|(pre & f & post & v & b1 & -> & _ & _ & _ & ->)].
    + rewrite declined_rules, declined_none_succeeded.
      unfold Specialize.declined. rewrite length_map, length_seq. simpl.
      repeat split; lia.
    + rewrite List.map_app, List.filter_app, declined_rules, declined_none_succeeded.
      rewrite !length_app. unfold Specialize.declined.
      rewrite length_map, length_seq. simpl.
      repeat split; try lia.
      rewrite List.seq_app. reflexivity.
Qed.

(** Three specializers registered for [builtins.len], one for another
    key registered in between. *)
Lemma C2_second_len_specializer_wins :
  exists res builder' calls,
    Specialize._apply_specialization nat Samples.len_table 0%nat Samples.len_call
      (NameExpr "len" "builtins.len") (Some "builtins.len") None
    = (res, builder', calls)
    /\ ((res = None
         /\ Specialize.all_decline nat Samples.len_call (NameExpr "len" "builtins.len")
              [Samples.declining; Samples.answering 1; Samples.answering 2] 0%nat builder'
         /\ calls = Specialize.declined 0 3)
        \/ (exists pre f post v b1,
              [Samples.declining; Samples.answering 1; Samples.answering 2]
              = pre ++ f :: post
              /\ Specialize.all_decline nat Samples.len_call
                   (NameExpr "len" "builtins.len") pre 0%nat b1
              /\ f b1 Samples.len_call (NameExpr "len" "builtins.len") = (Some v, builder')
              /\ res = Some v
              /\ calls = Specialize.declined 0 (length pre)
                         ++ [Specialize.mkAttempt (length pre) (Some v)]))
    /\ List.map Specialize.rule calls = List.seq 0 (length calls)
    /\ (length calls <= 3)%nat
    /\ (length (List.filter Specialize.succeeded calls) <= 1)%nat.
Proof.
  apply (proj2 (C2_first_successful_specializer nat) Samples.len_table
           "builtins.len" None
           [Samples.declining; Samples.answering 1; Samples.answering 2]
           0%nat Samples.len_call (NameExpr "len" "builtins.len")).
  - discriminate.
  - reflexivity.
Defined.

(** ** [str.encode] *)

Section StrEncodeFacts.
Variable IRBuilder : Type.
Variable lower : string -> string.
Variable accept : IRBuilder -> Expression -> Value * IRBuilder.
Variable call_c :
  IRBuilder -> Specialize.CFunctionDescription -> list Value -> Z -> Value * IRBuilder.

#[local] Abbreviation str_encode_fast_path :=
  (Specialize.str_encode_fast_path IRBuilder lower accept call_c).

#[local] Arguments Specialize.str_in : simpl never.
#[local] Arguments Specialize.normalize : simpl never.
#[local] Arguments Specialize.emit_encode : simpl never.

(** What a routine is called on, and what comes of the call: the
    receiver is compiled, the routine is called on the compiled receiver
    alone, at the line given, and the result of the call is returned. *)
Lemma emit_encode_eq (builder : IRBuilder) (desc : Specialize.CFunctionDescription)
    (receiver : Expression) (ln : Z) :
  Specialize.emit_encode IRBuilder accept call_c builder desc receiver ln
  = (Some (fst (call_c (snd (accept builder receiver)) desc
                  [fst (accept builder receiver)] ln)),
     snd (call_c (snd (accept builder receiver)) desc
            [fst (accept builder receiver)] ln)).
Proof.
  unfold Specialize.emit_encode.
  destruct (accept builder receiver) as [obj b]. simpl.
  destruct (call_c b desc [obj] ln) as [res b']. reflexivity.
Qed.

Ltac finish := first [reflexivity | apply emit_encode_eq].

Ltac branch :=
  match goal with
  | |- context [String.eqb ?a ?b] => destruct (String.eqb a b); simpl
  | |- context [Specialize.str_in ?a ?l] => destruct (Specialize.str_in a l); simpl
  end.

(** On a call that binds [encoding] and [errors], the specializer does
    what the specification says. *)
Lemma str_encode_refines (builder : IRBuilder) (expr : CallExpr)
    (receiver : Expression) (n fn : string) (enc err : option Expression) :
  Specialize.bind_encode_args expr = Some (enc, err) ->
  str_encode_fast_path builder expr (MemberExpr receiver n fn)
  = Specialize.str_encode_spec lower accept call_c builder receiver (line expr) enc err.
Proof.
  destruct expr as [c arguments ln]. unfold Specialize.bind_encode_args. simpl.
  destruct arguments as [|[e0 k0 n0] [|[e1 k1 n1] [|]]]; try discriminate.
  - intros E. injection E as <- <-.
    unfold Specialize.str_encode_fast_path, Specialize.str_encode_spec,
        Specialize.fast_routine. simpl.
    repeat branch; finish.
  - destruct k0; try discriminate.
    + intros E. injection E as <- <-.
      unfold Specialize.str_encode_fast_path, Specialize.str_encode_spec,
        Specialize.fast_routine.
      destruct e0; simpl; try finish.
      repeat branch; finish.
    + destruct n0 as [nm|]; [|discriminate].
      destruct (String.eqb_spec nm "encoding") as [->|_];
        [|destruct (String.eqb_spec nm "errors") as [->|_]; [|discriminate]];
        intros E; injection E as <- <-;
        unfold Specialize.str_encode_fast_path, Specialize.str_encode_spec,
          Specialize.fast_routine;
        destruct e0; simpl; try finish; repeat branch; finish.
  - destruct k0, k1; try discriminate.
    + intros E. injection E as <- <-.
      unfold Specialize.str_encode_fast_path, Specialize.str_encode_spec,
        Specialize.fast_routine.
      destruct e0, e1; simpl; try finish; repeat branch; finish.
    + destruct n1 as [nm|]; [|destruct n0; discriminate].
      destruct (String.eqb_spec nm "errors") as [->|_]; [|destruct n0; discriminate].
      intros E. assert (enc = Some e0 /\ err = Some e1) as [-> ->]
        by (destruct n0; injection E as <- <-; split; finish).
      unfold Specialize.str_encode_fast_path, Specialize.str_encode_spec,
        Specialize.fast_routine.
      destruct e0, e1; simpl; try finish; repeat branch; finish.
    + destruct n0 as [nm0|], n1 as [nm1|]; try discriminate.
      destruct (String.eqb_spec nm0 "encoding") as [->|_];
        destruct (String.eqb_spec nm1 "errors") as [->|_]; simpl.
      * intros E. injection E as <- <-.
        unfold Specialize.str_encode_fast_path, Specialize.str_encode_spec,
        Specialize.fast_routine.
        destruct e0, e1; simpl; try finish; repeat branch; finish.
      * discriminate.
      * destruct (String.eqb_spec nm0 "errors") as [->|_]; [discriminate|discriminate].
      * destruct (String.eqb_spec nm0 "errors") as [->|_]; [|discriminate].
        destruct (String.eqb_spec nm1 "encoding") as [->|_]; [|discriminate].
        simpl. intros E. injection E as <- <-.
        unfold Specialize.str_encode_fast_path, Specialize.str_encode_spec,
        Specialize.fast_routine.
        destruct e0, e1; simpl; try finish; repeat branch; finish.
Qed.

(** A call one of whose first two arguments is no string literal is
    declined, and nothing is emitted. *)
Lemma str_encode_non_literal (builder : IRBuilder) (expr : CallExpr)
    (callee : Expression) (i : nat) (a : CallArg) :
  (i < 2)%nat -> nth_error (args expr) i = Some a -> is_StrExpr (arg a) = false ->
  str_encode_fast_path builder expr callee = (None, builder).
Proof.
  intros Hi Ha Hlit. unfold Specialize.str_encode_fast_path.
  destruct callee; try reflexivity.
  destruct i as [|[|i]]; [| |lia]; rewrite Ha; simpl; rewrite Hlit; simpl.
  - reflexivity.
  - destruct (Specialize.not_a_StrExpr _); reflexivity.
Qed.

End StrEncodeFacts.

(** C8.  For a call of [str.encode] through a member expression, with
    [enc] and [err] what the call passes for [encoding] and [errors]:

    - when the encoding is left out or is a literal that normalizes into
      the UTF-8 aliases, and the error mode is left out or is the literal
      "strict", the specializer compiles the receiver, calls the UTF-8
      strict routine on the compiled receiver alone, at the line of the
      call, and answers the result of that call;
    - it declines, answering nothing and emitting nothing, when one of
      the first two arguments is no string literal, when the error mode
      is another literal than "strict", and when the normalized encoding
      is in no alias set;
    - whenever it answers, the answer is the result of calling, on the
      compiled receiver, the routine of the alias set a literal (or
      default) encoding normalizes into, under a strict error mode.

    Normalizing is lower-casing and dropping every "-" and "_"; for a
    [lower] that lower-cases ASCII text as [str.lower] does, "UTF-8"
    normalizes to "utf8", which is a UTF-8 alias, and so does the
    default encoding. *)
Theorem C8_str_encode_fast_path :
  forall (IRBuilder : Type) (lower : string -> string)
         (accept : IRBuilder -> Expression -> Value * IRBuilder)
         (call_c : IRBuilder -> Specialize.CFunctionDescription -> list Value -> Z
                   -> Value * IRBuilder)
         (builder : IRBuilder) (expr : CallExpr) (receiver : Expression) (n fn : string),
    let run :=
      Specialize.str_encode_fast_path IRBuilder lower accept call_c builder expr
        (MemberExpr receiver n fn) in
    (forall i a, (i < 2)%nat -> nth_error (args expr) i = Some a ->
                 is_StrExpr (arg a) = false -> run = (None, builder))
    /\ (forall enc err,
          Specialize.bind_encode_args expr = Some (enc, err) ->
          (forall e,
             Specialize.literal_or "utf8" enc = Some e ->
             Specialize.str_in (Specialize.normalize lower e) Specialize.utf8_aliases
             = true ->
             Specialize.literal_or "strict" err = Some "strict" ->
             forall obj compiled res called,
               accept builder receiver = (obj, compiled) ->
               call_c compiled Specialize.str_encode_utf8_strict [obj] (line expr)
               = (res, called) ->
               run = (Some res, called))
          /\ (Specialize.literal_or "utf8" enc = None
              \/ Specialize.literal_or "strict" err = None ->
              run = (None, builder))
          /\ (forall s,
                Specialize.literal_or "strict" err = Some s -> s <> "strict" ->
                run = (None, builder))
          /\ (forall e,
                Specialize.literal_or "utf8" enc = Some e ->
                Specialize.fast_routine (Specialize.normalize lower e) = None ->
                run = (None, builder))
          /\ (forall v builder',
                run = (Some v, builder') ->
                exists e desc obj compiled,
                  Specialize.literal_or "utf8" enc = Some e
                  /\ Specialize.literal_or "strict" err = Some "strict"
                  /\ Specialize.fast_routine (Specialize.normalize lower e) = Some desc
                  /\ accept builder receiver = (obj, compiled)
                  /\ call_c compiled desc [obj] (line expr) = (v, builder')))
    /\ (Specialize.lowers_ascii lower ->
        Specialize.normalize lower "UTF-8" = "utf8"
        /\ Specialize.normalize lower "utf8" = "utf8"
        /\ Specialize.str_in "utf8" Specialize.utf8_aliases = true).
Proof.
  intros IRBuilder lower accept call_c builder expr receiver n fn run.
  split; [|split].
  - intros i a. apply str_encode_non_literal.
  - intros enc err Hbind.
    pose proof (str_encode_refines IRBuilder lower accept call_c builder expr receiver
                  n fn enc err Hbind) as R.
    fold run in R. unfold Specialize.str_encode_spec in R.
    split; [|split; [|split; [|split]]].
    + intros e He Hin Herr obj compiled res called Ha Hc. rewrite R, He, Herr. simpl.
      unfold Specialize.fast_routine. rewrite Hin, Ha. simpl. rewrite Hc. reflexivity.
    + intros [H|H]; rewrite R, H; [|destruct (Specialize.literal_or "utf8" enc)];
        reflexivity.
    + intros s Hs Hne. rewrite R, Hs.
      destruct (Specialize.literal_or "utf8" enc); [|reflexivity].
      destruct (String.eqb_spec s "strict"); [contradiction|reflexivity].
    + intros e He Hnone. rewrite R, He, Hnone.
      destruct (Specialize.literal_or "strict" err) as [s|]; [|reflexivity].
      destruct (s =? "strict"); reflexivity.
    + intros v b' Hrun. rewrite R in Hrun.
      destruct (Specialize.literal_or "utf8" enc) as [e|]; [|discriminate].
      destruct (Specialize.literal_or "strict" err) as [s|]; [|discriminate].
      destruct (s =? "strict") eqn:Es; [|discriminate].
      apply String.eqb_eq in Es. subst s.
      destruct (Specialize.fast_routine (Specialize.normalize lower e)) as [desc|] eqn:Ef;
        [|discriminate].
      destruct (accept builder receiver) as [obj compiled] eqn:Ea. simpl in Hrun.
      destruct (call_c compiled desc [obj] (line expr)) as [res called] eqn:Ec.
      simpl in Hrun. injection Hrun as <- <-.
      exists e, desc, obj, compiled. repeat split; [exact Ef|exact Ec].
  - intros Hlower. unfold Specialize.normalize.
    rewrite !Hlower by reflexivity. repeat split.
Qed.

(** [text.encode("UTF-8")], with a builder that records the routines
    called; and the lower-casing of ASCII text, which is all that is
    assumed of [lower]. *)
Lemma C8_encode_utf8_literal :
  Specialize.str_encode_fast_path _ Specialize.lower_ascii_string
    Samples.recording_accept Samples.recording_call_c
    [] Samples.encode_utf8_call
    (MemberExpr (NameExpr "text" "text") "encode" "builtins.str.encode")
  = (Some (OpResult 0 bytes_rprimitive),
     [(Specialize.str_encode_utf8_strict, [Register str_rprimitive "text"], 3%Z)])
  /\ Specialize.lowers_ascii Specialize.lower_ascii_string
  /\ Specialize.normalize Specialize.lower_ascii_string "UTF-8" = "utf8".
Proof.
  pose proof (C8_str_encode_fast_path _ Specialize.lower_ascii_string
                Samples.recording_accept Samples.recording_call_c
                [] Samples.encode_utf8_call (NameExpr "text" "text")
                "encode" "builtins.str.encode") as (_ & H & N).
  assert (Specialize.lowers_ascii Specialize.lower_ascii_string) as Hlower
    by (intros s _; reflexivity).
  split; [|split].
  - apply (proj1 (H (Some (StrExpr "UTF-8")) None eq_refl) "UTF-8" eq_refl eq_refl eq_refl
             (Register str_rprimitive "text") []
             (OpResult 0 bytes_rprimitive)
             [(Specialize.str_encode_utf8_strict, [Register str_rprimitive "text"], 3%Z)]
             eq_refl eq_refl).
  - exact Hlower.
  - exact (proj1 (N Hlower)).
Defined.

(** ** Runs on sample inputs *)

Example lower_union_int_str :
  type_to_rtype Samples.no_classes
    (UnionType [TInstance Samples.builtins_int; TInstance Samples.builtins_str])
  = Ok (RUnion [int_rprimitive; str_rprimitive]).
Proof. reflexivity. Qed.

Example lower_union_str_int :
  type_to_rtype Samples.no_classes
    (UnionType [TInstance Samples.builtins_str; TInstance Samples.builtins_int])
  = Ok (RUnion [str_rprimitive; int_rprimitive]).
Proof. reflexivity. Qed.

Example unions_equal_as_sets :
  rtype_eqb (RUnion [int_rprimitive; str_rprimitive])
            (RUnion [str_rprimitive; int_rprimitive]) = true.
Proof. reflexivity. Qed.

Example lower_nested_union :
  type_to_rtype Samples.no_classes
    (UnionType [UnionType [TInstance Samples.builtins_int; NoneTyp];
                TInstance Samples.builtins_int;
                TypeAliasType (TInstance Samples.builtins_str)])
  = Ok (RUnion [int_rprimitive; none_rprimitive; str_rprimitive]).
Proof. reflexivity. Qed.

Example lower_union_of_one :
  type_to_rtype Samples.no_classes
    (UnionType [TInstance Samples.builtins_int; TInstance Samples.builtins_int])
  = Ok int_rprimitive.
Proof. reflexivity. Qed.

Example lower_tuple_with_placeholder :
  type_to_rtype Samples.no_classes
    (TupleType [TInstance Samples.builtins_int; PlaceholderType None]
               Samples.builtins_tuple)
  = Raise (unexpected_type "PlaceholderType").
Proof. reflexivity. Qed.

Example len_call_attempt :
  Specialize._apply_specialization nat Samples.len_table 0%nat Samples.len_call
    (NameExpr "len" "builtins.len") (Some "builtins.len") None
  = (Some (Integer 1 int_rprimitive), 1%nat,
     [Specialize.mkAttempt 0 None;
      Specialize.mkAttempt 1 (Some (Integer 1 int_rprimitive))]).
Proof. reflexivity. Qed.

Example no_specializer_for_key :
  Specialize._apply_specialization nat Samples.len_table 0%nat Samples.len_call
    (NameExpr "len" "builtins.len") (Some "builtins.len") (Some str_rprimitive)
  = (None, 0%nat, []).
Proof. reflexivity. Qed.

Example normalize_latin_1 :
  Specialize.normalize Specialize.lower_ascii_string "Latin_1" = "latin1".
Proof. reflexivity. Qed.

Example encode_utf8_emits :
  Specialize.str_encode_fast_path nat Specialize.lower_ascii_string
    Samples.counting_accept Samples.counting_call_c
    0%nat Samples.encode_utf8_call
    (MemberExpr (NameExpr "text" "text") "encode" "builtins.str.encode")
  = (Some (OpResult 1 bytes_rprimitive), 2%nat).
Proof. reflexivity. Qed.

Example encode_non_literal_declines :
  Specialize.str_encode_fast_path nat Specialize.lower_ascii_string
    Samples.counting_accept Samples.counting_call_c
    0%nat
    (mkCallExpr (MemberExpr (NameExpr "text" "text") "encode" "builtins.str.encode")
                [mkCallArg (NameExpr "codec" "app.codec") ARG_POS None] 3)
    (MemberExpr (NameExpr "text" "text") "encode" "builtins.str.encode")
  = (None, 0%nat).
Proof. reflexivity. Qed.

Example encode_ignore_errors_declines :
  Specialize.str_encode_fast_path nat Specialize.lower_ascii_string
    Samples.counting_accept Samples.counting_call_c
    0%nat
    (mkCallExpr (MemberExpr (NameExpr "text" "text") "encode" "builtins.str.encode")
                [mkCallArg (StrExpr "ignore") ARG_NAMED (Some "errors");
                 mkCallArg (StrExpr "utf-8") ARG_NAMED (Some "encoding")] 3)
    (MemberExpr (NameExpr "text" "text") "encode" "builtins.str.encode")
  = (None, 0%nat).
Proof. reflexivity. Qed.

Example unannotated_signature :
  fdef_to_sig Samples.no_classes
    (mkFuncDef 21 "g" None false false false
       (Some [mkArgument "x" false; mkArgument "rest" false])
       [Some "x"; Some "rest"] [ARG_POS; ARG_STAR] false) true
  = Ok (mkFuncSignature
          [mkRuntimeArg "x" object_rprimitive ARG_POS false;
           mkRuntimeArg "rest" object_rprimitive ARG_STAR false]
          object_rprimitive).
Proof. reflexivity. Qed.

(** * Further properties *)

(** ** The mapper: when lowering raises *)

Section MapMFacts.
Context {A B : Type}.

Lemma mapM_is_ok (f : A -> Result B) (p : A -> bool) (items : list A) :
  Forall (fun x => is_ok (f x) = p x) items ->
  is_ok (mapM f items) = List.forallb p items.
Proof.
  induction 1 as [|x items Hx _ IH]; simpl; [reflexivity|].
  rewrite <- Hx, <- IH.
  destruct (f x); simpl; [|reflexivity].
  destruct (mapM f items); reflexivity.
Qed.

Lemma mapM_ext (f g : A -> Result B) (items : list A) :
  Forall (fun x => f x = g x) items -> mapM f items = mapM g items.
Proof.
  induction 1 as [|x items Hx _ IH]; simpl; [reflexivity|].
  rewrite Hx, IH. reflexivity.
Qed.

Lemma mapM_length (f : A -> Result B) (items : list A) (rs : list B) :
  mapM f items = Ok rs -> length rs = length items.
Proof.
  revert rs. induction items as [|x items IH]; intros rs; simpl.
  - intros E. injection E as <-. reflexivity.
  - destruct (f x); simpl; [|discriminate].
    destruct (mapM f items) as [ys|]; simpl; [|discriminate].
    intros E. injection E as <-. simpl. rewrite (IH ys eq_refl). reflexivity.
Qed.
End MapMFacts.

(** X1.  [type_to_rtype] raises on the types that are not [lowerable], and on
    no other, whatever the mapper. *)
Theorem type_to_rtype_ok_iff_lowerable :
  forall (self : Mapper) (typ : Type_),
    is_ok (type_to_rtype self typ) = MapperNotions.lowerable typ.
Proof.
  intros self typ.
  induction typ using Type_nested_ind; simpl; try reflexivity; try assumption.
  - destruct (_ && _); [|reflexivity].
    rewrite <- (mapM_is_ok (type_to_rtype self) MapperNotions.lowerable items H).
    destruct (mapM (type_to_rtype self) items); reflexivity.
  - destruct items as [|t items]; [reflexivity|].
    rewrite <- (mapM_is_ok (type_to_rtype self) MapperNotions.lowerable (t :: items) H).
    destruct (mapM (type_to_rtype self) (t :: items)) as [ts|e] eqn:Em;
      [|reflexivity].
    simpl. apply make_simplified_union_ok.
    + apply mapM_length in Em. destruct ts; [discriminate|discriminate].
    + apply mapM_Forall2 in Em. clear H.
      induction Em as [|x r xs rs Hx _ IH]; constructor; [|exact IH].
      apply (type_to_rtype_simplified self x r Hx).
Qed.

(** ** The mapper: compiled classes *)

(** X2.  Past the builtin names and the subclasses of [dict], a class that is
    registered in [type_to_ir] lowers to its instance representation,
    joined with the boxed object when the class is a protocol; this also
    for a class that bears the name of a native integer type.  A class
    that is not registered lowers by that name, to the boxed object for
    any other. *)
Theorem compiled_class_lowering :
  forall (self : Mapper) (inst : Instance),
    ~ In (fullname (type inst)) MapperNotions.builtin_names ->
    ~ In "builtins.dict" (mro (type inst)) ->
    type_to_rtype self (TInstance inst)
    = Ok match type_to_ir self !! uid (type inst) with
         | Some ir =>
             if is_protocol (type inst)
             then RUnion [RInstance ir; object_rprimitive]
             else RInstance ir
         | None => MapperNotions.native_int_of (fullname (type inst))
         end.
Proof.
  intros self inst Hname Hmro. simpl. unfold instance_to_rtype.
  assert (List.existsb (fun cls => cls =? "builtins.dict") (mro (type inst)) = false)
    as Hdict.
  { destruct (List.existsb _ _) eqn:E; [|reflexivity].
    apply existsb_exists in E as (cls & Hin & Ecls).
    apply String.eqb_eq in Ecls. subst cls. contradiction. }
  rewrite Hdict.
  assert (forall s, In s MapperNotions.builtin_names ->
                    (fullname (type inst) =? s) = false) as Hneq.
  { intros s Hs. apply String.eqb_neq. intros E. apply Hname. rewrite E. exact Hs. }
  repeat match goal with
  | |- context [String.eqb (fullname (type inst)) ?s] =>
      rewrite (Hneq s) by (unfold MapperNotions.builtin_names; simpl; tauto)
  end.
  reflexivity.
Qed.

(** A compiled protocol. *)
Lemma compiled_class_lowering_protocol :
  let Sized := mkTypeInfo 40 "app.Sized" ["app.Sized"; "builtins.object"] true in
  let self := mkMapper ∅ {[ 40%positive := mkClassIR "Sized" "app" ]} ∅ ∅ in
  type_to_rtype self (TInstance (mkInstance Sized))
  = Ok (RUnion [RInstance (mkClassIR "Sized" "app"); object_rprimitive]).
Proof.
  intros Sized self.
  apply (compiled_class_lowering self (mkInstance Sized)).
  - simpl. intros H. repeat destruct H as [H|H]; try discriminate H. exact H.
  - simpl. intros H. repeat destruct H as [H|H]; try discriminate H. exact H.
Defined.

Lemma instance_to_rtype_other_class (self : Mapper) (u : positive) (ir : ClassIR)
    (inst : Instance) :
  Pos.eqb (uid (type inst)) u = false ->
  instance_to_rtype (MapperNotions.register_class self u ir) inst
  = instance_to_rtype self inst.
Proof.
  intros Hu. unfold instance_to_rtype, MapperNotions.register_class. simpl.
  rewrite lookup_insert_ne; [reflexivity|].
  intros E. rewrite E, Pos.eqb_refl in Hu. discriminate.
Qed.

(** X3.  Registering a class changes the lowering of no type that does not
    mention it. *)
Theorem lowering_stable_under_registration :
  forall (self : Mapper) (u : positive) (ir : ClassIR) (typ : Type_),
    MapperNotions.avoids u typ = true ->
    type_to_rtype (MapperNotions.register_class self u ir) typ
    = type_to_rtype self typ.
Proof.
  intros self u ir typ.
  induction typ using Type_nested_ind; simpl; try reflexivity; try assumption.
  - rewrite negb_true_iff. intros Hu.
    rewrite instance_to_rtype_other_class by exact Hu. reflexivity.
  - rewrite andb_true_iff, forallb_forall. intros [Hitems _].
    rewrite (mapM_ext (type_to_rtype (MapperNotions.register_class self u ir))
               (type_to_rtype self) items); [reflexivity|].
    rewrite List.Forall_forall in *. intros x Hx. apply H; auto.
  - rewrite forallb_forall. intros Hitems.
    rewrite (mapM_ext (type_to_rtype (MapperNotions.register_class self u ir))
               (type_to_rtype self) items); [reflexivity|].
    rewrite List.Forall_forall in *. intros x Hx. apply H; auto.
  - rewrite negb_true_iff. intros Hu.
    rewrite instance_to_rtype_other_class by exact Hu. reflexivity.
Qed.

(** Registering [app.Config] leaves [tuple[int, str] | None] as it was. *)
Lemma lowering_stable_under_registration_sample :
  let t := UnionType [TupleType [TInstance Samples.builtins_int;
                                 TInstance Samples.builtins_str]
                                Samples.builtins_tuple;
                      NoneTyp] in
  type_to_rtype (MapperNotions.register_class Samples.no_classes 10 Samples.Config_ir) t
  = type_to_rtype Samples.no_classes t.
Proof.
  intros t.
  apply (lowering_stable_under_registration Samples.no_classes 10 Samples.Config_ir t).
  reflexivity.
Defined.

(** ** Signatures *)

Lemma zip4_nth_error {A B C D : Type} (la : list A) (lb : list B) (lc : list C)
    (ld : list D) i a b c d :
  nth_error (zip4 la lb lc ld) i = Some (a, b, c, d) ->
  nth_error la i = Some a /\ nth_error lb i = Some b
  /\ nth_error lc i = Some c /\ nth_error ld i = Some d.
Proof.
  unfold zip4. intros E.
  apply nth_error_combine in E as [E Hd].
  apply nth_error_combine in E as [E Hc].
  apply nth_error_combine in E as [Ha Hb].
  repeat split; assumption.
Qed.

Lemma sig_args_components (names : list string) (kinds : list ArgKind)
    (types : list RType) (pos : list bool) i a :
  nth_error (List.map (fun '(n, k, t, p) => mkRuntimeArg n t k p)
                      (zip4 names kinds types pos)) i = Some a ->
  nth_error names i = Some (MapperM.arg_name a)
  /\ nth_error kinds i = Some (arg_kind a)
  /\ nth_error types i = Some (arg_type a)
  /\ nth_error pos i = Some (arg_pos_only a).
Proof.
  rewrite nth_error_map.
  destruct (nth_error (zip4 names kinds types pos) i) as [[[[n k] t] p]|] eqn:E;
    simpl; [|discriminate].
  intros Ea. injection Ea as <-. simpl.
  apply (zip4_nth_error names kinds types pos i n k t p E).
Qed.

(** X4.  The flag [strict_dunders_typing] decides nothing but the return
    representation of the six comparison methods: with and without it
    [fdef_to_sig] fails alike, and gives the same parameters; without
    it the comparison methods return the boxed object, and every other
    function what it returns with it. *)
Theorem strict_dunders_typing_effect :
  forall (self : Mapper) (fdef : FuncDef),
    match fdef_to_sig self fdef true, fdef_to_sig self fdef false with
    | Ok strict, Ok loose =>
        sig_args loose = sig_args strict
        /\ sig_ret_type loose
           = if List.existsb (String.eqb (fdef_name fdef)) comparison_dunders
             then object_rprimitive
             else sig_ret_type strict
    | Raise e, Raise e' => e = e'
    | _, _ => False
    end.
Proof.
  intros self fdef. unfold fdef_to_sig.
  match goal with
  | |- context [bind ?r _] => destruct r as [[[ats pos] ret]|e]; simpl
  end; [|reflexivity].
  split; reflexivity.
Qed.

(** X5.  An undecorated generator or coroutine with a declared type returns
    an instance of its generator class, whatever return type it
    declares; the declared return type is not lowered at all, and a
    function without a generator class makes [fdef_to_sig] fail with a
    [KeyError] once its parameters are lowered. *)
Theorem generator_return_representation :
  forall (self : Mapper) (fdef : FuncDef) (strict : bool)
         arg_types arg_kinds arg_names ret_type,
    fdef_type fdef = Some (CallableType arg_types arg_kinds arg_names ret_type) ->
    is_coroutine fdef || is_generator fdef = true ->
    is_decorated fdef = false ->
    is_ok (mapM (fun tk => get_arg_rtype self (fst tk) (snd tk))
                (List.combine arg_types arg_kinds)) = true ->
    match fdef_to_generator self !! fdef_uid fdef with
    | None => fdef_to_sig self fdef strict = Raise KeyError
    | Some ir =>
        exists sig,
          fdef_to_sig self fdef strict = Ok sig
          /\ sig_ret_type sig
             = if negb strict
                  && List.existsb (String.eqb (fdef_name fdef)) comparison_dunders
               then object_rprimitive
               else RInstance ir
    end.
Proof.
  intros self fdef strict ats aks ans rt Hty Hgen Hdec Hargs.
  unfold fdef_to_sig. rewrite Hty, Hgen, Hdec.
  destruct (mapM _ (List.combine ats aks)) as [rts|e]; [|discriminate]. simpl.
  destruct (fdef_to_generator self !! fdef_uid fdef) as [ir|]; simpl.
  - eexists. split; reflexivity.
  - reflexivity.
Qed.

(** [def numbers(n: int) -> Later], a generator whose declared return
    type is still a placeholder. *)
Lemma generator_return_representation_sample :
  let numbers :=
    mkFuncDef 31 "numbers"
      (Some (CallableType [TInstance Samples.builtins_int] [ARG_POS] [Some "n"]
                          (PlaceholderType None)))
      false true false (Some [mkArgument "n" false]) [Some "n"] [ARG_POS] false in
  let self := mkMapper ∅ ∅ ∅ {[ 31%positive := mkClassIR "numbers_gen" "app" ]} in
  exists sig,
    fdef_to_sig self numbers true = Ok sig
    /\ sig_ret_type sig = RInstance (mkClassIR "numbers_gen" "app").
Proof.
  intros numbers self.
  apply (generator_return_representation self numbers true
           [TInstance Samples.builtins_int] [ARG_POS] [Some "n"] (PlaceholderType None));
    reflexivity.
Defined.

(** X6.  A function without a declared callable type never makes
    [fdef_to_sig] fail, provided it has its arguments: every parameter,
    starred or not, is a boxed object, there are as many parameters as
    the shorter of [arguments] and [arg_kinds], and the return is the
    boxed object, or none for an [__init__] method.  Without its
    arguments such a function makes [fdef_to_sig] fail. *)
Theorem unannotated_signature_is_boxed :
  forall (self : Mapper) (fdef : FuncDef) (strict : bool),
    MapperNotions.is_callable_type (fdef_type fdef) = false ->
    match arguments fdef with
    | None => fdef_to_sig self fdef strict = Raise AttributeError
    | Some args =>
        exists sig,
          fdef_to_sig self fdef strict = Ok sig
          /\ Forall (fun a => arg_type a = object_rprimitive) (sig_args sig)
          /\ length (sig_args sig)
             = Nat.min (length args) (length (fdef_arg_kinds fdef))
          /\ sig_ret_type sig
             = if negb strict
                  && List.existsb (String.eqb (fdef_name fdef)) comparison_dunders
               then object_rprimitive
               else if (fdef_name fdef =? "__init__") && has_info fdef
               then none_rprimitive
               else object_rprimitive
    end.
Proof.
  intros self fdef strict Hty. unfold fdef_to_sig.
  destruct (arguments fdef) as [args|] eqn:Eargs.
  - eexists. split.
    + destruct (fdef_type fdef) as [[]|]; try reflexivity. discriminate Hty.
    + simpl. split; [|split].
      * apply List.Forall_forall. intros a Ha.
        apply In_nth_error in Ha as [i Hi].
        apply sig_args_components in Hi as (_ & _ & Ht & _).
        apply nth_error_In in Ht. apply in_map_iff in Ht as (x & Hx & _).
        symmetry. exact Hx.
      * unfold zip4. rewrite length_map, !length_combine, !length_map. lia.
      * reflexivity.
  - destruct (fdef_type fdef) as [[]|]; try reflexivity. discriminate Hty.
Qed.

(** [def g(x, *rest)] *)
Lemma unannotated_signature_is_boxed_sample :
  let g :=
    mkFuncDef 21 "g" None false false false
      (Some [mkArgument "x" false; mkArgument "rest" false])
      [Some "x"; Some "rest"] [ARG_POS; ARG_STAR] false in
  exists sig,
    fdef_to_sig Samples.no_classes g false = Ok sig
    /\ Forall (fun a => arg_type a = object_rprimitive) (sig_args sig)
    /\ length (sig_args sig) = 2%nat
    /\ sig_ret_type sig = object_rprimitive.
Proof.
  intros g.
  apply (unannotated_signature_is_boxed Samples.no_classes g false). reflexivity.
Defined.

(** X7.  The parameters of a signature keep the kinds of the [FuncDef] and,
    position by position, the names of its arguments; a [FuncDef] that
    lacks its arguments gives the names of [arg_names], the empty name
    standing for a missing one.  With a declared callable type a
    parameter is positional-only exactly when the type has no name for
    it, without one when the argument says so. *)
Theorem signature_names_and_kinds :
  forall (self : Mapper) (fdef : FuncDef) (strict : bool) (sig : FuncSignature),
    fdef_to_sig self fdef strict = Ok sig ->
    forall i a, nth_error (sig_args sig) i = Some a ->
      nth_error (fdef_arg_kinds fdef) i = Some (arg_kind a)
      /\ match arguments fdef with
         | Some args =>
             exists x, nth_error args i = Some x
                       /\ MapperM.arg_name a = variable_name x
         | None =>
             exists n, nth_error (fdef_arg_names fdef) i = Some n
                       /\ MapperM.arg_name a
                          = match n with Some s => s | None => EmptyString end
         end
      /\ match fdef_type fdef, arguments fdef with
         | Some (CallableType _ _ names _), _ =>
             exists n, nth_error names i = Some n /\ arg_pos_only a = is_none n
         | _, Some args =>
             exists x, nth_error args i = Some x /\ arg_pos_only a = pos_only x
         | _, None => False
         end.
Proof.
  intros self fdef strict sig Esig i a Ha.
  unfold fdef_to_sig in Esig.
  match type of Esig with
  | context [bind ?r _] => destruct r as [[[ats pos] ret]|e] eqn:Et
  end; simpl in Esig; [|discriminate].
  injection Esig as <-. simpl in Ha.
  apply sig_args_components in Ha as (Hn & Hk & _ & Hp).
  split; [exact Hk|]. split.
  - destruct (arguments fdef) as [args|].
    + rewrite nth_error_map in Hn.
      destruct (nth_error args i) as [x|]; [|discriminate].
      injection Hn as Hn. exists x. split; [reflexivity|]. symmetry. exact Hn.
    + rewrite nth_error_map in Hn.
      destruct (nth_error (fdef_arg_names fdef) i) as [n|]; [|discriminate].
      injection Hn as Hn. exists n. split; [reflexivity|]. symmetry. exact Hn.
  - assert (forall args,
              (ats, pos, ret)
              = (List.map (fun _ => object_rprimitive) args, List.map pos_only args,
                 if (fdef_name fdef =? "__init__") && has_info fdef
                 then none_rprimitive else object_rprimitive) ->
              exists x, nth_error args i = Some x /\ arg_pos_only a = pos_only x)
      as Hplain.
    { intros args E. injection E as _ -> _.
      rewrite nth_error_map in Hp.
      destruct (nth_error args i) as [x|]; [|discriminate].
      injection Hp as Hp. exists x. split; [reflexivity|]. symmetry. exact Hp. }
    assert (match arguments fdef with
            | Some args =>
                Ok (List.map (fun _ => object_rprimitive) args, List.map pos_only args,
                    if (fdef_name fdef =? "__init__") && has_info fdef
                    then none_rprimitive else object_rprimitive)
            | None => Raise AttributeError
            end = Ok (ats, pos, ret) ->
            match arguments fdef with
            | Some args =>
                exists x, nth_error args i = Some x /\ arg_pos_only a = pos_only x
            | None => False
            end) as Hunannotated.
    { destruct (arguments fdef) as [args|]; [|discriminate].
      intros E. apply (Hplain args). injection E as <- <- <-. reflexivity. }
    destruct (fdef_type fdef) as [[]|]; try (apply Hunannotated; exact Et).
    destruct (mapM _ _) as [rts|]; simpl in Et; [|discriminate].
    match type of Et with
    | context [bind ?r _] => destruct r; simpl in Et; [|discriminate]
    end.
    injection Et as _ <- _.
    rewrite nth_error_map in Hp.
    destruct (nth_error arg_names i) as [n|]; [|discriminate].
    injection Hp as Hp. exists n. split; [reflexivity|]. symmetry. exact Hp.
Qed.

(** The signature of [def f(x: int, *args: int, **kw: str) -> int]. *)
Lemma signature_names_and_kinds_sample :
  exists sig,
    fdef_to_sig Samples.no_classes Samples.variadic_fdef true = Ok sig
    /\ forall a, nth_error (sig_args sig) 1 = Some a ->
         arg_kind a = ARG_STAR /\ MapperM.arg_name a = "args"
         /\ arg_pos_only a = false.
Proof.
  eexists. split; [reflexivity|].
  intros a Ha.
  destruct (signature_names_and_kinds Samples.no_classes Samples.variadic_fdef true
              _ eq_refl 1%nat a Ha) as (Hk & (x & Hx & Hn) & (n & Hnm & Hp)).
  simpl in Hk, Hx, Hnm.
  injection Hk as Hk. injection Hx as <-. injection Hnm as <-.
  repeat split; [symmetry; exact Hk|exact Hn|exact Hp].
Defined.

(** ** References to native definitions *)

Lemma append_nil_l (b : string) : (EmptyString ++ b)%string = b.
Proof. reflexivity. Qed.

Lemma append_cons (c : ascii) (a b : string) :
  (String c a ++ b)%string = String c (a ++ b)%string.
Proof. reflexivity. Qed.

Lemma contains_dot_app (a b : string) :
  NativeRefs.contains_dot (a ++ b)%string
  = NativeRefs.contains_dot a || NativeRefs.contains_dot b.
Proof.
  induction a as [|c a IH]; [reflexivity|].
  rewrite append_cons. simpl. rewrite IH, orb_assoc. reflexivity.
Qed.

Lemma rpartition_head_app (head tail : string) :
  NativeRefs.contains_dot tail = false ->
  NativeRefs.rpartition_head (head ++ "." ++ tail)%string = head.
Proof.
  intros Htail. induction head as [|c head IH].
  - rewrite append_nil_l, append_cons, append_nil_l. simpl.
    rewrite Htail. reflexivity.
  - rewrite append_cons. simpl.
    rewrite IH, contains_dot_app, append_cons, append_nil_l. simpl.
    rewrite orb_true_r. reflexivity.
Qed.

Lemma rpartition_head_split (s : string) :
  NativeRefs.contains_dot s = true ->
  exists tail,
    s = (NativeRefs.rpartition_head s ++ "." ++ tail)%string
    /\ NativeRefs.contains_dot tail = false.
Proof.
  induction s as [|c s IH]; simpl; [discriminate|].
  destruct (NativeRefs.contains_dot s) eqn:Es.
  - intros _. destruct (IH eq_refl) as (tail & E & Ht).
    exists tail. split; [|exact Ht]. rewrite append_cons, <- E. reflexivity.
  - rewrite orb_false_r. unfold NativeRefs.is_dot. intros Ec.
    apply Ascii.eqb_eq in Ec. subst c.
    exists s. split; [reflexivity|exact Es].
Qed.

(** X8.  A reference is native when the symbol it refers to has a name
    without a dot, or when what comes before the last dot of the name --
    the name being read as [head.tail], with no dot in [tail] -- is a
    compiled module or a registered symbol; a reference that is not
    bound is never native.  Every dotted name reads so in one way, and
    a native module reference is a native reference of kind [GDEF]. *)
Theorem native_reference :
  forall (self : Mapper) (expr : NativeRefs.RefExpr),
    (NativeRefs.node expr = None -> NativeRefs.is_native_ref_expr self expr = false)
    /\ (forall n, NativeRefs.node expr = Some n ->
          NativeRefs.contains_dot (NativeRefs.fullname n) = false ->
          NativeRefs.is_native_ref_expr self expr = true)
    /\ (forall head tail,
          NativeRefs.node expr
          = Some (NativeRefs.mkSymbolNode (head ++ "." ++ tail)%string) ->
          NativeRefs.contains_dot tail = false ->
          NativeRefs.is_native_ref_expr self expr
          = is_native_module self head || bool_decide (head ∈ symbol_fullnames self))
    /\ (forall n, NativeRefs.node expr = Some n ->
          NativeRefs.contains_dot (NativeRefs.fullname n) = true ->
          exists head tail,
            NativeRefs.fullname n = (head ++ "." ++ tail)%string
            /\ NativeRefs.contains_dot tail = false)
    /\ (NativeRefs.is_native_module_ref_expr self expr = true ->
        NativeRefs.is_native_ref_expr self expr = true
        /\ NativeRefs.kind expr = Some NativeRefs.GDEF).
Proof.
  intros self expr. unfold NativeRefs.is_native_module_ref_expr,
    NativeRefs.is_native_ref_expr.
  split; [|split; [|split; [|split]]].
  - intros ->. reflexivity.
  - intros n -> Hn. rewrite Hn. reflexivity.
  - intros head tail -> Htail. simpl.
    rewrite (rpartition_head_app head tail Htail).
    rewrite contains_dot_app, append_cons, append_nil_l. simpl.
    rewrite orb_true_r. reflexivity.
  - intros n _ Hn. destruct (rpartition_head_split _ Hn) as (tail & E & Ht).
    eexists _, tail. split; [exact E|exact Ht].
  - rewrite andb_true_iff. intros [H Hk]. split; [exact H|].
    destruct (NativeRefs.kind expr) as [[]|]; try discriminate. reflexivity.
Qed.

(** [app.models.User], with [app.models] among the compiled modules. *)
Lemma native_reference_sample :
  let self := mkMapper {[ "app.models" := Some "group" ]} ∅ ∅ ∅ in
  let user :=
    NativeRefs.mkRefExpr (Some (NativeRefs.mkSymbolNode "app.models.User"))
                         (Some NativeRefs.GDEF) in
  NativeRefs.is_native_ref_expr self user = true.
Proof.
  intros self user.
  rewrite (proj1 (proj2 (proj2 (native_reference self user))) "app.models" "User");
    reflexivity.
Defined.

(** ** Function contexts: the synthesized links *)

Lemma apply_updates_links (us : list ContextLinks.Update) :
  forall fn : Context.FuncInfo,
    let fn' := ContextLinks.apply_updates fn us in
    Context._callable_class fn'
    = List.fold_left
        (fun acc u =>
           match u with ContextLinks.SetCallableClass c => Some c | _ => acc end)
        us (Context._callable_class fn)
    /\ Context._env_class fn'
       = List.fold_left
           (fun acc u =>
              match u with ContextLinks.SetEnvClass c => Some c | _ => acc end)
           us (Context._env_class fn)
    /\ Context._generator_class fn'
       = List.fold_left
           (fun acc u =>
              match u with ContextLinks.SetGeneratorClass c => Some c | _ => acc end)
           us (Context._generator_class fn)
    /\ Context._curr_env_reg fn' = Context._curr_env_reg fn
    /\ Context.fitem fn' = Context.fitem fn
    /\ Context.is_nested fn' = Context.is_nested fn
    /\ Context.contains_nested fn' = Context.contains_nested fn.
Proof.
  induction us as [|u us IH]; intros fn; simpl.
  - repeat split.
  - destruct (IH (ContextLinks.apply_update fn u)) as (H1 & H2 & H3 & H4 & H5 & H6 & H7).
    unfold ContextLinks.apply_updates in *. simpl in *.
    rewrite H1, H2, H3, H4, H5, H6, H7.
    destruct u; repeat split.
Qed.

(** X9.  A [FuncInfo] starts with no synthesized class attached: reading one
    fails an assertion.  After any sequence of assignments through the
    setters, each of the three links reads as the class last assigned to
    it, whatever was assigned to the others, or still fails if none was;
    the current environment register, which has no setter, still fails;
    and whether the classes can be merged has not changed. *)
Theorem funcinfo_links :
  forall fitem name class_name namespace
         is_nested contains_nested is_decorated in_non_ext add_nested
         (us : list ContextLinks.Update),
    let fn0 :=
      ContextLinks.init fitem name class_name namespace
        is_nested contains_nested is_decorated in_non_ext add_nested in
    let fn := ContextLinks.apply_updates fn0 us in
    ContextLinks.callable_class fn
    = ContextNotions.link (ContextNotions.attached_callable us)
    /\ Context.env_class fn = ContextNotions.link (ContextNotions.attached_env us)
    /\ Context.generator_class fn
       = ContextNotions.link (ContextNotions.attached_generator us)
    /\ Context.curr_env_reg fn = Raise (AssertionError EmptyString)
    /\ Context.can_merge_generator_and_env_classes fn
       = Context.can_merge_generator_and_env_classes fn0.
Proof.
  intros. destruct (apply_updates_links us fn0) as (H1 & H2 & H3 & H4 & H5 & H6 & H7).
  fold fn in H1, H2, H3, H4, H5, H6, H7.
  unfold ContextLinks.callable_class, Context.env_class, Context.generator_class,
    Context.curr_env_reg, Context.can_merge_generator_and_env_classes,
    Context.is_generator.
  rewrite H1, H2, H3, H4, H5, H6, H7.
  repeat split.
Qed.

(** ** Integer literals: range and fixed points *)

Lemma truncate_literal_value (v : Z) (t : RType) (rtype : RPrimitive) :
  (0 < size rtype)%Z ->
  Specialize.truncate_literal (Integer v t) rtype
  = Integer (Specialize.twos_complement v (size rtype) (is_signed rtype)) (RPrim rtype).
Proof.
  intros Hs. unfold Specialize.truncate_literal, Specialize.twos_complement.
  rewrite land_max_unsigned by lia.
  replace (size rtype * 8)%Z with (8 * size rtype)%Z by lia.
  rewrite shiftl_1_pow by lia.
  replace (2 ^ (8 * size rtype) - 1 + 1)%Z with (2 ^ (8 * size rtype))%Z by lia.
  assert ((2 ^ (8 * size rtype) / 2)%Z = (2 ^ (8 * size rtype - 1))%Z) as ->.
  { replace (8 * size rtype)%Z with (1 + (8 * size rtype - 1))%Z at 1 by lia.
    rewrite Z.pow_add_r by lia.
    rewrite Z.mul_comm, Z.div_mul by lia. reflexivity. }
  rewrite Z.geb_leb. reflexivity.
Qed.

Lemma pow2_double (s : Z) :
  (0 < s)%Z -> (2 ^ (8 * s) = 2 * 2 ^ (8 * s - 1))%Z /\ (0 < 2 ^ (8 * s - 1))%Z.
Proof.
  intros Hs. split.
  - replace (8 * s)%Z with (1 + (8 * s - 1))%Z at 1 by lia.
    rewrite Z.pow_add_r by lia. reflexivity.
  - apply Z.pow_pos_nonneg; lia.
Qed.

Lemma twos_complement_range (v s : Z) (signed : bool) :
  (0 < s)%Z ->
  let x := Specialize.twos_complement v s signed in
  ((x - v) mod 2 ^ (8 * s) = 0)%Z
  /\ if signed then (- 2 ^ (8 * s - 1) <= x < 2 ^ (8 * s - 1))%Z
     else (0 <= x < 2 ^ (8 * s))%Z.
Proof.
  intros Hs x. subst x. unfold Specialize.twos_complement.
  destruct (pow2_double s Hs) as [HM HH].
  set (M := (2 ^ (8 * s))%Z) in *. set (H := (2 ^ (8 * s - 1))%Z) in *.
  assert (0 < M)%Z as HMpos by lia.
  pose proof (Z.mod_pos_bound v M HMpos) as Hr.
  assert (forall k, ((v mod M + k * M - v) mod M = 0)%Z) as Hcong.
  { intros k. rewrite (Z.mod_eq v M) by lia.
    replace (v - M * (v / M) + k * M - v)%Z with ((k - v / M) * M)%Z by lia.
    apply Z.mod_mul. lia. }
  destruct signed; simpl.
  - destruct (Z.leb_spec H (v mod M)).
    + split; [|lia].
      replace (v mod M - M - v)%Z with (v mod M + (-1) * M - v)%Z by lia.
      apply Hcong.
    + split; [|lia].
      replace (v mod M - v)%Z with (v mod M + 0 * M - v)%Z by lia. apply Hcong.
  - split; [|lia].
    replace (v mod M - v)%Z with (v mod M + 0 * M - v)%Z by lia. apply Hcong.
Qed.

Lemma twos_complement_in_range (v s : Z) (signed : bool) :
  (0 < s)%Z ->
  (if signed then (- 2 ^ (8 * s - 1) <= v < 2 ^ (8 * s - 1))%Z
   else (0 <= v < 2 ^ (8 * s))%Z) ->
  Specialize.twos_complement v s signed = v.
Proof.
  intros Hs Hv. unfold Specialize.twos_complement.
  destruct (pow2_double s Hs) as [HM HH].
  set (M := (2 ^ (8 * s))%Z) in *. set (H := (2 ^ (8 * s - 1))%Z) in *.
  destruct signed; simpl.
  - destruct (Z_lt_le_dec v 0) as [Hneg|Hpos].
    + assert ((v mod M)%Z = (v + M)%Z) as ->.
      { symmetry. apply (Z.mod_unique v M (-1)); lia. }
      destruct (Z.leb_spec H (v + M)); lia.
    + rewrite Z.mod_small by lia.
      destruct (Z.leb_spec H v); lia.
  - apply Z.mod_small. lia.
Qed.

(** X10.  The literal that [truncate_literal] returns for a representation of
    positive size differs from the given one by a multiple of
    [2^(8s)] and lies in the range of the representation: from
    [-2^(8s-1)] up to [2^(8s-1)], excluded, when it is signed, from 0 up
    to [2^(8s)], excluded, when it is not. *)
Theorem truncate_literal_range :
  forall (v : Z) (t : RType) (rtype : RPrimitive),
    (0 < size rtype)%Z ->
    exists x,
      Specialize.truncate_literal (Integer v t) rtype = Integer x (RPrim rtype)
      /\ ((x - v) mod 2 ^ (8 * size rtype) = 0)%Z
      /\ if is_signed rtype
         then (- 2 ^ (8 * size rtype - 1) <= x < 2 ^ (8 * size rtype - 1))%Z
         else (0 <= x < 2 ^ (8 * size rtype))%Z.
Proof.
  intros v t rtype Hs. eexists. split.
  - apply truncate_literal_value. exact Hs.
  - apply twos_complement_range. exact Hs.
Qed.

(** -1 as an unsigned byte. *)
Lemma truncate_literal_range_sample :
  exists x,
    Specialize.truncate_literal (Integer (-1) int_rprimitive) uint8_prim
    = Integer x uint8_rprimitive
    /\ ((x - -1) mod 2 ^ 8 = 0)%Z /\ (0 <= x < 2 ^ 8)%Z.
Proof.
  apply (truncate_literal_range (-1) int_rprimitive uint8_prim). reflexivity.
Defined.

(** X11.  A literal that is in the range of the representation is left as it
    is, up to its type; so truncating twice is truncating once, for
    every value. *)
Theorem truncate_literal_fixed_points :
  forall (rtype : RPrimitive),
    (0 < size rtype)%Z ->
    (forall v t,
       (if is_signed rtype
        then (- 2 ^ (8 * size rtype - 1) <= v < 2 ^ (8 * size rtype - 1))%Z
        else (0 <= v < 2 ^ (8 * size rtype))%Z) ->
       Specialize.truncate_literal (Integer v t) rtype = Integer v (RPrim rtype))
    /\ (forall value,
          Specialize.truncate_literal (Specialize.truncate_literal value rtype) rtype
          = Specialize.truncate_literal value rtype).
Proof.
  intros rtype Hs. split.
  - intros v t Hv. rewrite truncate_literal_value by exact Hs.
    rewrite twos_complement_in_range by assumption. reflexivity.
  - intros [v t|t n|op t]; try reflexivity.
    rewrite !truncate_literal_value by exact Hs.
    rewrite twos_complement_in_range; [reflexivity|exact Hs|].
    apply twos_complement_range. exact Hs.
Qed.

(** 100 fits sixteen signed bits. *)
Lemma truncate_literal_fixed_points_sample :
  Specialize.truncate_literal (Integer 100 int_rprimitive) int16_prim
  = Integer 100 int16_rprimitive.
Proof.
  apply (proj1 (truncate_literal_fixed_points int16_prim eq_refl) 100%Z int_rprimitive).
  simpl. lia.
Defined.

(** ** Conversions between native integers *)

Section ConversionFacts.
Variable IRBuilder : Type.
Variable node_type : IRBuilder -> Expression -> RType.
Variable accept : IRBuilder -> Expression -> bool -> Value * IRBuilder.
Variable add : IRBuilder -> Conversions.Op -> Value * IRBuilder.
Variable coerce : IRBuilder -> Value -> RType -> Z -> Value * IRBuilder.

#[local] Abbreviation translate_to :=
  (Conversions.translate_to IRBuilder node_type accept add coerce).

Ltac native_cases H :=
  unfold Conversions.native_ints in H; simpl in H;
  destruct H as [H|[H|[H|[H|[]]]]]; subst.

Lemma native_int_conversions_aux (builder : IRBuilder) (expr : CallExpr)
    (callee arg : Expression) (src tgt : RPrimitive) :
  In src Conversions.native_ints -> In tgt Conversions.native_ints ->
  Conversions.one_positional expr = Some arg ->
  node_type builder arg = RPrim src ->
  translate_to tgt builder expr callee
  = let '(val, b1) := accept builder arg false in
    if (size src =? size tgt)%Z then (Some val, b1)
    else Conversions.answer IRBuilder
           (add b1 (if (size src <? size tgt)%Z
                    then Conversions.Extend val (RPrim tgt) (is_signed src) (line expr)
                    else Conversions.Truncate val (RPrim tgt) (line expr))).
Proof.
  intros Hsrc Htgt Hone Hty.
  native_cases Hsrc; native_cases Htgt;
    unfold Conversions.translate_to, Conversions.translate_i64,
      Conversions.translate_i32, Conversions.translate_i16,
      Conversions.translate_u8, Conversions.accept_and_add, Conversions.answer;
    simpl; rewrite Hone, Hty; simpl;
    destruct (accept builder arg false) as [val b1]; reflexivity.
Qed.

Lemma literal_conversions_aux (builder : IRBuilder) (expr : CallExpr)
    (callee arg : Expression) (tgt : RPrimitive) :
  In tgt Conversions.native_ints ->
  Conversions.one_positional expr = Some arg ->
  node_type builder arg = int_rprimitive \/ node_type builder arg = bool_rprimitive ->
  translate_to tgt builder expr callee
  = let '(val, b1) := accept builder arg false in
    Conversions.answer IRBuilder
      (coerce b1
         (if RTypes.name tgt =? "i64" then val
          else Specialize.truncate_literal val tgt)
         (RPrim tgt) (line expr)).
Proof.
  intros Htgt Hone Hty.
  native_cases Htgt;
    unfold Conversions.translate_to, Conversions.translate_i64,
      Conversions.translate_i32, Conversions.translate_i16,
      Conversions.translate_u8, Conversions.answer;
    simpl; rewrite Hone; destruct Hty as [-> | ->]; simpl;
    destruct (accept builder arg false) as [val b1]; reflexivity.
Qed.

End ConversionFacts.

(** X12.  The four specializers for [i64], [i32], [i16] and [u8] convert
    between these types by one rule: the argument is compiled, and then
    nothing more is emitted when it has the target type already, an
    [Extend] when it is narrower than the target, signed as the type of
    the argument is, and a [Truncate] when it is wider. *)
Theorem native_int_conversions :
  forall (IRBuilder : Type)
         (node_type : IRBuilder -> Expression -> RType)
         (accept : IRBuilder -> Expression -> bool -> Value * IRBuilder)
         (add : IRBuilder -> Conversions.Op -> Value * IRBuilder)
         (coerce : IRBuilder -> Value -> RType -> Z -> Value * IRBuilder)
         (builder : IRBuilder) (expr : CallExpr) (callee arg : Expression)
         (src tgt : RPrimitive),
    In src Conversions.native_ints -> In tgt Conversions.native_ints ->
    Conversions.one_positional expr = Some arg ->
    node_type builder arg = RPrim src ->
    Conversions.translate_to IRBuilder node_type accept add coerce tgt builder expr callee
    = let '(val, b1) := accept builder arg false in
      if (size src =? size tgt)%Z then (Some val, b1)
      else Conversions.answer IRBuilder
             (add b1 (if (size src <? size tgt)%Z
                      then Conversions.Extend val (RPrim tgt) (is_signed src)
                                              (line expr)
                      else Conversions.Truncate val (RPrim tgt) (line expr))).
Proof.
  intros. apply native_int_conversions_aux; assumption.
Qed.

(** X13.  For an argument of type [int] or [bool] the same four specializers
    compile the argument and coerce it to the target; on the way to
    [i32], [i16] and [u8] the value goes through [truncate_literal], so
    that a literal reaches the coercion already in the range of the
    target, and on the way to [i64] it does not. *)
Theorem literal_conversions :
  forall (IRBuilder : Type)
         (node_type : IRBuilder -> Expression -> RType)
         (accept : IRBuilder -> Expression -> bool -> Value * IRBuilder)
         (add : IRBuilder -> Conversions.Op -> Value * IRBuilder)
         (coerce : IRBuilder -> Value -> RType -> Z -> Value * IRBuilder)
         (builder : IRBuilder) (expr : CallExpr) (callee arg : Expression)
         (tgt : RPrimitive),
    In tgt Conversions.native_ints ->
    Conversions.one_positional expr = Some arg ->
    node_type builder arg = int_rprimitive \/ node_type builder arg = bool_rprimitive ->
    (Conversions.translate_to IRBuilder node_type accept add coerce tgt
       builder expr callee
     = let '(val, b1) := accept builder arg false in
       Conversions.answer IRBuilder
         (coerce b1
            (if RTypes.name tgt =? "i64" then val
             else Specialize.truncate_literal val tgt)
            (RPrim tgt) (line expr)))
    /\ (forall n t b1,
          accept builder arg false = (Integer n t, b1) ->
          RTypes.name tgt <> "i64" ->
          exists x,
            Conversions.translate_to IRBuilder node_type accept add coerce tgt
              builder expr callee
            = Conversions.answer IRBuilder (coerce b1 (Integer x (RPrim tgt)) (RPrim tgt)
                                         (line expr))
            /\ ((x - n) mod 2 ^ (8 * size tgt) = 0)%Z
            /\ if is_signed tgt
               then (- 2 ^ (8 * size tgt - 1) <= x < 2 ^ (8 * size tgt - 1))%Z
               else (0 <= x < 2 ^ (8 * size tgt))%Z).
Proof.
  intros IRBuilder node_type accept add coerce builder expr callee arg tgt
    Htgt Hone Hty.
  pose proof (literal_conversions_aux IRBuilder node_type accept add coerce
                builder expr callee arg tgt Htgt Hone Hty) as E.
  split; [exact E|].
  intros n t b1 Hacc Hname. rewrite E, Hacc.
  apply String.eqb_neq in Hname. rewrite Hname.
  assert (0 < size tgt)%Z as Hs.
  { unfold Conversions.native_ints in Htgt. simpl in Htgt.
    destruct Htgt as [<-|[<-|[<-|[<-|[]]]]]; reflexivity. }
  rewrite truncate_literal_value by exact Hs.
  eexists. split; [reflexivity|].
  apply twos_complement_range. exact Hs.
Qed.

(** [i32(small)], with [small] a [u8]: a zero extension. *)
Lemma native_int_conversions_sample :
  Conversions.translate_i32 nat MoreSamples.sample_node_type MoreSamples.sample_accept
    MoreSamples.sample_add MoreSamples.sample_coerce
    0%nat (MoreSamples.call_of "i32" (NameExpr "small" "app.small"))
    (NameExpr "i32" "mypy_extensions.i32")
  = let '(val, b1) :=
      MoreSamples.sample_accept 0%nat (NameExpr "small" "app.small") false in
    Conversions.answer nat
      (MoreSamples.sample_add b1 (Conversions.Extend val int32_rprimitive false 5)).
Proof.
  apply (native_int_conversions nat MoreSamples.sample_node_type
           MoreSamples.sample_accept MoreSamples.sample_add MoreSamples.sample_coerce
           0%nat (MoreSamples.call_of "i32" (NameExpr "small" "app.small"))
           (NameExpr "i32" "mypy_extensions.i32") (NameExpr "small" "app.small")
           uint8_prim int32_prim).
  - simpl. tauto.
  - simpl. tauto.
  - reflexivity.
  - reflexivity.
Defined.

(** [i16(70000)]: the coercion is handed 4464. *)
Lemma literal_conversions_sample :
  Conversions.translate_i16 nat MoreSamples.sample_node_type MoreSamples.sample_accept
    MoreSamples.sample_add MoreSamples.sample_coerce
    0%nat (MoreSamples.call_of "i16" (IntExpr 70000))
    (NameExpr "i16" "mypy_extensions.i16")
  = Conversions.answer nat
      (MoreSamples.sample_coerce 0%nat (Integer 4464 int16_rprimitive)
         int16_rprimitive 5).
Proof.
  apply (proj1 (literal_conversions nat MoreSamples.sample_node_type
           MoreSamples.sample_accept MoreSamples.sample_add MoreSamples.sample_coerce
           0%nat (MoreSamples.call_of "i16" (IntExpr 70000))
           (NameExpr "i16" "mypy_extensions.i16") (IntExpr 70000) int16_prim
           ltac:(simpl; tauto) eq_refl (or_introl eq_refl))).
Defined.

(** ** Declining emits nothing *)

(** X14.  A specializer among those embedded here that declines a call leaves
    the builder as it found it, whatever the services of the builder do;
    and each of those that take one positional argument declines every
    call that has not exactly one argument, or has it passed otherwise
    than by position. *)
Theorem declining_emits_nothing :
  forall (IRBuilder : Type)
         (node_type : IRBuilder -> Expression -> RType)
         (accept : IRBuilder -> Expression -> bool -> Value * IRBuilder)
         (add : IRBuilder -> Conversions.Op -> Value * IRBuilder)
         (coerce : IRBuilder -> Value -> RType -> Z -> Value * IRBuilder)
         (builtin_len : IRBuilder -> Value -> Z -> Value * IRBuilder)
         (bool_value : IRBuilder -> Value -> Value * IRBuilder)
         (load_globals_dict : IRBuilder -> Value * IRBuilder)
         (call_c : IRBuilder -> Specialize.CFunctionDescription -> list Value -> Z
                   -> Value * IRBuilder)
         (lower : string -> string)
         (builder : IRBuilder) (expr : CallExpr) (callee : Expression),
    (forall f builder',
       In f (Embedded.specializers IRBuilder node_type accept add coerce builtin_len
               bool_value load_globals_dict call_c lower) ->
       f builder expr callee = (None, builder') -> builder' = builder)
    /\ (forall f,
          In f (Embedded.one_argument_specializers IRBuilder node_type accept add
                  coerce builtin_len bool_value) ->
          Conversions.one_positional expr = None ->
          f builder expr callee = (None, builder)).
Proof.
  intros IRBuilder node_type accept add coerce builtin_len bool_value
    load_globals_dict call_c lower builder expr the_callee.
  split.
  - intros f b' Hf. unfold Embedded.specializers, Embedded.one_argument_specializers in Hf.
    simpl in Hf.
    repeat (destruct Hf as [<-|Hf]); try contradiction.
    + unfold Conversions.translate_globals, Conversions.answer.
      destruct (args expr); [discriminate|]. intros E. injection E as <-. reflexivity.
    + unfold Specialize.str_encode_fast_path, Specialize.emit_encode.
      destruct the_callee; try (intros E; injection E as <-; reflexivity).
      repeat match goal with
      | |- context [if ?c then _ else _] => destruct c
      | |- context [match Specialize.read_arg ?a ?b ?c ?d with _ => _ end] =>
          destruct (Specialize.read_arg a b c d) as [[? ?]|]
      | |- context [let '(_, _) := ?r in _] => destruct r
      end; try discriminate; intros E; injection E as <-; reflexivity.
    + unfold Conversions.translate_len, Conversions.answer.
      destruct (Conversions.one_positional expr);
        [|intros E; injection E as <-; reflexivity].
      destruct (node_type builder e); repeat match goal with
      | |- context [let '(_, _) := ?r in _] => destruct r
      end; discriminate.
    + unfold Conversions.translate_i64, Conversions.accept_and_add, Conversions.answer.
      destruct (Conversions.one_positional expr);
        [|intros E; injection E as <-; reflexivity].
      repeat match goal with
      | |- context [if ?c then _ else _] => destruct c
      | |- context [let '(_, _) := ?r in _] => destruct r
      end; try discriminate; intros E; injection E as <-; reflexivity.
    + unfold Conversions.translate_i32, Conversions.accept_and_add, Conversions.answer.
      destruct (Conversions.one_positional expr);
        [|intros E; injection E as <-; reflexivity].
      repeat match goal with
      | |- context [if ?c then _ else _] => destruct c
      | |- context [let '(_, _) := ?r in _] => destruct r
      end; try discriminate; intros E; injection E as <-; reflexivity.
    + unfold Conversions.translate_i16, Conversions.accept_and_add, Conversions.answer.
      destruct (Conversions.one_positional expr);
        [|intros E; injection E as <-; reflexivity].
      repeat match goal with
      | |- context [if ?c then _ else _] => destruct c
      | |- context [let '(_, _) := ?r in _] => destruct r
      end; try discriminate; intros E; injection E as <-; reflexivity.
    + unfold Conversions.translate_u8, Conversions.accept_and_add, Conversions.answer.
      destruct (Conversions.one_positional expr);
        [|intros E; injection E as <-; reflexivity].
      repeat match goal with
      | |- context [if ?c then _ else _] => destruct c
      | |- context [let '(_, _) := ?r in _] => destruct r
      end; try discriminate; intros E; injection E as <-; reflexivity.
    + unfold Conversions.translate_int, Conversions.answer.
      destruct (Conversions.one_positional expr);
        [|intros E; injection E as <-; reflexivity].
      repeat match goal with
      | |- context [if ?c then _ else _] => destruct c
      | |- context [let '(_, _) := ?r in _] => destruct r
      end; try discriminate; intros E; injection E as <-; reflexivity.
    + unfold Conversions.translate_bool, Conversions.answer.
      destruct (Conversions.one_positional expr);
        [|intros E; injection E as <-; reflexivity].
      destruct (accept builder e false). discriminate.
    + unfold Conversions.translate_float, Conversions.answer.
      destruct (Conversions.one_positional expr);
        [|intros E; injection E as <-; reflexivity].
      destruct (Conversions.is_float_rprimitive _);
        [discriminate|intros E; injection E as <-; reflexivity].
  - intros f Hf Hone. unfold Embedded.one_argument_specializers in Hf. simpl in Hf.
    repeat (destruct Hf as [<-|Hf]); try contradiction;
      unfold Conversions.translate_len, Conversions.translate_i64,
        Conversions.translate_i32, Conversions.translate_i16, Conversions.translate_u8,
        Conversions.translate_int, Conversions.translate_bool,
        Conversions.translate_float;
      rewrite Hone; reflexivity.
Qed.

(** A call of [i64] with two arguments is declined, nothing emitted. *)
Lemma declining_emits_nothing_sample :
  Conversions.translate_i64 nat MoreSamples.sample_node_type MoreSamples.sample_accept
    MoreSamples.sample_add MoreSamples.sample_coerce 0%nat
    (mkCallExpr (NameExpr "i64" "mypy_extensions.i64")
       [mkCallArg (IntExpr 1) ARG_POS None; mkCallArg (IntExpr 2) ARG_POS None] 5)
    (NameExpr "i64" "mypy_extensions.i64")
  = (None, 0%nat).
Proof.
  apply (proj2 (declining_emits_nothing nat MoreSamples.sample_node_type
                  MoreSamples.sample_accept MoreSamples.sample_add
                  MoreSamples.sample_coerce
                  (fun b v _ => (v, b)) (fun b v => (v, b))
                  (fun b => (Register dict_rprimitive "globals", b))
                  Samples.counting_call_c Specialize.lower_ascii_string 0%nat
                  (mkCallExpr (NameExpr "i64" "mypy_extensions.i64")
                     [mkCallArg (IntExpr 1) ARG_POS None;
                      mkCallArg (IntExpr 2) ARG_POS None] 5)
                  (NameExpr "i64" "mypy_extensions.i64"))).
  - simpl. right. left. reflexivity.
  - reflexivity.
Defined.

(** ** Dispatch *)

(** X15.  With the table that a sequence of registrations leaves, a call of a
    function runs the specializers registered under the full name of
    the callee without a receiver type, in the order of their
    registration; a method call with a receiver type runs those
    registered under the short name of the method and an equal type, and
    without a receiver type those under the full name.  A callee whose
    name is empty runs none, whatever is registered. *)
Theorem dispatch_keys :
  forall (IRBuilder : Type) (regs : list (Specialize.Registration IRBuilder))
         (builder : IRBuilder) (expr : CallExpr)
         (receiver : Expression) (n fn : string) (t : RType),
    let table := Specialize.register_all IRBuilder regs [] in
    let run k callee :=
      Ok (Specialize.first_successful IRBuilder 0
            (Specialize.registered_for IRBuilder k regs) builder expr callee) in
    (fn <> EmptyString ->
     Dispatch.apply_function_specialization IRBuilder table builder expr
       (NameExpr n fn)
     = run (fn, None) (NameExpr n fn))
    /\ (n <> EmptyString ->
        Dispatch.apply_method_specialization IRBuilder table builder expr
          (MemberExpr receiver n fn) (Some t)
        = run (n, Some t) (MemberExpr receiver n fn))
    /\ (fn <> EmptyString ->
        Dispatch.apply_method_specialization IRBuilder table builder expr
          (MemberExpr receiver n fn) None
        = run (fn, None) (MemberExpr receiver n fn))
    /\ Dispatch.apply_function_specialization IRBuilder table builder expr
         (NameExpr n EmptyString)
       = Ok (None, builder, []).
Proof.
  intros IRBuilder regs builder expr receiver n fn t table run.
  assert (forall name typ the_callee, name <> EmptyString ->
            Specialize._apply_specialization IRBuilder table builder expr the_callee
              (Some name) typ
            = Specialize.first_successful IRBuilder 0
                (Specialize.registered_for IRBuilder (name, typ) regs)
                builder expr the_callee) as H.
  { intros name typ the_callee Hname. unfold Specialize._apply_specialization.
    destruct (String.eqb_spec name EmptyString) as [E|_]; [contradiction|]. simpl.
    unfold table. rewrite lookup_register_all. simpl.
    destruct (Specialize.registered_for IRBuilder (name, typ) regs); reflexivity. }
  unfold run, Dispatch.apply_function_specialization,
    Dispatch.apply_method_specialization.
  repeat split; intros; try (rewrite H by assumption); reflexivity.
Qed.

(** [len(xs)] runs the three specializers of [builtins.len]. *)
Lemma dispatch_keys_sample :
  Dispatch.apply_function_specialization nat Samples.len_table 0%nat Samples.len_call
    (NameExpr "len" "builtins.len")
  = Ok (Specialize.first_successful nat 0
          [Samples.declining; Samples.answering 1; Samples.answering 2]
          0%nat Samples.len_call (NameExpr "len" "builtins.len")).
Proof.
  apply (proj1 (dispatch_keys nat Samples.len_registrations 0%nat Samples.len_call
                  (NameExpr "xs" "xs") "len" "builtins.len" int_rprimitive)).
  discriminate.
Defined.

(** X16.  Registering a specializer puts it at the end of the list of its
    key, a new list if the key had none, and changes the list of no
    other key. *)
Theorem registration_appends :
  forall (IRBuilder : Type) (table : Specialize.Specializers IRBuilder)
         (n : string) (t : option RType) (f : Specialize.Specializer IRBuilder)
         (k : Specialize.Key),
    let table' := Specialize.specialize_function IRBuilder n t f table in
    (Specialize.Key_eqb (n, t) k = true ->
     Specialize.lookup IRBuilder table' k
     = Some (match Specialize.lookup IRBuilder table k with
             | Some rules => rules ++ [f]
             | None => [f]
             end))
    /\ (Specialize.Key_eqb (n, t) k = false ->
        Specialize.lookup IRBuilder table' k = Specialize.lookup IRBuilder table k).
Proof.
  intros IRBuilder table n t f k table'. unfold table'.
  rewrite lookup_specialize_function.
  split; intros ->; reflexivity.
Qed.

(** Registering a fourth specializer for [builtins.len]. *)
Lemma registration_appends_sample :
  Specialize.lookup nat
    (Specialize.specialize_function nat "builtins.len" None Samples.declining
       Samples.len_table)
    ("builtins.len", None)
  = Some [Samples.declining; Samples.answering 1; Samples.answering 2;
          Samples.declining].
Proof.
  apply (proj1 (registration_appends nat Samples.len_table "builtins.len" None
                  Samples.declining ("builtins.len", None))).
  reflexivity.
Defined.

(** ** Normalized encoding names *)

Lemma lower_ascii_idempotent (c : ascii) :
  Specialize.lower_ascii (Specialize.lower_ascii c) = Specialize.lower_ascii c.
Proof.
  destruct c as [[] [] [] [] [] [] [] []]; reflexivity.
Qed.

Lemma lower_ascii_hyphen (c : ascii) :
  Ascii.eqb (Specialize.lower_ascii c) "-"%char = Ascii.eqb c "-"%char.
Proof.
  destruct c as [[] [] [] [] [] [] [] []]; reflexivity.
Qed.

Lemma lower_ascii_underscore (c : ascii) :
  Ascii.eqb (Specialize.lower_ascii c) "_"%char = Ascii.eqb c "_"%char.
Proof.
  destruct c as [[] [] [] [] [] [] [] []]; reflexivity.
Qed.

Lemma lower_ascii_is_ascii (c : ascii) :
  (nat_of_ascii (Specialize.lower_ascii c) <? 128)%nat = (nat_of_ascii c <? 128)%nat.
Proof.
  destruct c as [[] [] [] [] [] [] [] []]; reflexivity.
Qed.

Lemma lower_idempotent (s : string) :
  Specialize.lower_ascii_string (Specialize.lower_ascii_string s)
  = Specialize.lower_ascii_string s.
Proof.
  induction s as [|c s IH]; simpl; [reflexivity|].
  rewrite lower_ascii_idempotent, IH. reflexivity.
Qed.

Lemma lower_remove_char (d : ascii) (s : string) :
  (forall c, Ascii.eqb (Specialize.lower_ascii c) d = Ascii.eqb c d) ->
  Specialize.lower_ascii_string (Specialize.remove_char d s)
  = Specialize.remove_char d (Specialize.lower_ascii_string s).
Proof.
  intros Hd. induction s as [|c s IH]; simpl; [reflexivity|].
  rewrite Hd. destruct (Ascii.eqb c d); simpl; rewrite IH; reflexivity.
Qed.

Lemma remove_char_idempotent (d : ascii) (s : string) :
  Specialize.remove_char d (Specialize.remove_char d s) = Specialize.remove_char d s.
Proof.
  induction s as [|c s IH]; simpl; [reflexivity|].
  destruct (Ascii.eqb c d) eqn:E; simpl; [exact IH|].
  rewrite E, IH. reflexivity.
Qed.

Lemma remove_char_comm (d e : ascii) (s : string) :
  Specialize.remove_char d (Specialize.remove_char e s)
  = Specialize.remove_char e (Specialize.remove_char d s).
Proof.
  induction s as [|c s IH]; simpl; [reflexivity|].
  destruct (Ascii.eqb c e) eqn:Ee, (Ascii.eqb c d) eqn:Ed; simpl;
    rewrite ?Ee, ?Ed, IH; reflexivity.
Qed.

(** Lower-casing ASCII text, and dropping a character from it, give
    ASCII text. *)
Lemma is_ascii_lower (s : string) :
  Specialize.is_ascii (Specialize.lower_ascii_string s) = Specialize.is_ascii s.
Proof.
  induction s as [|c s IH]; simpl; [reflexivity|].
  rewrite lower_ascii_is_ascii, IH. reflexivity.
Qed.

Lemma is_ascii_remove_char (d : ascii) (s : string) :
  Specialize.is_ascii s = true -> Specialize.is_ascii (Specialize.remove_char d s) = true.
Proof.
  induction s as [|c s IH]; simpl; [reflexivity|].
  intros H. apply andb_true_iff in H as [Hc Hs].
  destruct (Ascii.eqb c d); simpl; [exact (IH Hs)|].
  rewrite Hc. exact (IH Hs).
Qed.

(** On ASCII text, normalizing is lower-casing the letters A to Z and
    dropping every "-" and "_", and gives ASCII text. *)
Lemma normalize_ascii (lower : string -> string) (s : string) :
  Specialize.lowers_ascii lower -> Specialize.is_ascii s = true ->
  Specialize.normalize lower s
  = Specialize.remove_char "_"
      (Specialize.remove_char "-" (Specialize.lower_ascii_string s))
  /\ Specialize.is_ascii (Specialize.normalize lower s) = true.
Proof.
  intros Hlower Hs. unfold Specialize.normalize. rewrite (Hlower s Hs).
  split; [reflexivity|].
  apply is_ascii_remove_char, is_ascii_remove_char.
  rewrite is_ascii_lower. exact Hs.
Qed.

(** X17.  For an encoding name of ASCII characters, and a [lower] that
    lower-cases ASCII text as [str.lower] does: the normal form of the
    name is not changed by normalizing again; and the name has the
    normal form of its lower-case form, and of what is left of it
    without its hyphens or without its underscores.  So [str.encode]
    with such an encoding literal and with the normal form of that
    literal are specialized alike. *)
Theorem normalize_invariance :
  forall (lower : string -> string) (s : string),
    Specialize.lowers_ascii lower ->
    Specialize.is_ascii s = true ->
    Specialize.normalize lower (Specialize.normalize lower s)
    = Specialize.normalize lower s
    /\ Specialize.normalize lower (lower s) = Specialize.normalize lower s
    /\ Specialize.normalize lower (Specialize.remove_char "-" s)
       = Specialize.normalize lower s
    /\ Specialize.normalize lower (Specialize.remove_char "_" s)
       = Specialize.normalize lower s
    /\ (forall (IRBuilder : Type) accept call_c (builder : IRBuilder)
               (c the_callee : Expression) (ln : Z),
          Specialize.str_encode_fast_path IRBuilder lower accept call_c builder
            (mkCallExpr c
               [mkCallArg (StrExpr (Specialize.normalize lower s)) ARG_POS None] ln)
            the_callee
          = Specialize.str_encode_fast_path IRBuilder lower accept call_c builder
              (mkCallExpr c [mkCallArg (StrExpr s) ARG_POS None] ln) the_callee).
Proof.
  intros lower s Hlower Hs.
  destruct (normalize_ascii lower s Hlower Hs) as [Hn Hna].
  assert (Specialize.normalize lower (Specialize.normalize lower s)
          = Specialize.normalize lower s) as Hidem.
  { rewrite (proj1 (normalize_ascii lower _ Hlower Hna)). rewrite Hn.
    rewrite (lower_remove_char "_") by apply lower_ascii_underscore.
    rewrite (lower_remove_char "-") by apply lower_ascii_hyphen.
    rewrite lower_idempotent.
    rewrite (remove_char_comm "-" "_").
    rewrite !remove_char_idempotent.
    reflexivity. }
  split; [exact Hidem|]. split; [|split; [|split]].
  - rewrite (Hlower s Hs).
    assert (Specialize.is_ascii (Specialize.lower_ascii_string s) = true) as Hl
      by (rewrite is_ascii_lower; exact Hs).
    rewrite (proj1 (normalize_ascii lower _ Hlower Hl)), Hn.
    rewrite lower_idempotent. reflexivity.
  - rewrite (proj1 (normalize_ascii lower _ Hlower (is_ascii_remove_char "-" s Hs))), Hn.
    rewrite (lower_remove_char "-") by apply lower_ascii_hyphen.
    rewrite remove_char_idempotent. reflexivity.
  - rewrite (proj1 (normalize_ascii lower _ Hlower (is_ascii_remove_char "_" s Hs))), Hn.
    rewrite (lower_remove_char "_") by apply lower_ascii_underscore.
    rewrite (remove_char_comm "-" "_"), remove_char_idempotent.
    reflexivity.
  - intros IRBuilder accept call_c builder c the_callee ln.
    unfold Specialize.str_encode_fast_path.
    destruct the_callee; try reflexivity.
    cbn -[Specialize.normalize Specialize.str_in].
    rewrite Hidem. reflexivity.
Qed.

(** The name "Latin_1", its normal form "latin1", and the name
    "ISO-8859-1" without its hyphens. *)
Lemma normalize_invariance_sample :
  let normalize := Specialize.normalize Specialize.lower_ascii_string in
  normalize "Latin_1" = "latin1"
  /\ normalize (normalize "Latin_1") = normalize "Latin_1"
  /\ normalize (Specialize.remove_char "-" "ISO-8859-1") = normalize "ISO-8859-1".
Proof.
  assert (Specialize.lowers_ascii Specialize.lower_ascii_string) as Hlower
    by (intros s _; reflexivity).
  split; [reflexivity|]. split.
  - apply (normalize_invariance Specialize.lower_ascii_string "Latin_1" Hlower eq_refl).
  - apply (normalize_invariance Specialize.lower_ascii_string "ISO-8859-1" Hlower eq_refl).
Defined.

(** ** Dataclass transforms *)

Lemma find_overloaded_nil (impl : option DataclassTransform.Node) :
  DataclassTransform.find_dataclass_transform_spec
    (DataclassTransform.OverloadedFuncDef [] impl)
  = DataclassTransform.find_dataclass_transform_spec_opt impl.
Proof. reflexivity. Qed.

Lemma find_overloaded_cons (c : DataclassTransform.Node)
    (rest : list DataclassTransform.Node) (impl : option DataclassTransform.Node) :
  DataclassTransform.find_dataclass_transform_spec
    (DataclassTransform.OverloadedFuncDef (c :: rest) impl)
  = match DataclassTransform.find_dataclass_transform_spec c with
    | Some s => Some s
    | None =>
        DataclassTransform.find_dataclass_transform_spec
          (DataclassTransform.OverloadedFuncDef rest impl)
    end.
Proof. reflexivity. Qed.

(** X18.  Of the items of an overloaded function the first that has a spec
    gives it, whatever the later items and the implementation have; when
    no item has one, the implementation gives it, if there is one. *)
Theorem overloads_first_spec :
  forall (impl : option DataclassTransform.Node),
    (forall before c after s,
       Forall (fun x => DataclassTransform.find_dataclass_transform_spec x = None)
              before ->
       DataclassTransform.find_dataclass_transform_spec c = Some s ->
       DataclassTransform.find_dataclass_transform_spec
         (DataclassTransform.OverloadedFuncDef (before ++ c :: after) impl)
       = Some s)
    /\ (forall items,
          Forall (fun x => DataclassTransform.find_dataclass_transform_spec x = None)
                 items ->
          DataclassTransform.find_dataclass_transform_spec
            (DataclassTransform.OverloadedFuncDef items impl)
          = DataclassTransform.find_dataclass_transform_spec_opt impl).
Proof.
  intros impl. split.
  - intros before c after s Hbefore Hc.
    induction Hbefore as [|x before Hx _ IH].
    + change ([] ++ c :: after) with (c :: after).
      rewrite find_overloaded_cons, Hc. reflexivity.
    + change ((x :: before) ++ c :: after) with (x :: (before ++ c :: after)).
      rewrite find_overloaded_cons, Hx. exact IH.
  - intros items Hitems.
    induction Hitems as [|x items Hx _ IH].
    + apply find_overloaded_nil.
    + rewrite find_overloaded_cons, Hx. exact IH.
Qed.

(** The second overload carries the spec. *)
Lemma overloads_first_spec_sample :
  DataclassTransform.find_dataclass_transform_spec MoreSamples.overloaded_decorator
  = Some MoreSamples.frozen_spec.
Proof.
  apply (proj1 (overloads_first_spec
                  (Some (DataclassTransform.FuncDef (Some MoreSamples.plain_spec))))
           [DataclassTransform.Decorator (DataclassTransform.FuncDef None)]
           (DataclassTransform.Decorator
              (DataclassTransform.FuncDef (Some MoreSamples.frozen_spec)))
           [DataclassTransform.Decorator
              (DataclassTransform.FuncDef (Some MoreSamples.plain_spec))]).
  - repeat constructor.
  - reflexivity.
Defined.

Lemma first_spec_app (before after : list DataclassTransform.ClassEntry) :
  Forall DataclassNotions.no_spec before ->
  DataclassTransform.first_spec (before ++ after) = DataclassTransform.first_spec after.
Proof.
  induction 1 as [|b before Hb _ IH]; simpl; [reflexivity|].
  unfold DataclassNotions.no_spec in Hb. rewrite Hb. exact IH.
Qed.

(** X19.  For a class, given as its definition or as its [TypeInfo] alike,
    the spec of the class itself counts for nothing: the first of its
    parent classes, in the order of the method resolution, that has a
    spec gives it, whatever the metaclass has; when no parent has one,
    the metaclass gives it, if there is one and it has one. *)
Theorem class_spec_from_parents :
  forall (own : DataclassTransform.ClassEntry)
         (metaclass : option DataclassTransform.ClassEntry),
    (forall info,
       DataclassTransform.find_dataclass_transform_spec (DataclassTransform.ClassDef info)
       = DataclassTransform.find_dataclass_transform_spec
           (DataclassTransform.TypeInfoNode info))
    /\ (forall before base after s,
          Forall DataclassNotions.no_spec before ->
          DataclassTransform.dataclass_transform_spec base = Some s ->
          DataclassTransform.find_dataclass_transform_spec
            (DataclassTransform.TypeInfoNode
               (DataclassTransform.mkTypeInfo (own :: before ++ base :: after)
                                              metaclass))
          = Some s)
    /\ (forall parents,
          Forall DataclassNotions.no_spec parents ->
          DataclassTransform.find_dataclass_transform_spec
            (DataclassTransform.TypeInfoNode
               (DataclassTransform.mkTypeInfo (own :: parents) metaclass))
          = match metaclass with
            | Some m => DataclassTransform.dataclass_transform_spec m
            | None => None
            end).
Proof.
  intros own metaclass. split; [reflexivity|]. split.
  - intros before base after s Hbefore Hbase.
    simpl. unfold DataclassTransform.spec_of_info. simpl.
    rewrite (first_spec_app before (base :: after) Hbefore). simpl.
    rewrite Hbase. reflexivity.
  - intros parents Hparents.
    simpl. unfold DataclassTransform.spec_of_info. simpl.
    rewrite <- (app_nil_r parents), (first_spec_app parents [] Hparents).
    reflexivity.
Qed.

(** [app.Model], decorated itself, below [orm.Record]. *)
Lemma class_spec_from_parents_sample :
  DataclassTransform.find_dataclass_transform_spec
    (DataclassTransform.TypeInfoNode MoreSamples.model_class)
  = Some MoreSamples.frozen_spec.
Proof.
  apply (proj1 (proj2 (class_spec_from_parents
                         (DataclassTransform.mkClassEntry "app.Model"
                            (Some MoreSamples.plain_spec))
                         (Some (DataclassTransform.mkClassEntry "orm.Meta"
                                  (Some MoreSamples.plain_spec)))))
           [DataclassTransform.mkClassEntry "app.Base" None]
           (DataclassTransform.mkClassEntry "orm.Record" (Some MoreSamples.frozen_spec))
           [DataclassTransform.mkClassEntry "builtins.object" None]).
  - repeat constructor.
  - reflexivity.
Defined.

(** X20.  A call is unwrapped to its callee, a reference to what it refers
    to, and a decorator to its function, in this order and each once: a
    call of a callee gives what the callee gives, unless the callee is
    a call itself, and then it gives nothing; likewise for a reference
    to a reference and a decorator of a decorator.  A reference that is
    not bound gives nothing. *)
Theorem unwrapping_once :
  forall (n : DataclassTransform.Node),
    (DataclassNotions.is_call n = false ->
     DataclassTransform.find_dataclass_transform_spec (DataclassTransform.CallExpr n)
     = DataclassTransform.find_dataclass_transform_spec n)
    /\ (DataclassNotions.is_call n = false -> DataclassNotions.is_ref n = false ->
        DataclassTransform.find_dataclass_transform_spec
          (DataclassTransform.RefExpr (Some n))
        = DataclassTransform.find_dataclass_transform_spec n)
    /\ (DataclassNotions.is_call n = false -> DataclassNotions.is_ref n = false ->
        DataclassNotions.is_decorator n = false ->
        DataclassTransform.find_dataclass_transform_spec (DataclassTransform.Decorator n)
        = DataclassTransform.find_dataclass_transform_spec n)
    /\ DataclassTransform.find_dataclass_transform_spec
         (DataclassTransform.CallExpr (DataclassTransform.CallExpr n)) = None
    /\ DataclassTransform.find_dataclass_transform_spec
         (DataclassTransform.RefExpr (Some (DataclassTransform.RefExpr (Some n)))) = None
    /\ DataclassTransform.find_dataclass_transform_spec
         (DataclassTransform.Decorator (DataclassTransform.Decorator n)) = None
    /\ DataclassTransform.find_dataclass_transform_spec (DataclassTransform.RefExpr None)
       = None.
Proof.
  intros n. repeat split; try reflexivity;
    destruct n; intros; try discriminate; reflexivity.
Qed.

(** [@transform(frozen=True)] and [@transform], with [transform] bound to
    the overloaded decorator. *)
Lemma unwrapping_once_sample :
  DataclassTransform.find_dataclass_transform_spec
    (DataclassTransform.CallExpr
       (DataclassTransform.RefExpr (Some MoreSamples.overloaded_decorator)))
  = DataclassTransform.find_dataclass_transform_spec
      (DataclassTransform.RefExpr (Some MoreSamples.overloaded_decorator)).
Proof.
  apply (proj1 (unwrapping_once
                  (DataclassTransform.RefExpr (Some MoreSamples.overloaded_decorator)))).
  reflexivity.
Defined.
